(** * Python backend bridge (src/python.cc): worker handshake and batch marshaling

    A shallow embedding of the host side of the Python backend: the
    initialization handshake with the worker process
    ([ConnectPythonInterpreter], [CreatePythonInterpreter],
    [TRITONBACKEND_ModelInstanceInitialize], the instance destructor) and the
    batch round trip ([GetInputTensor], [TRITONBACKEND_ModelInstanceExecute]).

    Conventions.
    - A C++ pointer that may be [nullptr] is an [option]; [None] is [nullptr].
    - Everything the process does not decide itself (what [fork], [mkdtemp]
      and the worker answer) is an explicit argument.
    - A local variable that was never assigned holds [Indeterminate] (see
      [cval]). Reading such a variable, a null dereference and an
      out-of-range protobuf access are undefined: they stop the run in
      [Undef], keeping the state reached so far. *)

From Stdlib Require Import ZArith Lia.
From Stdlib.Strings Require Import Byte.
From stdpp Require Import base list strings pretty.

Local Open Scope Z_scope.
Local Open Scope string_scope.
Local Open Scope list_scope.
Local Open Scope stdpp_scope.

(** ** Errors and transport statuses *)

Inductive TRITONSERVER_Error_Code :=
| TRITONSERVER_ERROR_INTERNAL
| TRITONSERVER_ERROR_UNSUPPORTED
| TRITONSERVER_ERROR_INVALID_ARG
| TRITONSERVER_ERROR_NOT_FOUND.

(** [TRITONSERVER_ErrorNew code msg]; a [TRITONSERVER_Error*] is an
    [option TRITONSERVER_Error]. *)
Record TRITONSERVER_Error := TRITONSERVER_ErrorNew {
  err_code : TRITONSERVER_Error_Code;
  err_msg : string
}.

(** [grpc::Status]: [ok()] and [error_message()]. *)
Record grpc_Status := mkStatus {
  status_ok : bool;
  status_error_message : string
}.

Definition grpc_OK : grpc_Status := mkStatus true "".

(** ** Handshake and instance lifecycle *)

Module Lifecycle.

(** [BackendState], filled by [TRITONBACKEND_Initialize]. *)
Record BackendState := {
  python_lib : string;
  python_runtime : string;
  grpc_timeout : Z
}.

(** What the code reads from [ModelState] / [BackendModel]. *)
Record ModelState := {
  ms_Name : string;
  ms_Version : Z;
  ms_RepositoryPath : string;
  ms_ModelConfig : string;            (* the configuration, written as JSON *)
  ms_StateForBackend : BackendState
}.

(** [ModelInstanceState]. [interpreter_pid_] has no initializer in the class,
    so it is [None] until [fork] assigns it. [name_] is the member the class
    declares itself ([const std::string name_], line 134), which hides the
    one of the base class; [kind_] and [device_id_] are the base class's. *)
Record ModelInstanceState := {
  name_ : string;
  kind_ : string;                      (* TRITONSERVER_InstanceGroupKindString(kind_) *)
  device_id_ : Z;
  model_state_ : ModelState;
  pymodule_path_ : string;
  domain_socket_ : string;
  connected_ : bool;
  interpreter_pid_ : option Z;
  stub : bool                          (* whether the gRPC stub has been created *)
}.

(** Observable actions of the process, in program order. *)
Inductive Event :=
| EvInit (args : list (string * string))   (* stub->Init(...) *)
| EvSleep (ms : Z)                         (* std::this_thread::sleep_for *)
| EvFini                                   (* stub->Fini(...) *)
| EvKill (pid : Z)                         (* kill(pid, SIGTERM) *)
| EvWaitpid (pid : Z)
| EvUnlink (path : string)
| EvLog (msg : string).

(** The part of the operating system the code acts on. *)
Record World := {
  w_children : list Z;       (* child processes created and not yet reaped *)
  w_files : list string;     (* filesystem entries of the channel that exist *)
  w_trace : list Event
}.

(** Answers of the environment. *)
Record Env := {
  env_mkdtemp : option string;       (* directory created by mkdtemp, None on failure *)
  env_fork : Z;                      (* value fork() returns in this process *)
  env_execvp_ok : bool;              (* in the child: whether execvp replaces the image *)
  env_errno : Z;
  env_worker_binds : bool;           (* whether the worker creates the socket file *)
  env_Init : nat -> grpc_Status;     (* the worker's answer to the i-th Init call, from 0 *)
  env_Fini : grpc_Status;
  env_waitpid : Z -> list Z -> option Z
    (* the child waitpid(pid, ..) reaps when pid <= 0 (any child, or any child
       of a process group), given the children; None when it reaps none *)
}.

Definition emit (e : Event) (w : World) : World :=
  {| w_children := w_children w; w_files := w_files w;
     w_trace := w_trace w ++ [e] |}.

Definition set_connected (b : bool) (s : ModelInstanceState) : ModelInstanceState :=
  {| name_ := name_ s; kind_ := kind_ s; device_id_ := device_id_ s;
     model_state_ := model_state_ s; pymodule_path_ := pymodule_path_ s;
     domain_socket_ := domain_socket_ s; connected_ := b;
     interpreter_pid_ := interpreter_pid_ s; stub := stub s |}.

Definition set_stub (b : bool) (s : ModelInstanceState) : ModelInstanceState :=
  {| name_ := name_ s; kind_ := kind_ s; device_id_ := device_id_ s;
     model_state_ := model_state_ s; pymodule_path_ := pymodule_path_ s;
     domain_socket_ := domain_socket_ s; connected_ := connected_ s;
     interpreter_pid_ := interpreter_pid_ s; stub := b |}.

Definition set_domain_socket (p : string) (s : ModelInstanceState) : ModelInstanceState :=
  {| name_ := name_ s; kind_ := kind_ s; device_id_ := device_id_ s;
     model_state_ := model_state_ s; pymodule_path_ := pymodule_path_ s;
     domain_socket_ := p; connected_ := connected_ s;
     interpreter_pid_ := interpreter_pid_ s; stub := stub s |}.

Definition set_pymodule_path (p : string) (s : ModelInstanceState) : ModelInstanceState :=
  {| name_ := name_ s; kind_ := kind_ s; device_id_ := device_id_ s;
     model_state_ := model_state_ s; pymodule_path_ := p;
     domain_socket_ := domain_socket_ s; connected_ := connected_ s;
     interpreter_pid_ := interpreter_pid_ s; stub := stub s |}.

Definition set_interpreter_pid (p : Z) (s : ModelInstanceState) : ModelInstanceState :=
  {| name_ := name_ s; kind_ := kind_ s; device_id_ := device_id_ s;
     model_state_ := model_state_ s; pymodule_path_ := pymodule_path_ s;
     domain_socket_ := domain_socket_ s; connected_ := connected_ s;
     interpreter_pid_ := Some p; stub := stub s |}.

(** The seven [insert_model_param] calls of [ConnectPythonInterpreter]. *)
Definition initialization_params (s : ModelInstanceState) : list (string * string) :=
  let m := model_state_ s in
  [ ("model_config", ms_ModelConfig m);
    ("model_instance_kind", kind_ s);
    ("model_instance_name", name_ s);
    ("model_instance_device_id", pretty (device_id_ s));
    ("model_repository", ms_RepositoryPath m);
    ("model_version", pretty (ms_Version m));
    ("model_name", ms_Name m) ].

Definition conn_attempts : nat := 5.

(** The retry loop of [ConnectPythonInterpreter]:
    [for (int i = 0; i < conn_attempts; ++i)], with [todo] iterations left
    and [status] the value of the local [grpc::Status status]. *)
Fixpoint connect_loop (env : Env) (args : list (string * string)) (timeout : Z)
    (i todo : nat) (status : grpc_Status) (s : ModelInstanceState) (w : World)
  : option TRITONSERVER_Error * ModelInstanceState * World :=
  match todo with
  | O =>
      (Some (TRITONSERVER_ErrorNew TRITONSERVER_ERROR_INTERNAL
               (status_error_message status)), s, w)
  | S todo' =>
      let w1 := emit (EvInit args) w in
      let status' := env_Init env i in
      if status_ok status' then
        let w2 := emit (EvLog ("GRPC connection was successful " +:+ name_ s +:+
                               " (device " +:+ pretty (device_id_ s) +:+ ")")) w1 in
        (None, set_connected true s, w2)
      else
        connect_loop env args timeout (S i) todo' status' s
          (emit (EvSleep timeout) w1)
  end.

(** The events of [n] failed attempts: an [Init] call, then the wait. *)
Definition failed_rounds (args : list (string * string)) (timeout : Z) (n : nat)
  : list Event :=
  concat (replicate n [EvInit args; EvSleep timeout]).

Definition ConnectPythonInterpreter (env : Env) (s : ModelInstanceState) (w : World)
  : option TRITONSERVER_Error * ModelInstanceState * World :=
  let s1 := set_stub true s in
  let args := initialization_params s1 in
  let timeout := grpc_timeout (ms_StateForBackend (model_state_ s1)) in
  connect_loop env args timeout 0 conn_attempts grpc_OK s1 w.

(** How a call ends in the calling process: it returns, or (in the child,
    when [execvp] succeeds) the process image is replaced. *)
Inductive Completion :=
| Returned (err : option TRITONSERVER_Error)
| Replaced (argv : list string).

Definition socket_file (dir : string) : string := dir +:+ "/unix.socket".

Definition CreatePythonInterpreter (env : Env) (s : ModelInstanceState) (w : World)
  : Completion * ModelInstanceState * World :=
  match env_mkdtemp env with
  | None =>
      (Returned (Some (TRITONSERVER_ErrorNew TRITONSERVER_ERROR_INTERNAL
                         "Failed to create a temporary socket name")), s, w)
  | Some tmp_dir_name =>
      let w1 := {| w_children := w_children w;
                   w_files := tmp_dir_name :: w_files w;
                   w_trace := w_trace w |} in
      let full_socket_name := "unix://" +:+ socket_file tmp_dir_name in
      let s1 := set_domain_socket full_socket_name s in
      let m := model_state_ s1 in
      let s2 := set_pymodule_path
                  (ms_RepositoryPath m +:+ "/" +:+ pretty (ms_Version m) +:+ "/model.py") s1 in
      let s3 := set_interpreter_pid (env_fork env) s2 in
      if Z.eqb (env_fork env) 0 then
        let python_interpreter_path := python_runtime (ms_StateForBackend m) in
        let python_interpreter_startup := python_lib (ms_StateForBackend m) +:+ "/startup.py" in
        let argv := [ python_interpreter_path; python_interpreter_startup;
                      "--socket"; full_socket_name;
                      "--model-path"; pymodule_path_ s3;
                      "--instance-name"; name_ s3 ] in
        if env_execvp_ok env then (Replaced argv, s3, w1)
        else
          let log_message :=
            "Cannot run interpreter host. Errno = " +:+ pretty (env_errno env) +:+ "
" +:+ "python_interpreter_path: " +:+ python_interpreter_path +:+ "
" +:+ "python_interpreter_startup: " +:+ python_interpreter_startup +:+ "
" +:+ "pymodule_path_: " +:+ pymodule_path_ s3 +:+ "
" +:+ "instance_name: " +:+ name_ s3 +:+ "
" in
          (Returned (Some (TRITONSERVER_ErrorNew TRITONSERVER_ERROR_INVALID_ARG
                             ("Failed to initialize model instance " +:+ name_ s3))),
           s3, emit (EvLog log_message) w1)
      else
        (* not the child: with a positive pid the child now runs, and creates
           the socket file when it binds; with -1 there is no child *)
        let forked := (0 <? env_fork env)%Z in
        let w2 := {| w_children := (if forked then [env_fork env] else [])
                                   ++ w_children w1;
                     w_files := (if forked && env_worker_binds env
                                 then [socket_file tmp_dir_name] else [])
                                ++ w_files w1;
                     w_trace := w_trace w1 |} in
        let '(err, s4, w3) := ConnectPythonInterpreter env s3 w2 in
        (Returned err, s4, w3)
  end.

(** [ModelInstanceState::Create] and the constructor (lines 296-301), which
    passes the host instance to the base class and initializes [model_state_]
    only. [name], [kind] and [device_id] are what the base class reads from
    the host instance; the name stays in the base class, behind [Name()].
    The class's own [name_] is default-constructed, like the other strings,
    and nothing assigns it afterwards: it is empty. [connected_] is [false]
    by its member initializer. *)
Definition new_ModelInstanceState (m : ModelState) (name kind : string) (device_id : Z)
  : ModelInstanceState :=
  {| name_ := ""; kind_ := kind; device_id_ := device_id; model_state_ := m;
     pymodule_path_ := ""; domain_socket_ := ""; connected_ := false;
     interpreter_pid_ := None; stub := false |}.

(** [TRITONBACKEND_ModelInstanceInitialize]. The host accessors for the name,
    the device, the kind and the model are taken to succeed. The instance
    state is attached to the host instance
    ([TRITONBACKEND_ModelInstanceSetState]) before the interpreter is created,
    and stays attached whatever that call returns. *)
Definition TRITONBACKEND_ModelInstanceInitialize (env : Env) (m : ModelState)
    (name kind : string) (device_id : Z) (w : World)
  : Completion * ModelInstanceState * World :=
  let w0 := emit (EvLog ("TRITONBACKEND_ModelInstanceInitialize: " +:+ name +:+ " (" +:+
                         kind +:+ " device " +:+ pretty device_id +:+ ")")) w in
  let instance_state := new_ModelInstanceState m name kind device_id in
  match CreatePythonInterpreter env instance_state w0 with
  | (Returned None, s, w1) =>
      (Returned None, s,
       emit (EvLog ("TRITONBACKEND_ModelInstanceInitialize: instance " +:+
                    "initialization successful " +:+ name +:+
                    " (device " +:+ pretty device_id +:+ ")")) w1)
  | r => r
  end.

(** [std::string::substr(strlen("unix://"))]. *)
Definition strip_scheme (p : string) : string := String.substring 7 (String.length p - 7) p.

(** The child [waitpid(pid, &status, 0)] reaps. With a positive [pid] it is
    that process, which [kill(pid, SIGTERM)] has just ended. With [pid] zero
    or negative the signal went to a process group or to every process, and
    [waitpid] returns for any one child the operating system picks. *)
Definition reaped (env : Env) (pid : Z) (children : list Z) : option Z :=
  if (0 <? pid)%Z then Some pid else env_waitpid env pid children.

(** [ModelInstanceState::~ModelInstanceState]. The trace records [kill] and
    [waitpid] with the pid they are called with; what a signal does to
    processes that are not children of this one is outside [World]. With
    [interpreter_pid_] never assigned the signal goes to an indeterminate
    pid: the result is [None]. *)
Definition destroy_ModelInstanceState (env : Env) (s : ModelInstanceState) (w : World)
  : option World :=
  let w1 :=
    if connected_ s then
      let w' := emit EvFini w in
      if status_ok (env_Fini env) then w'
      else emit (EvLog ("Cannot shutdown interpreter gracefully: " +:+
                        status_error_message (env_Fini env))) w'
    else w in
  match interpreter_pid_ s with
  | None => None
  | Some pid =>
      let w2 := emit (EvWaitpid pid) (emit (EvKill pid) w1) in
      let w3 := {| w_children :=
                     match reaped env pid (w_children w2) with
                     | Some child => filter (fun p => p ≠ child) (w_children w2)
                     | None => w_children w2
                     end;
                   w_files := w_files w2; w_trace := w_trace w2 |} in
      if bool_decide (domain_socket_ s = "") then Some w3
      else
        let path := strip_scheme (domain_socket_ s) in
        let w4 := emit (EvUnlink path) w3 in
        Some (emit (EvLog "GRPC shutdown complete")
                {| w_children := w_children w4;
                   w_files := filter (fun f => f ≠ path) (w_files w4);
                   w_trace := w_trace w4 |})
  end.

(** [TRITONBACKEND_ModelInstanceFinalize]: [delete instance_state]. *)
Definition TRITONBACKEND_ModelInstanceFinalize (env : Env) (s : ModelInstanceState)
    (w : World) : option World :=
  destroy_ModelInstanceState env s
    (emit (EvLog "TRITONBACKEND_ModelInstanceFinalize: delete instance state") w).

End Lifecycle.

(** ** The batch round trip *)

Module Bridge.

(** The value of a C++ local: assigned, or never assigned. The encoding loop
    declares [id], [correlation_id] and [requested_output_name] without a
    value and assigns them inside [GUARDED_RESPOND_IF_ERROR], which skips the
    call once the response is null; the setters then read them all the same.
    Reading an [Indeterminate] value is undefined (see [Encoding]). A field
    of a wire item holds [Indeterminate] as long as its setter was not
    called. *)
Inductive cval (A : Type) :=
| Determinate (a : A)
| Indeterminate.
Arguments Determinate {A} a.
Arguments Indeterminate {A}.

(** How a part of the encoding of one request ends: at its end, or on the
    read of a local that was never assigned, in both cases with what was
    built until then. *)
Inductive Encoding (A : Type) :=
| EncodeDone (a : A)
| EncodeUndef (a : A).
Arguments EncodeDone {A} a.
Arguments EncodeUndef {A} a.

Definition encoding_result {A : Type} (x : Encoding A) : A :=
  match x with EncodeDone a => a | EncodeUndef a => a end.

(** The implicit conversion of an [int64_t] argument to a [uint64_t]
    parameter. *)
Definition to_uint64 (z : Z) : Z := z mod 18446744073709551616.

(** *** Wire messages (python_host.proto, through the generated accessors the
    source calls) *)

Record Tensor := {
  t_name : string;
  t_dtype : Z;
  t_dims : list Z;
  t_raw_data : list byte
}.

(** What [add_inputs()] appends: a default-constructed message. *)
Definition blank_Tensor : Tensor :=
  {| t_name := ""; t_dtype := 0; t_dims := []; t_raw_data := [] |}.

Record InferenceRequest := {
  ir_id : cval string;
  ir_correlation_id : cval Z;
  ir_inputs : list Tensor;
  ir_requested_output_names : list (cval string)
}.

Record InferenceResponse := {
  resp_outputs : list Tensor;
  resp_failed : bool;
  resp_error_message : string          (* error().message() *)
}.

(** *** Host objects *)

Inductive TRITONSERVER_MemoryType :=
| TRITONSERVER_MEMORY_CPU
| TRITONSERVER_MEMORY_CPU_PINNED
| TRITONSERVER_MEMORY_GPU.

(** [memory_type == TRITONSERVER_MEMORY_GPU]. *)
Definition is_gpu (memory_type : TRITONSERVER_MemoryType) : bool :=
  match memory_type with
  | TRITONSERVER_MEMORY_GPU => true
  | _ => false
  end.

Inductive result (A : Type) :=
| Ok (a : A)
| Err (e : TRITONSERVER_Error).
Arguments Ok {A} a.
Arguments Err {A} e.

(** A host input: the properties [TRITONBACKEND_InputProperties] reports and
    the bytes the input collector gathers from its buffers. *)
Record TRITONBACKEND_Input := {
  in_name : string;
  in_dtype : Z;
  in_shape : list Z;
  in_byte_size : Z;                    (* uint64_t *)
  in_content : list byte
}.

(** A host request, with the answer of the response allocator bound to it:
    for an output name and a byte size, an error or the memory type of the
    buffer it hands out. *)
Record TRITONBACKEND_Request := {
  rq_id : string;
  rq_correlation_id : Z;
  rq_inputs : list TRITONBACKEND_Input;
  rq_outputs : list string;
  rq_allocator : string -> Z -> result TRITONSERVER_MemoryType
}.

(** A buffer obtained from [TRITONBACKEND_OutputBuffer]: the byte size asked
    for, where it lives, and the bytes written from its first byte on.
    [std::copy] is not bounded by [buf_byte_size]. *)
Record Buffer := {
  buf_byte_size : Z;
  buf_memory_type : TRITONSERVER_MemoryType;
  buf_written : list byte
}.

Record TRITONBACKEND_Output := {
  out_name : string;
  out_dtype : Z;
  out_dims : list Z;
  out_buffer : option Buffer
}.

(** A response object: the outputs attached to it so far. *)
Abbreviation TRITONBACKEND_Response := (list TRITONBACKEND_Output).

(** One [TRITONBACKEND_ResponseSend(..., COMPLETE_FINAL, err)]. *)
Record Sent := {
  sent_error : option TRITONSERVER_Error;
  sent_outputs : TRITONBACKEND_Response
}.

(** Entry [r] of the [responses] vector together with what has been sent for
    request [r]. [slot_ptr = None] is [responses[r] == nullptr]. *)
Record Slot := {
  slot_ptr : option TRITONBACKEND_Response;
  slot_sent : list Sent
}.

(** [p == nullptr]. *)
Definition is_null {A : Type} (p : option A) : bool :=
  match p with None => true | Some _ => false end.

(** Number of bytes written past the end of the buffer. *)
Definition overrun (b : Buffer) : Z :=
  Z.max 0 (Z.of_nat (length (buf_written b)) - buf_byte_size b).

(** *** Host API *)

(** Declarations of the backend headers that the source uses by name. *)
Class TritonAPI := {
  GetByteSize : Z -> list Z -> Z;          (* backend_common.h *)
  TRITONSERVER_TYPE_BYTES : Z              (* tritonserver.h *)
}.

Definition MAX_GRPC_MESSAGE_SIZE : Z := 2147483647.   (* INT32_MAX *)

(** The host API is declared in the Triton headers, outside this source. Its
    per-request accessors are answered from the request; indices and names
    that the request does not have give the host's error. *)

(** Modelled from the spec: the host accessor for the input count. *)
Definition TRITONBACKEND_RequestInputCount (request : TRITONBACKEND_Request) : result nat :=
  Ok (length (rq_inputs request)).

(** Modelled from the spec: the host accessor for the number of requested
    outputs. *)
Definition TRITONBACKEND_RequestOutputCount (request : TRITONBACKEND_Request) : result nat :=
  Ok (length (rq_outputs request)).

(** Modelled from the spec: the host accessor for the input name by index. *)
Definition TRITONBACKEND_RequestInputName (request : TRITONBACKEND_Request) (index : nat)
  : result string :=
  match rq_inputs request !! index with
  | Some i => Ok (in_name i)
  | None => Err (TRITONSERVER_ErrorNew TRITONSERVER_ERROR_INVALID_ARG
                   ("out of bounds index " +:+ pretty index))
  end.

(** Modelled from the spec: the host accessor for the input of a given name. *)
Definition TRITONBACKEND_RequestInput (request : TRITONBACKEND_Request) (name : string)
  : result TRITONBACKEND_Input :=
  match List.find (fun i => bool_decide (in_name i = name)) (rq_inputs request) with
  | Some i => Ok i
  | None => Err (TRITONSERVER_ErrorNew TRITONSERVER_ERROR_INVALID_ARG
                   ("unknown request input name " +:+ name))
  end.

(** Modelled from the spec: the host accessor for an input's name, type,
    shape and byte size. *)
Definition TRITONBACKEND_InputProperties (i : TRITONBACKEND_Input)
  : result (string * Z * list Z * Z) :=
  Ok (in_name i, in_dtype i, in_shape i, in_byte_size i).

(** Modelled from the spec: the host accessor for the output name by index. *)
Definition TRITONBACKEND_RequestOutputName (request : TRITONBACKEND_Request) (index : nat)
  : result string :=
  match rq_outputs request !! index with
  | Some n => Ok n
  | None => Err (TRITONSERVER_ErrorNew TRITONSERVER_ERROR_INVALID_ARG
                   ("out of bounds index " +:+ pretty index))
  end.

(** Modelled from the spec: the host accessor for the request id. *)
Definition TRITONBACKEND_RequestId (request : TRITONBACKEND_Request) : result string :=
  Ok (rq_id request).

(** Modelled from the spec: the host accessor for the correlation id. *)
Definition TRITONBACKEND_RequestCorrelationId (request : TRITONBACKEND_Request) : result Z :=
  Ok (rq_correlation_id request).

(** Modelled from the spec: the host's create-response, which gives a
    response with no output. *)
Definition TRITONBACKEND_ResponseNew (request : TRITONBACKEND_Request)
  : result TRITONBACKEND_Response :=
  Ok [].

(** Modelled from the spec: the host's attach-a-named-output. Returns the
    response with the output attached and the handle of that output, its
    position in the response. *)
Definition TRITONBACKEND_ResponseOutput (response : TRITONBACKEND_Response)
    (name : string) (datatype : Z) (shape : list Z)
  : result (TRITONBACKEND_Response * nat) :=
  Ok (response ++ [{| out_name := name; out_dtype := datatype; out_dims := shape;
                      out_buffer := None |}],
      length response).

Definition set_buffer (b : Buffer) (o : TRITONBACKEND_Output) : TRITONBACKEND_Output :=
  {| out_name := out_name o; out_dtype := out_dtype o; out_dims := out_dims o;
     out_buffer := Some b |}.

(** Modelled from the spec: the host's obtain-a-writable-buffer of a
    requested byte size, which asks the allocator of the request and records
    the buffer on the output. *)
Definition TRITONBACKEND_OutputBuffer (request : TRITONBACKEND_Request)
    (response : TRITONBACKEND_Response) (output : nat) (buffer_byte_size : Z)
  : result (TRITONBACKEND_Response * TRITONSERVER_MemoryType) :=
  match response !! output with
  | None => Err (TRITONSERVER_ErrorNew TRITONSERVER_ERROR_INVALID_ARG "no such output")
  | Some o =>
      match rq_allocator request (out_name o) buffer_byte_size with
      | Err e => Err e
      | Ok memory_type =>
          Ok (<[output := set_buffer {| buf_byte_size := buffer_byte_size;
                                        buf_memory_type := memory_type;
                                        buf_written := [] |} o]> response,
              memory_type)
      end
  end.

(** *** The response macros *)

(** [TRITONBACKEND_ResponseSend(responses[r], COMPLETE_FINAL, err);
     responses[r] = nullptr;] on a live response. *)
Definition send_error (e : TRITONSERVER_Error) (s : Slot) : Slot :=
  {| slot_ptr := None;
     slot_sent := slot_sent s ++ [{| sent_error := Some e;
                                     sent_outputs := default [] (slot_ptr s) |}] |}.

(** [GUARDED_RESPOND_IF_ERROR(responses, r, X)]. [X] is evaluated only while
    [responses[r]] is not null; [keep] is the value the variables that [X]
    assigns hold when it is not evaluated or fails. *)
Definition GUARDED_RESPOND_IF_ERROR {A : Type}
    (X : Slot -> Slot * result A) (keep : A) (s : Slot) : Slot * A :=
  match slot_ptr s with
  | None => (s, keep)
  | Some _ =>
      match X s with
      | (s1, Ok a) => (s1, a)
      | (s1, Err e) => (send_error e s1, keep)
      end
  end.

(** The sending half of [RESPOND_AND_RETURN_IF_ERROR(request, X)]: a fresh
    response for the request is created and sent with the error. *)
Definition respond_new (request : TRITONBACKEND_Request) (e : TRITONSERVER_Error)
    (s : Slot) : Slot :=
  match TRITONBACKEND_ResponseNew request with
  | Ok rarie_response =>
      {| slot_ptr := slot_ptr s;
         slot_sent := slot_sent s ++ [{| sent_error := Some e;
                                         sent_outputs := rarie_response |}] |}
  | Err _ => s
  end.

(** Lifts a host accessor, which leaves the responses alone. *)
Definition pure_call {A B : Type} (f : A -> B) (x : result A) : Slot -> Slot * result B :=
  fun s => (s, match x with Ok a => Ok (f a) | Err e => Err e end).

(** *** Encoding *)

Definition oversize_error : TRITONSERVER_Error :=
  TRITONSERVER_ErrorNew TRITONSERVER_ERROR_UNSUPPORTED
    ("Python backend does not support input size larger than 2GBs, consider " +:+
     "parititioning your input into multiple inputs.").

(** [ModelInstanceState::GetInputTensor]. The collector fills the resized
    [raw_data] with the bytes of the input. *)
Definition GetInputTensor (iidx : nat) (request : TRITONBACKEND_Request)
    (input_tensor : Tensor) (s : Slot) : Slot * result Tensor :=
  match TRITONBACKEND_RequestInputName request iidx with
  | Err e => (respond_new request e s, Err e)
  | Ok input_name =>
      match TRITONBACKEND_RequestInput request input_name with
      | Err e => (respond_new request e s, Err e)
      | Ok i =>
          match TRITONBACKEND_InputProperties i with
          | Err e => (s, Err e)
          | Ok (input_name, input_dtype, input_shape, input_byte_size) =>
              if (MAX_GRPC_MESSAGE_SIZE <=? input_byte_size)%Z then
                (s, Err oversize_error)
              else
                (s, Ok {| t_name := input_name;
                          t_dtype := input_dtype;
                          t_dims := t_dims input_tensor ++ input_shape;
                          t_raw_data := resize (Z.to_nat input_byte_size) x00
                                          (in_content i) |})
          end
      end
  end.

(** [for (size_t iidx = 0; iidx < requested_input_count; ++iidx)]:
    [add_inputs()] first, then the guarded [GetInputTensor]. *)
Fixpoint input_loop (request : TRITONBACKEND_Request) (iidx todo : nat)
    (s : Slot) (inputs : list Tensor) : Slot * list Tensor :=
  match todo with
  | O => (s, inputs)
  | S todo' =>
      let input_tensor := blank_Tensor in
      let '(s1, t) :=
        GUARDED_RESPOND_IF_ERROR (GetInputTensor iidx request input_tensor)
          input_tensor s in
      input_loop request (S iidx) todo' s1 (inputs ++ [t])
  end.

(** [for (size_t iidx = 0; iidx < requested_output_count; ++iidx)] (lines
    698-706). [const char* requested_output_name] is declared without a
    value in every iteration, and [add_requested_output_names] reads it
    whether or not the guarded call assigned it. *)
Fixpoint output_name_loop (request : TRITONBACKEND_Request) (iidx todo : nat)
    (s : Slot) (names : list (cval string)) : Encoding (Slot * list (cval string)) :=
  match todo with
  | O => EncodeDone (s, names)
  | S todo' =>
      let '(s1, requested_output_name) :=
        GUARDED_RESPOND_IF_ERROR
          (pure_call Determinate (TRITONBACKEND_RequestOutputName request iidx))
          Indeterminate s in
      match requested_output_name with
      | Indeterminate => EncodeUndef (s1, names)
      | Determinate _ =>
          output_name_loop request (S iidx) todo' s1 (names ++ [requested_output_name])
      end
  end.

(** The body of the loop that fills [execute_request], for one request (lines
    672-717). [set_id(id)] and [set_correlation_id(correlation_id)] read
    their argument whether or not the guarded call before them assigned it. *)
Definition encode_item (request : TRITONBACKEND_Request) (s : Slot)
  : Encoding (Slot * InferenceRequest) :=
  let '(s1, requested_input_count) :=
    GUARDED_RESPOND_IF_ERROR
      (pure_call id (TRITONBACKEND_RequestInputCount request)) 0%nat s in
  let '(s2, requested_output_count) :=
    GUARDED_RESPOND_IF_ERROR
      (pure_call id (TRITONBACKEND_RequestOutputCount request)) 0%nat s1 in
  let '(s3, inputs) := input_loop request 0 requested_input_count s2 [] in
  let inference_request id correlation_id names :=
    {| ir_id := id; ir_correlation_id := correlation_id;
       ir_inputs := inputs; ir_requested_output_names := names |} in
  match output_name_loop request 0 requested_output_count s3 [] with
  | EncodeUndef (s4, names) =>
      EncodeUndef (s4, inference_request Indeterminate Indeterminate names)
  | EncodeDone (s4, names) =>
      let '(s5, id) :=
        GUARDED_RESPOND_IF_ERROR
          (pure_call Determinate (TRITONBACKEND_RequestId request)) Indeterminate s4 in
      match id with
      | Indeterminate =>
          EncodeUndef (s5, inference_request Indeterminate Indeterminate names)
      | Determinate _ =>
          let '(s6, correlation_id) :=
            GUARDED_RESPOND_IF_ERROR
              (pure_call Determinate (TRITONBACKEND_RequestCorrelationId request))
              Indeterminate s5 in
          match correlation_id with
          | Indeterminate => EncodeUndef (s6, inference_request id Indeterminate names)
          | Determinate _ => EncodeDone (s6, inference_request id correlation_id names)
          end
      end
  end.

(** *** Decoding *)

(** An item's share of the run: its slot and the log, finished or stopped. *)
Inductive ItemRun :=
| ItemDone (s : Slot) (lg : list string)
| ItemUndef (s : Slot) (lg : list string).

Definition gpu_error : TRITONSERVER_Error :=
  TRITONSERVER_ErrorNew TRITONSERVER_ERROR_UNSUPPORTED
    "can't create response in GPU memory.".

(** [std::copy(raw_data.begin(), raw_data.end(), (char* )output_buffer)]. *)
Definition copy_to_buffer (data : list byte) (o : TRITONBACKEND_Output)
  : TRITONBACKEND_Output :=
  match out_buffer o with
  | Some b => set_buffer {| buf_byte_size := buf_byte_size b;
                            buf_memory_type := buf_memory_type b;
                            buf_written := data |} o
  | None => o
  end.

Definition copy_to_output (output : nat) (data : list byte) (s : Slot) : Slot :=
  {| slot_ptr := alter (copy_to_buffer data) output <$> slot_ptr s;
     slot_sent := slot_sent s |}.

Section WithAPI.
Context `{TritonAPI}.

(** Lines 814-823: [int64_t output_byte_size]. *)
Definition output_byte_size (python_output_result : Tensor) : Z :=
  if (t_dtype python_output_result =? TRITONSERVER_TYPE_BYTES)%Z then
    Z.of_nat (length (t_raw_data python_output_result))
  else
    GetByteSize (t_dtype python_output_result) (t_dims python_output_result).

(** The [uint64_t buffer_byte_size] that [TRITONBACKEND_OutputBuffer] is
    called with at lines 829-833: [output_byte_size], converted. *)
Definition output_byte_size_of (python_output_result : Tensor) : Z :=
  to_uint64 (output_byte_size python_output_result).

(** One iteration of [for (size_t j = 0; j < requested_output_count; ++j)].
    [inference_response.outputs(j)] past the end of the worker's outputs is an
    out-of-range access, whether or not the response is still there. *)
Definition output_step (r : nat) (request : TRITONBACKEND_Request)
    (inference_response : InferenceResponse) (j : nat) (s : Slot) (lg : list string)
  : ItemRun :=
  match resp_outputs inference_response !! j with
  | None => ItemUndef s lg
  | Some python_output_result =>
      let triton_dt := t_dtype python_output_result in
      let python_output_dims := t_dims python_output_result in
      let output_tensor_name := t_name python_output_result in
      let '(s1, triton_output) :=
        GUARDED_RESPOND_IF_ERROR
          (fun s =>
             match TRITONBACKEND_ResponseOutput (default [] (slot_ptr s))
                     (t_name python_output_result) triton_dt python_output_dims with
             | Ok (response, out) =>
                 ({| slot_ptr := Some response; slot_sent := slot_sent s |}, Ok out)
             | Err e => (s, Err e)
             end)
          O s in
      let output_byte_size := output_byte_size python_output_result in
      let '(s2, output_memory_type) :=
        GUARDED_RESPOND_IF_ERROR
          (fun s =>
             match TRITONBACKEND_OutputBuffer request (default [] (slot_ptr s))
                     triton_output (to_uint64 output_byte_size) with
             | Ok (response, memory_type) =>
                 ({| slot_ptr := Some response; slot_sent := slot_sent s |},
                  Ok memory_type)
             | Err e => (s, Err e)
             end)
          TRITONSERVER_MEMORY_CPU s1 in
      if is_null (slot_ptr s2) ||
         is_gpu output_memory_type then
        let '(s3, _) :=
          GUARDED_RESPOND_IF_ERROR (fun s => (s, Err gpu_error)) tt s2 in
        ItemDone s3
          (lg ++ ["request " +:+ pretty r +:+
                  ": failed to create output buffer in CPU memory."])
      else
        match List.find (fun itr => bool_decide (t_name itr = output_tensor_name))
                (resp_outputs inference_response) with
        | None =>
            ItemDone s2 (lg ++ ["can't find output tensor with name " +:+
                                output_tensor_name])
        | Some output_response_tensor =>
            ItemDone (copy_to_output triton_output
                        (t_raw_data output_response_tensor) s2) lg
        end
  end.

Fixpoint output_loop (r : nat) (request : TRITONBACKEND_Request)
    (inference_response : InferenceResponse) (j todo : nat) (s : Slot)
    (lg : list string) : ItemRun :=
  match todo with
  | O => ItemDone s lg
  | S todo' =>
      match output_step r request inference_response j s lg with
      | ItemDone s1 lg1 => output_loop r request inference_response (S j) todo' s1 lg1
      | ItemUndef s1 lg1 => ItemUndef s1 lg1
      end
  end.

(** The body of the decoding loop (lines 769-888) for request [r]. Sending on
    [responses[r]] when it is null dereferences a null response. *)
Definition decode_item (r : nat) (request : TRITONBACKEND_Request)
    (inference_response : InferenceResponse) (s : Slot) (lg : list string)
  : ItemRun :=
  if resp_failed inference_response then
    match slot_ptr s with
    | None => ItemUndef s lg
    | Some _ =>
        ItemDone (send_error (TRITONSERVER_ErrorNew TRITONSERVER_ERROR_INTERNAL
                                (resp_error_message inference_response)) s) lg
    end
  else
    let '(s1, requested_output_count) :=
      GUARDED_RESPOND_IF_ERROR
        (pure_call id (TRITONBACKEND_RequestOutputCount request)) 0%nat s in
    match output_loop r request inference_response 0 requested_output_count s1 lg with
    | ItemUndef s2 lg2 => ItemUndef s2 lg2
    | ItemDone s2 lg2 =>
        match slot_ptr s2 with
        | None =>
            ItemDone s2 (lg2 ++ ["Request " +:+ pretty r +:+
                                 ": failed to create output response"])
        | Some response =>
            ItemDone {| slot_ptr := Some response;
                        slot_sent := slot_sent s2 ++
                                     [{| sent_error := None;
                                         sent_outputs := response |}] |} lg2
        end
    end.

(** *** The whole call *)

Record ExecState := {
  responses : list Slot;
  execute_request : list InferenceRequest;
  transmitted : list (list InferenceRequest);   (* batches given to stub->Execute *)
  exec_log : list string;
  statistics : list (nat * bool);               (* (r, success) per ReportStatistics *)
  released : list nat;                          (* r per RequestRelease *)
  batch_statistics : list nat                   (* batch size per ReportBatchStatistics *)
}.

Definition with_responses (l : list Slot) (st : ExecState) : ExecState :=
  {| responses := l; execute_request := execute_request st;
     transmitted := transmitted st; exec_log := exec_log st;
     statistics := statistics st; released := released st;
     batch_statistics := batch_statistics st |}.

Definition with_log (lg : list string) (st : ExecState) : ExecState :=
  {| responses := responses st; execute_request := execute_request st;
     transmitted := transmitted st; exec_log := lg;
     statistics := statistics st; released := released st;
     batch_statistics := batch_statistics st |}.

Definition add_request (ir : InferenceRequest) (st : ExecState) : ExecState :=
  {| responses := responses st; execute_request := execute_request st ++ [ir];
     transmitted := transmitted st; exec_log := exec_log st;
     statistics := statistics st; released := released st;
     batch_statistics := batch_statistics st |}.

Definition transmit (st : ExecState) : ExecState :=
  {| responses := responses st; execute_request := execute_request st;
     transmitted := transmitted st ++ [execute_request st]; exec_log := exec_log st;
     statistics := statistics st; released := released st;
     batch_statistics := batch_statistics st |}.

Definition report_and_release (r : nat) (success : bool) (st : ExecState) : ExecState :=
  {| responses := responses st; execute_request := execute_request st;
     transmitted := transmitted st; exec_log := exec_log st;
     statistics := statistics st ++ [(r, success)]; released := released st ++ [r];
     batch_statistics := batch_statistics st |}.

Definition report_batch (n : nat) (st : ExecState) : ExecState :=
  {| responses := responses st; execute_request := execute_request st;
     transmitted := transmitted st; exec_log := exec_log st;
     statistics := statistics st; released := released st;
     batch_statistics := batch_statistics st ++ [n] |}.

Definition initial_state : ExecState :=
  {| responses := []; execute_request := []; transmitted := []; exec_log := [];
     statistics := []; released := []; batch_statistics := [] |}.

(** How one loop iteration ends: fall through to the next one, return from
    the function, or stop on an undefined operation. *)
Inductive Step :=
| Next (st : ExecState)
| Return (err : option TRITONSERVER_Error) (st : ExecState)
| Stuck (st : ExecState).

(** [for (uint32_t r = r0; r < r0 + todo; ++r) body]. *)
Fixpoint for_loop (body : nat -> ExecState -> Step) (r todo : nat) (st : ExecState)
  : Step :=
  match todo with
  | O => Next st
  | S todo' =>
      match body r st with
      | Next st1 => for_loop body (S r) todo' st1
      | stop => stop
      end
  end.

(** How the call ends. *)
Inductive Run :=
| Completed (ret : option TRITONSERVER_Error) (st : ExecState)
| Undef (st : ExecState).

Definition last_state (x : Run) : ExecState :=
  match x with Completed _ st => st | Undef st => st end.

Section Execute.
Variable instance_name : string.
Variable stub_Execute : list InferenceRequest -> grpc_Status * list InferenceResponse.
Variable requests : list TRITONBACKEND_Request.

(** Lines 662-668. *)
Definition new_response_body (r : nat) (st : ExecState) : Step :=
  match requests !! r with
  | None => Stuck st
  | Some req =>
      match TRITONBACKEND_ResponseNew req with
      | Err e => Return (Some e) st
      | Ok response =>
          Next (with_responses
                  (responses st ++ [{| slot_ptr := Some response; slot_sent := [] |}]) st)
      end
  end.

(** Lines 672-717. [execute_request.add_requests()] comes first, so the
    item is part of [execute_request] however its encoding ends. *)
Definition encode_body (r : nat) (st : ExecState) : Step :=
  match requests !! r, responses st !! r with
  | Some request, Some s =>
      match encode_item request s with
      | EncodeDone (s1, inference_request) =>
          Next (add_request inference_request
                  (with_responses (<[r := s1]> (responses st)) st))
      | EncodeUndef (s1, inference_request) =>
          Stuck (add_request inference_request
                   (with_responses (<[r := s1]> (responses st)) st))
      end
  | _, _ => Stuck st
  end.

(** Lines 736-750. *)
Definition transport_error (status : grpc_Status) : TRITONSERVER_Error :=
  TRITONSERVER_ErrorNew TRITONSERVER_ERROR_INTERNAL
    ("GRPC Execute Failed, message: " +:+ status_error_message status).

Definition fail_body (status : grpc_Status) (r : nat) (st : ExecState) : Step :=
  match responses st !! r with
  | None => Stuck st
  | Some s =>
      match slot_ptr s with
      | None => Next st
      | Some _ =>
          Next (with_responses
                  (<[r := send_error (transport_error status) s]> (responses st)) st)
      end
  end.

(** Lines 752-764. *)
Definition release_failed_body (r : nat) (st : ExecState) : Step :=
  match requests !! r with
  | None => Stuck st
  | Some _ => Next (report_and_release r false st)
  end.

(** Lines 769-888. *)
Definition decode_body (execute_response : list InferenceResponse) (r : nat)
    (st : ExecState) : Step :=
  match requests !! r, responses st !! r with
  | Some request, Some s =>
      match execute_response !! r with
      | None => Stuck st
      | Some inference_response =>
          match decode_item r request inference_response s (exec_log st) with
          | ItemDone s1 lg =>
              Next (with_log lg (with_responses (<[r := s1]> (responses st)) st))
          | ItemUndef s1 lg =>
              Stuck (with_log lg (with_responses (<[r := s1]> (responses st)) st))
          end
      end
  | _, _ => Stuck st
  end.

(** Lines 893-911. *)
Definition release_body (r : nat) (st : ExecState) : Step :=
  match requests !! r, responses st !! r with
  | Some _, Some s => Next (report_and_release r (negb (is_null (slot_ptr s))) st)
  | _, _ => Stuck st
  end.

(** The state just before the round trip: responses created, request built. *)
Definition encode_phase : Step :=
  let request_count := length requests in
  match for_loop new_response_body 0 request_count initial_state with
  | Next st0 => for_loop encode_body 0 request_count st0
  | stop => stop
  end.

Definition run_of (x : Step) : Run :=
  match x with
  | Next st => Completed None st
  | Return err st => Completed err st
  | Stuck st => Undef st
  end.

(** [TRITONBACKEND_ModelInstanceExecute], with [request_count] the length of
    [requests]; the lookup of the instance state is taken to succeed. *)
Definition TRITONBACKEND_ModelInstanceExecute : Run :=
  let request_count := length requests in
  match encode_phase with
  | Next st1 =>
      let st2 := transmit st1 in
      let '(status, execute_response) := stub_Execute (execute_request st1) in
      if negb (status_ok status) then
        match for_loop (fail_body status) 0 request_count st2 with
        | Next st3 => run_of (for_loop release_failed_body 0 request_count st3)
        | stop => run_of stop
        end
      else
        match for_loop (decode_body execute_response) 0 request_count st2 with
        | Next st3 =>
            match for_loop release_body 0 request_count st3 with
            | Next st4 =>
                let st5 := report_batch 1 st4 in
                Completed None
                  (with_log
                     (exec_log st5 ++
                      ["TRITONBACKEND_ModelInstanceExecute: model instance name " +:+
                       instance_name +:+ " released " +:+ pretty request_count +:+
                       " requests"]) st5)
            | stop => run_of stop
            end
        | stop => run_of stop
        end
  | stop => run_of stop
  end.

End Execute.
End WithAPI.

(** *** Closed forms used to state the properties *)

(** A slot as the first loop creates it. *)
Definition fresh_slot : Slot := {| slot_ptr := Some []; slot_sent := [] |}.

(** The slot and the wire item the encoding loop produces for a request. *)
Definition encoded_slot (request : TRITONBACKEND_Request) : Slot :=
  (encoding_result (encode_item request fresh_slot)).1.

Definition wire_item (request : TRITONBACKEND_Request) : InferenceRequest :=
  (encoding_result (encode_item request fresh_slot)).2.

(** Whether the encoding of a request runs to its end. *)
Definition encodes (request : TRITONBACKEND_Request) : Prop :=
  exists inference_request,
    encode_item request fresh_slot = EncodeDone (fresh_slot, inference_request).

(** A request the size check lets through. *)
Definition accepted (request : TRITONBACKEND_Request) : Prop :=
  Forall (fun i => in_byte_size i < MAX_GRPC_MESSAGE_SIZE) (rq_inputs request).

(** The wire tensor [GetInputTensor] builds from an accepted input. *)
Definition wire_tensor (i : TRITONBACKEND_Input) : Tensor :=
  {| t_name := in_name i; t_dtype := in_dtype i; t_dims := in_shape i;
     t_raw_data := resize (Z.to_nat (in_byte_size i)) x00 (in_content i) |}.

(** Whether the size check rejects an input, and whether it rejects one of a
    list. *)
Definition oversized (i : TRITONBACKEND_Input) : bool :=
  (MAX_GRPC_MESSAGE_SIZE <=? in_byte_size i)%Z.

Definition rejected (l : list TRITONBACKEND_Input) : bool := existsb oversized l.

(** The wire tensors of a list of inputs: encoded up to the first rejected
    one, blank from there on. *)
Fixpoint encoded_inputs (l : list TRITONBACKEND_Input) : list Tensor :=
  match l with
  | [] => []
  | i :: l' =>
      if oversized i then replicate (S (length l')) blank_Tensor
      else wire_tensor i :: encoded_inputs l'
  end.

(** What the transport-failure loop does to a slot. *)
Definition fail_slot (status : grpc_Status) (s : Slot) : Slot :=
  if is_null (slot_ptr s) then s else send_error (transport_error status) s.

(** The error of each response sent, per request. *)
Definition errors_sent (st : ExecState) : list (list (option TRITONSERVER_Error)) :=
  (fun s => sent_error <$> slot_sent s) <$> responses st.

Definition step_state (x : Step) : ExecState :=
  match x with Next st => st | Return _ st => st | Stuck st => st end.

(** Well-formed host requests: the reported byte size of an input is the
    length of its content, and input names are unique within a request. *)
Definition wf_input (i : TRITONBACKEND_Input) : Prop :=
  Z.of_nat (length (in_content i)) = in_byte_size i.

Definition wf_request (request : TRITONBACKEND_Request) : Prop :=
  NoDup (in_name <$> rq_inputs request) /\ Forall wf_input (rq_inputs request).

Definition item_slot (x : ItemRun) : Slot :=
  match x with ItemDone s _ => s | ItemUndef s _ => s end.

(** What the output loop keeps true of a slot: either the response is still
    there and nothing was sent, or it is gone and one error went out. *)
Definition answered_at_most_once (s : Slot) : Prop :=
  (slot_ptr s <> None /\ slot_sent s = []) \/
  (slot_ptr s = None /\ exists x, slot_sent s = [x] /\ sent_error x <> None).

Section DecodingForms.
Context `{TritonAPI}.

(** The output [TRITONBACKEND_ResponseOutput] attaches for a worker tensor. *)
Definition attached_output (t : Tensor) : TRITONBACKEND_Output :=
  {| out_name := t_name t; out_dtype := t_dtype t; out_dims := t_dims t;
     out_buffer := None |}.

(** The same output once its buffer was obtained in [memory_type] and [data]
    was copied to it. *)
Definition allocated_output (t : Tensor) (memory_type : TRITONSERVER_MemoryType)
    (data : list byte) : TRITONBACKEND_Output :=
  {| out_name := t_name t; out_dtype := t_dtype t; out_dims := t_dims t;
     out_buffer := Some {| buf_byte_size := output_byte_size_of t;
                           buf_memory_type := memory_type;
                           buf_written := data |} |}.

(** The tensor [std::find_if] returns for the name of [t]. *)
Definition matched (inference_response : InferenceResponse) (t : Tensor) : option Tensor :=
  List.find (fun itr => bool_decide (t_name itr = t_name t))
    (resp_outputs inference_response).

(** The host output that results from a worker tensor when its buffer is
    obtained outside GPU memory. *)
Definition delivered_output (request : TRITONBACKEND_Request)
    (inference_response : InferenceResponse) (t : Tensor)
  : option TRITONBACKEND_Output :=
  match rq_allocator request (t_name t) (output_byte_size_of t),
        matched inference_response t with
  | Ok memory_type, Some m =>
      if is_gpu memory_type then None
      else Some (allocated_output t memory_type (t_raw_data m))
  | _, _ => None
  end.

(** Every buffer of a response was asked for with the size computed from the
    worker tensor at the same position. *)
Definition buffers_sized (inference_response : InferenceResponse)
    (response : TRITONBACKEND_Response) : Prop :=
  forall k o, response !! k = Some o ->
    exists t, resp_outputs inference_response !! k = Some t /\
              out_name o = t_name t /\
              forall b, out_buffer o = Some b -> buf_byte_size b = output_byte_size_of t.

(** Every output of a response is the delivered form of the worker tensor at
    the same position. *)
Definition all_delivered (request : TRITONBACKEND_Request)
    (inference_response : InferenceResponse)
    (response : TRITONBACKEND_Response) : Prop :=
  forall k o, response !! k = Some o ->
    exists t, resp_outputs inference_response !! k = Some t /\
              delivered_output request inference_response t = Some o.

(** What holds of a slot when the output loop is about to run iteration
    [j]: a response that is still there holds the [j] outputs delivered so
    far; what was sent before carried an error. *)
Definition slot_inv (request : TRITONBACKEND_Request)
    (inference_response : InferenceResponse) (j : nat) (s : Slot) : Prop :=
  (forall response, slot_ptr s = Some response ->
     length response = j /\ all_delivered request inference_response response) /\
  (forall x, x ∈ slot_sent s ->
     sent_error x <> None /\ buffers_sized inference_response (sent_outputs x)).

(** What holds of a slot when its item has been decoded: a response sent
    without error holds delivered outputs only. *)
Definition slot_decoded (request : TRITONBACKEND_Request)
    (inference_response : InferenceResponse) (s : Slot) : Prop :=
  forall x, x ∈ slot_sent s ->
    buffers_sized inference_response (sent_outputs x) /\
    (sent_error x = None ->
     all_delivered request inference_response (sent_outputs x)).

(** The outcome of a request as derived from the worker's response item for
    it. The request was answered exactly once. For an item the worker
    reported as failed the answer is the item's message, as an internal
    error, without output, and the response is dropped. For any other item,
    every output of the answer sits at the position of a tensor of the item,
    bears its name and has a buffer of the size computed from it; an answer
    without error holds one output per requested output, each the delivered
    form of the item's tensor at its position, and the response is still
    there; an answer with an error comes with the response dropped. *)
Definition derived_from (request : TRITONBACKEND_Request)
    (inference_response : InferenceResponse) (s : Slot) : Prop :=
  exists x,
    slot_sent s = [x] /\
    if resp_failed inference_response then
      x = {| sent_error := Some (TRITONSERVER_ErrorNew TRITONSERVER_ERROR_INTERNAL
                                   (resp_error_message inference_response));
             sent_outputs := [] |} /\
      slot_ptr s = None
    else
      buffers_sized inference_response (sent_outputs x) /\
      match sent_error x with
      | None =>
          slot_ptr s = Some (sent_outputs x) /\
          length (sent_outputs x) = length (rq_outputs request) /\
          all_delivered request inference_response (sent_outputs x)
      | Some _ => slot_ptr s = None
      end.

End DecodingForms.

(** Whether the worker's response item has what decoding it for a request
    reads: it is reported as failed, or it comes with a tensor at each
    position the output loop visits. *)
Definition item_defined (request : TRITONBACKEND_Request)
    (inference_response : InferenceResponse) : bool :=
  resp_failed inference_response ||
  (length (rq_outputs request) <=? length (resp_outputs inference_response))%nat.

(** The state the two first loops leave when every request is encoded to its
    end. *)
Definition encoded_state (requests : list TRITONBACKEND_Request) : ExecState :=
  {| responses := encoded_slot <$> requests;
     execute_request := wire_item <$> requests;
     transmitted := []; exec_log := []; statistics := []; released := [];
     batch_statistics := [] |}.

(** *** Reference values for the parameters *)

(** Element size per type tag ([TRITONSERVER_DataTypeByteSize]); [BYTES] and
    unknown tags have none. *)
Definition DataTypeByteSize (dtype : Z) : Z :=
  if (dtype =? 1)%Z then 1 else if (dtype =? 2)%Z then 1
  else if (dtype =? 3)%Z then 2 else if (dtype =? 4)%Z then 4
  else if (dtype =? 5)%Z then 8 else if (dtype =? 6)%Z then 1
  else if (dtype =? 7)%Z then 2 else if (dtype =? 8)%Z then 4
  else if (dtype =? 9)%Z then 8 else if (dtype =? 10)%Z then 2
  else if (dtype =? 11)%Z then 4 else if (dtype =? 12)%Z then 8
  else 0.

(** An instance of the declarations: element count times element size, [-1]
    when a dimension is [-1] or the type has no fixed size; tag 13 for BYTES. *)
Definition element_count (dims : list Z) : Z :=
  if bool_decide (Exists (fun d => d = -1) dims) then -1
  else match dims with
       | [] => 0
       | d :: ds => foldl Z.mul d ds
       end.

#[export] Instance reference_api : TritonAPI := {|
  GetByteSize dtype dims :=
    if (DataTypeByteSize dtype =? 0)%Z then -1
    else if (element_count dims =? -1)%Z then -1
    else element_count dims * DataTypeByteSize dtype;
  TRITONSERVER_TYPE_BYTES := 13
|}.

End Bridge.

(** ** Sample environments and batches *)

Module Samples.
Import Lifecycle Bridge.

Definition backend0 : BackendState :=
  {| python_lib := "/opt/tritonserver/backends/python";
     python_runtime := "python3"; grpc_timeout := 2000 |}.

Definition model0 : ModelState :=
  {| ms_Name := "add_sub"; ms_Version := 1; ms_RepositoryPath := "/models/add_sub";
     ms_ModelConfig := "{}"; ms_StateForBackend := backend0 |}.

Definition world0 : World := {| w_children := []; w_files := []; w_trace := [] |}.

Definition unavailable : grpc_Status := mkStatus false "failed to connect to all addresses".

(** A worker that answers [Init] from the third attempt on. *)
Definition env_third : Env :=
  {| env_mkdtemp := Some "/tmp/a1b2c3"; env_fork := 4242; env_execvp_ok := true;
     env_errno := 0; env_worker_binds := true;
     env_Init := fun i => if (i <? 2)%nat then unavailable else grpc_OK;
     env_Fini := grpc_OK;
     env_waitpid := fun _ _ => None |}.

(** A worker that never answers. *)
Definition env_never : Env :=
  {| env_mkdtemp := Some "/tmp/a1b2c3"; env_fork := 4242; env_execvp_ok := true;
     env_errno := 0; env_worker_binds := true;
     env_Init := fun _ => unavailable;
     env_Fini := grpc_OK;
     env_waitpid := fun _ _ => None |}.

Definition instance0 : ModelInstanceState :=
  new_ModelInstanceState model0 "add_sub_0" "KIND_CPU" 0.

(** Host requests. [IN] is a UINT8 vector. *)
Definition cpu_allocator : string -> Z -> result TRITONSERVER_MemoryType :=
  fun _ _ => Ok TRITONSERVER_MEMORY_CPU.

Definition small_request : TRITONBACKEND_Request :=
  {| rq_id := "req-1"; rq_correlation_id := 7;
     rq_inputs := [ {| in_name := "IN"; in_dtype := 2; in_shape := [2];
                       in_byte_size := 2; in_content := [x01; x02] |} ];
     rq_outputs := ["OUT"]; rq_allocator := cpu_allocator |}.

(** A request whose single input reports exactly [INT32_MAX] bytes. *)
Definition oversized_request (content : list byte) : TRITONBACKEND_Request :=
  {| rq_id := "req-big"; rq_correlation_id := 8;
     rq_inputs := [ {| in_name := "IN"; in_dtype := 2; in_shape := [2147483647];
                       in_byte_size := 2147483647; in_content := content |} ];
     rq_outputs := ["OUT"]; rq_allocator := cpu_allocator |}.

Definition big_payload : list byte := replicate (Z.to_nat 2147483647) x00.

(** Workers. *)
Definition socket_closed : grpc_Status := mkStatus false "Socket closed".

Definition stub_down : list InferenceRequest -> grpc_Status * list InferenceResponse :=
  fun _ => (socket_closed, []).

Definition out_tensor : Tensor :=
  {| t_name := "OUT"; t_dtype := 2; t_dims := [2]; t_raw_data := [x0a; x0b] |}.

Definition succeeded (outputs : list Tensor) : InferenceResponse :=
  {| resp_outputs := outputs; resp_failed := false; resp_error_message := "" |}.

Definition failed_with (msg : string) : InferenceResponse :=
  {| resp_outputs := []; resp_failed := true; resp_error_message := msg |}.

(** Answers two requests, with no output for the first. *)
Definition stub_two : list InferenceRequest -> grpc_Status * list InferenceResponse :=
  fun _ => (grpc_OK, [succeeded []; succeeded [out_tensor]]).

(** Answers two requests with [OUT] each. *)
Definition stub_two_out : list InferenceRequest -> grpc_Status * list InferenceResponse :=
  fun _ => (grpc_OK, [succeeded [out_tensor]; succeeded [out_tensor]]).

(** Answers three requests and reports the last one as failed. *)
Definition stub_third_failed
  : list InferenceRequest -> grpc_Status * list InferenceResponse :=
  fun _ => (grpc_OK, [succeeded [out_tensor]; succeeded [out_tensor];
                      failed_with "model raised ValueError"]).

(** A request for output [A] only, and a worker that answers with [B] first. *)
Definition request_A : TRITONBACKEND_Request :=
  {| rq_id := "req-a"; rq_correlation_id := 0; rq_inputs := [];
     rq_outputs := ["A"]; rq_allocator := cpu_allocator |}.

Definition tensor_A : Tensor :=
  {| t_name := "A"; t_dtype := 2; t_dims := [1]; t_raw_data := [x0a] |}.

Definition tensor_B : Tensor :=
  {| t_name := "B"; t_dtype := 2; t_dims := [1]; t_raw_data := [x0b] |}.

Definition stub_B_then_A : list InferenceRequest -> grpc_Status * list InferenceResponse :=
  fun _ => (grpc_OK, [succeeded [tensor_B; tensor_A]]).

(** A request for [A] and [B], and a worker that leaves [A] out. *)
Definition request_A_B : TRITONBACKEND_Request :=
  {| rq_id := "req-ab"; rq_correlation_id := 0; rq_inputs := [];
     rq_outputs := ["A"; "B"]; rq_allocator := cpu_allocator |}.

Definition stub_only_B : list InferenceRequest -> grpc_Status * list InferenceResponse :=
  fun _ => (grpc_OK, [succeeded [tensor_B]]).

(** A request whose allocator places output [A] in GPU memory. *)
Definition gpu_for_A : string -> Z -> result TRITONSERVER_MemoryType :=
  fun name _ => if bool_decide (name = "A") then Ok TRITONSERVER_MEMORY_GPU
                else Ok TRITONSERVER_MEMORY_CPU.

Definition request_gpu : TRITONBACKEND_Request :=
  {| rq_id := "req-gpu"; rq_correlation_id := 0; rq_inputs := [];
     rq_outputs := ["A"; "B"]; rq_allocator := gpu_for_A |}.

Definition stub_A_B : list InferenceRequest -> grpc_Status * list InferenceResponse :=
  fun _ => (grpc_OK, [succeeded [tensor_A; tensor_B]]).

(** A worker whose UINT8 tensor of shape [1] carries three bytes, and one
    whose BYTES tensor of shape [1] carries five. *)
Definition long_tensor : Tensor :=
  {| t_name := "OUT"; t_dtype := 2; t_dims := [1]; t_raw_data := [x0a; x0b; x0c] |}.

Definition stub_long : list InferenceRequest -> grpc_Status * list InferenceResponse :=
  fun _ => (grpc_OK, [succeeded [long_tensor]]).

Definition bytes_tensor : Tensor :=
  {| t_name := "OUT"; t_dtype := 13; t_dims := [1];
     t_raw_data := [x01; x00; x00; x00; x61] |}.

Definition stub_bytes : list InferenceRequest -> grpc_Status * list InferenceResponse :=
  fun _ => (grpc_OK, [succeeded [bytes_tensor]]).

End Samples.

(** ** Observations on traces and requests *)

Module Observations.
Import Lifecycle Bridge.

(** Number of [Init] calls in a trace. *)
Fixpoint init_calls (tr : list Event) : nat :=
  match tr with
  | [] => O
  | EvInit _ :: tr' => S (init_calls tr')
  | _ :: tr' => init_calls tr'
  end.

(** Signals sent in a trace, in order. *)
Fixpoint kills (tr : list Event) : list Z :=
  match tr with
  | [] => []
  | EvKill pid :: tr' => pid :: kills tr'
  | _ :: tr' => kills tr'
  end.

(** A request with its requested output names replaced. *)
Definition with_outputs (names : list string) (request : TRITONBACKEND_Request)
  : TRITONBACKEND_Request :=
  {| rq_id := rq_id request; rq_correlation_id := rq_correlation_id request;
     rq_inputs := rq_inputs request; rq_outputs := names;
     rq_allocator := rq_allocator request |}.

(** The wire tensor that carries a host input verbatim. *)
Definition verbatim_tensor (i : TRITONBACKEND_Input) : Tensor :=
  {| t_name := in_name i; t_dtype := in_dtype i; t_dims := in_shape i;
     t_raw_data := in_content i |}.

(** The wire item that carries a host request verbatim. *)
Definition verbatim_item (request : TRITONBACKEND_Request) : InferenceRequest :=
  {| ir_id := Determinate (rq_id request);
     ir_correlation_id := Determinate (rq_correlation_id request);
     ir_inputs := verbatim_tensor <$> rq_inputs request;
     ir_requested_output_names := Determinate <$> rq_outputs request |}.

End Observations.

Module MoreSamples.
Import Lifecycle Bridge Samples.

(** The process is the child and [execvp] works. *)
Definition env_child : Env :=
  {| env_mkdtemp := Some "/tmp/a1b2c3"; env_fork := 0; env_execvp_ok := true;
     env_errno := 0; env_worker_binds := false;
     env_Init := fun _ => unavailable; env_Fini := grpc_OK;
     env_waitpid := fun _ _ => None |}.

(** A worker that answers at once but does not acknowledge [Fini]. *)
Definition env_no_ack : Env :=
  {| env_mkdtemp := Some "/tmp/a1b2c3"; env_fork := 4242; env_execvp_ok := true;
     env_errno := 0; env_worker_binds := true;
     env_Init := fun _ => grpc_OK; env_Fini := unavailable;
     env_waitpid := fun _ _ => None |}.

(** [fork] fails. *)
Definition env_fork_failed : Env :=
  {| env_mkdtemp := Some "/tmp/a1b2c3"; env_fork := -1; env_execvp_ok := true;
     env_errno := 0; env_worker_binds := false;
     env_Init := fun _ => unavailable; env_Fini := grpc_OK;
     env_waitpid := fun _ _ => None |}.

(** Two inputs, two requested outputs. *)
Definition pair_request : TRITONBACKEND_Request :=
  {| rq_id := "req-2"; rq_correlation_id := 9;
     rq_inputs := [ {| in_name := "IN0"; in_dtype := 2; in_shape := [2];
                       in_byte_size := 2; in_content := [x01; x02] |};
                    {| in_name := "IN1"; in_dtype := 8; in_shape := [1];
                       in_byte_size := 4; in_content := [x07; x00; x00; x00] |} ];
     rq_outputs := ["A"; "B"]; rq_allocator := cpu_allocator |}.

(** An allocator that has no memory for output [B]. *)
Definition no_memory : TRITONSERVER_Error :=
  TRITONSERVER_ErrorNew TRITONSERVER_ERROR_INTERNAL "out of memory".

Definition fails_for_B : string -> Z -> result TRITONSERVER_MemoryType :=
  fun name _ => if bool_decide (name = "B") then Err no_memory
                else Ok TRITONSERVER_MEMORY_CPU.

Definition request_no_memory : TRITONBACKEND_Request :=
  {| rq_id := "req-oom"; rq_correlation_id := 0; rq_inputs := [];
     rq_outputs := ["A"; "B"]; rq_allocator := fails_for_B |}.

End MoreSamples.

(** * Properties of the handshake and of the instance lifecycle *)

Module LifecycleFacts.
Import Lifecycle.

Section Handshake.
Variable env : Env.
Variable args : list (string * string).
Variable timeout : Z.

Lemma emit_trace e w : w_trace (emit e w) = w_trace w ++ [e].
Proof. reflexivity. Qed.

Lemma emit_children e w : w_children (emit e w) = w_children w.
Proof. reflexivity. Qed.

Lemma emit_files e w : w_files (emit e w) = w_files w.
Proof. reflexivity. Qed.

(** All remaining attempts fail: the loop runs to its bound and the error
    carries the message of the last status. *)
Lemma connect_loop_exhausted todo : forall i status s w,
  (forall j, (j < todo)%nat -> status_ok (env_Init env (i + j)) = false) ->
  exists w',
    connect_loop env args timeout i todo status s w =
      (Some (TRITONSERVER_ErrorNew TRITONSERVER_ERROR_INTERNAL
               (status_error_message
                  (match todo with O => status | S t => env_Init env (i + t) end))),
       s, w') /\
    w_children w' = w_children w /\ w_files w' = w_files w /\
    w_trace w' = w_trace w ++ failed_rounds args timeout todo.
Proof.
  induction todo as [|todo IH]; intros i status s w Hfail; simpl.
  - exists w. rewrite app_nil_r. done.
  - assert (H0 : status_ok (env_Init env i) = false).
    { specialize (Hfail O). rewrite Nat.add_0_r in Hfail. apply Hfail. lia. }
    rewrite H0.
    destruct (IH (S i) (env_Init env i) s (emit (EvSleep timeout) (emit (EvInit args) w)))
      as (w' & Heq & Hc & Hf & Ht).
    { intros j Hj. replace (S i + j)%nat with (i + S j)%nat by lia. apply Hfail. lia. }
    exists w'. rewrite Heq. split; [|split; [|split]].
    + destruct todo as [|t]; [by rewrite Nat.add_0_r|].
      replace (S i + t)%nat with (i + S t)%nat by lia. done.
    + by rewrite Hc.
    + by rewrite Hf.
    + rewrite Ht, !emit_trace, <- !app_assoc. done.
Qed.

(** The first [k] remaining attempts fail and the next one succeeds: the loop
    stops there. *)
Lemma connect_loop_succeeds k : forall todo i status s w,
  (k < todo)%nat ->
  (forall j, (j < k)%nat -> status_ok (env_Init env (i + j)) = false) ->
  status_ok (env_Init env (i + k)) = true ->
  exists w',
    connect_loop env args timeout i todo status s w =
      (None, set_connected true s, w') /\
    w_children w' = w_children w /\ w_files w' = w_files w /\
    w_trace w' = w_trace w ++ failed_rounds args timeout k ++
                 [EvInit args;
                  EvLog ("GRPC connection was successful " +:+ name_ s +:+
                         " (device " +:+ pretty (device_id_ s) +:+ ")")].
Proof.
  induction k as [|k IH]; intros todo i status s w Hk Hfail Hok;
    destruct todo as [|todo]; try lia; simpl.
  - rewrite Nat.add_0_r in Hok. rewrite Hok.
    eexists. split; [reflexivity|]. rewrite !emit_trace, <- app_assoc. done.
  - assert (H0 : status_ok (env_Init env i) = false).
    { specialize (Hfail O). rewrite Nat.add_0_r in Hfail. apply Hfail. lia. }
    rewrite H0.
    destruct (IH todo (S i) (env_Init env i) s
                (emit (EvSleep timeout) (emit (EvInit args) w)))
      as (w' & Heq & Hc & Hf & Ht).
    { lia. }
    { intros j Hj. replace (S i + j)%nat with (i + S j)%nat by lia. apply Hfail. lia. }
    { replace (S i + k)%nat with (i + S k)%nat by lia. done. }
    exists w'. rewrite Heq. split; [done|]. split; [by rewrite Hc|].
    split; [by rewrite Hf|].
    rewrite Ht, !emit_trace, <- !app_assoc. done.
Qed.

End Handshake.

(** C5. The handshake makes at most five [Init] attempts. If attempt [k]
    (1 <= k <= 5) is the first to succeed, it is the last one made: the
    function returns success with the instance connected, after [k - 1] failed
    attempts each followed by the wait. If all five fail, each is followed by
    the wait and the function returns an internal error carrying the message
    of the fifth status. *)
Theorem ConnectPythonInterpreter_bounded_retry
    (env : Env) (s : ModelInstanceState) (w : World) (k : nat) :
  (1 <= k <= 5)%nat ->
  (forall i, (i < k - 1)%nat -> status_ok (env_Init env i) = false) ->
  let s1 := set_stub true s in
  let args := initialization_params s1 in
  let timeout := grpc_timeout (ms_StateForBackend (model_state_ s)) in
  (status_ok (env_Init env (k - 1)) = true ->
   exists w',
     ConnectPythonInterpreter env s w = (None, set_connected true s1, w') /\
     connected_ (set_connected true s1) = true /\
     w_trace w' = w_trace w ++ failed_rounds args timeout (k - 1) ++
                  [EvInit args;
                   EvLog ("GRPC connection was successful " +:+ name_ s +:+
                          " (device " +:+ pretty (device_id_ s) +:+ ")")]) /\
  (k = 5%nat -> status_ok (env_Init env 4) = false ->
   exists w',
     ConnectPythonInterpreter env s w =
       (Some (TRITONSERVER_ErrorNew TRITONSERVER_ERROR_INTERNAL
                (status_error_message (env_Init env 4))), s1, w') /\
     connected_ s1 = connected_ s /\
     w_trace w' = w_trace w ++ failed_rounds args timeout 5).
Proof.
  intros Hk Hfail s1 args timeout. split.
  - intros Hok.
    destruct (connect_loop_succeeds env args timeout (k - 1) conn_attempts 0 grpc_OK s1 w)
      as (w' & Heq & _ & _ & Ht); [unfold conn_attempts; lia|done|done|].
    exists w'. split; [exact Heq|]. split; [done|]. exact Ht.
  - intros -> H5.
    destruct (connect_loop_exhausted env args timeout conn_attempts 0 grpc_OK s1 w)
      as (w' & Heq & _ & _ & Ht).
    { intros j Hj. unfold conn_attempts in Hj. simpl.
      destruct (decide (j = 4%nat)) as [->|]; [done|]. apply Hfail. lia. }
    exists w'. split; [exact Heq|]. split; [done|]. exact Ht.
Qed.

(** [substr(strlen("unix://"))] of the socket address is the socket path. *)
Lemma substring_all (x : string) : String.substring 0 (String.length x) x = x.
Proof. induction x as [|c x IH]; simpl; [done|]. by rewrite IH. Qed.

Lemma strip_scheme_unix (p : string) : strip_scheme ("unix://" +:+ p) = p.
Proof. unfold strip_scheme. simpl. rewrite Nat.sub_0_r. apply substring_all. Qed.

(** C6, as the code has it. When the handshake exhausts its attempts,
    instance initialization returns the internal error with the last transport
    message and does no teardown: the instance is not connected, the worker
    process is still among the children and the channel directory (and the
    socket file, if the worker made it) still exists, and no signal was sent.
    The instance destructor, run by instance finalization, is what terminates
    and reaps the worker and unlinks the socket path, without sending [Fini]. *)
Theorem ModelInstanceInitialize_exhausted_leaves_teardown_to_destructor
    (env : Env) (m : ModelState) (name kind : string) (device_id : Z) (w : World)
    (dir : string) :
  env_mkdtemp env = Some dir ->
  0 < env_fork env ->
  (forall i, (i < 5)%nat -> status_ok (env_Init env i) = false) ->
  exists s' w',
    TRITONBACKEND_ModelInstanceInitialize env m name kind device_id w =
      (Returned (Some (TRITONSERVER_ErrorNew TRITONSERVER_ERROR_INTERNAL
                         (status_error_message (env_Init env 4)))), s', w') /\
    connected_ s' = false /\
    env_fork env ∈ w_children w' /\
    dir ∈ w_files w' /\
    (forall e, e ∈ w_trace w' -> e ∈ w_trace w \/
               (forall pid, e <> EvKill pid) /\ (forall p, e <> EvUnlink p)) /\
    exists w'',
      TRITONBACKEND_ModelInstanceFinalize env s' w' = Some w'' /\
      (env_fork env ∉ w_children w'') /\
      (socket_file dir ∉ w_files w'') /\
      (EvFini ∈ w_trace w'' -> EvFini ∈ w_trace w).
Proof.
  intros Hdir Hfork Hfail.
  unfold TRITONBACKEND_ModelInstanceInitialize, CreatePythonInterpreter.
  rewrite Hdir.
  assert (Hf : (env_fork env =? 0)%Z = false) by (apply Z.eqb_neq; lia).
  assert (Hpos : (0 <? env_fork env)%Z = true) by (by apply Z.ltb_lt).
  rewrite Hf, Hpos.
  unfold ConnectPythonInterpreter.
  match goal with
  | |- context [connect_loop env ?a ?t 0 conn_attempts grpc_OK ?s ?w0] =>
      destruct (connect_loop_exhausted env a t conn_attempts 0 grpc_OK s w0)
        as (w' & Heq & Hc & Hfl & Ht); [intros j Hj; apply Hfail; exact Hj|]
  end.
  rewrite Heq. simpl in Hc, Hfl, Ht.
  eexists _, w'. split; [reflexivity|].
  split; [reflexivity|].
  split; [rewrite Hc; apply list_elem_of_here|].
  split.
  { rewrite Hfl. apply elem_of_app. right. apply list_elem_of_here. }
  split.
  { intros e He. rewrite Ht in He. unfold failed_rounds, conn_attempts in He.
    cbn [replicate concat app] in He.
    rewrite ?elem_of_app, ?elem_of_cons, ?elem_of_nil in He.
    destruct_or! He; subst; try contradiction; auto;
      right; split; intros; discriminate. }
  unfold TRITONBACKEND_ModelInstanceFinalize, destroy_ModelInstanceState.
  cbn [connected_ interpreter_pid_ domain_socket_ set_stub set_interpreter_pid
       set_pymodule_path set_domain_socket new_ModelInstanceState].
  rewrite bool_decide_eq_false_2 by done.
  eexists. split; [reflexivity|].
  rewrite strip_scheme_unix. unfold reaped. rewrite Hpos.
  cbn [w_children w_files w_trace emit].
  split; [|split].
  - intros Hin. apply list_elem_of_filter in Hin as [Hne _]. done.
  - intros Hin. apply list_elem_of_filter in Hin as [Hne _]. done.
  - intros Hin. rewrite Ht in Hin. unfold failed_rounds, conn_attempts in Hin.
    cbn [replicate concat app] in Hin.
    rewrite ?elem_of_app, ?elem_of_cons, ?elem_of_nil in Hin.
    destruct_or! Hin; try discriminate; try contradiction; assumption.
Qed.

(** C6, counterexample. With a worker that never answers, initialization
    returns the failure while the worker (pid 4242) is still a child of the
    process and both the socket file and its directory exist: nothing was torn
    down. *)
Lemma ModelInstanceInitialize_exhausted_no_teardown :
  let r := TRITONBACKEND_ModelInstanceInitialize Samples.env_never Samples.model0
             "add_sub_0" "KIND_CPU" 0 Samples.world0 in
  fst (fst r) = Returned (Some (TRITONSERVER_ErrorNew TRITONSERVER_ERROR_INTERNAL
                                  "failed to connect to all addresses")) /\
  w_children (snd r) = [4242] /\
  w_files (snd r) = ["/tmp/a1b2c3/unix.socket"; "/tmp/a1b2c3"] /\
  w_children (snd r) <> w_children Samples.world0 /\
  w_files (snd r) <> w_files Samples.world0.
Proof. vm_compute. repeat split; discriminate. Qed.

Lemma ConnectPythonInterpreter_bounded_retry_witness :
  fst (fst (ConnectPythonInterpreter Samples.env_third Samples.instance0 Samples.world0))
    = None /\
  fst (fst (ConnectPythonInterpreter Samples.env_never Samples.instance0 Samples.world0)) =
    Some (TRITONSERVER_ErrorNew TRITONSERVER_ERROR_INTERNAL
            "failed to connect to all addresses").
Proof.
  split.
  - destruct (ConnectPythonInterpreter_bounded_retry
                Samples.env_third Samples.instance0 Samples.world0 3) as [Hs _].
    + lia.
    + intros i Hi. destruct i as [|[|i]]; [reflexivity|reflexivity|lia].
    + destruct Hs as (w' & Heq & _); [reflexivity|]. rewrite Heq. reflexivity.
  - destruct (ConnectPythonInterpreter_bounded_retry
                Samples.env_never Samples.instance0 Samples.world0 5) as [_ Hf].
    + lia.
    + intros i Hi. reflexivity.
    + destruct Hf as (w' & Heq & _); [reflexivity|reflexivity|].
      rewrite Heq. reflexivity.
Defined.

Lemma ModelInstanceInitialize_exhausted_witness :
  exists s' w',
    TRITONBACKEND_ModelInstanceInitialize Samples.env_never Samples.model0
      "add_sub_0" "KIND_CPU" 0 Samples.world0 =
      (Returned (Some (TRITONSERVER_ErrorNew TRITONSERVER_ERROR_INTERNAL
                         "failed to connect to all addresses")), s', w') /\
    connected_ s' = false /\ 4242 ∈ w_children w' /\
    exists w'', TRITONBACKEND_ModelInstanceFinalize Samples.env_never s' w' = Some w'' /\
                (4242 ∉ w_children w'').
Proof.
  destruct (ModelInstanceInitialize_exhausted_leaves_teardown_to_destructor
              Samples.env_never Samples.model0 "add_sub_0" "KIND_CPU" 0 Samples.world0
              "/tmp/a1b2c3")
    as (s' & w' & Heq & Hc & Hp & _ & _ & w'' & Hfin & Hgone & _).
  - reflexivity.
  - simpl. lia.
  - intros i Hi. reflexivity.
  - exists s', w'. split; [exact Heq|]. split; [exact Hc|]. split; [exact Hp|].
    exists w''. split; [exact Hfin|exact Hgone].
Defined.

End LifecycleFacts.

(** * Properties of the batch round trip *)

Module BridgeFacts.
Import Bridge.

(** ** Encoding one request *)

Section Encoding.

Lemma GUARDED_null {A : Type} (X : Slot -> Slot * result A) (keep : A) (s : Slot) :
  slot_ptr s = None -> GUARDED_RESPOND_IF_ERROR X keep s = (s, keep).
Proof. intros Hs. unfold GUARDED_RESPOND_IF_ERROR. by rewrite Hs. Qed.

Lemma GUARDED_pure_ok {A B : Type} (f : A -> B) (a : A) (keep : B) (s : Slot) :
  slot_ptr s <> None ->
  GUARDED_RESPOND_IF_ERROR (pure_call f (Ok a)) keep s = (s, f a).
Proof.
  intros Hs. unfold GUARDED_RESPOND_IF_ERROR, pure_call.
  destruct (slot_ptr s); [done|contradiction].
Qed.

(** With unique names, looking an input up by the name of the [k]-th input
    gives the [k]-th input. *)
Lemma find_name_lookup (l : list TRITONBACKEND_Input) (k : nat) (i : TRITONBACKEND_Input) :
  NoDup (in_name <$> l) -> l !! k = Some i ->
  List.find (fun x => bool_decide (in_name x = in_name i)) l = Some i.
Proof.
  revert k. induction l as [|a l IH]; intros k Hnd Hk; [done|].
  rewrite fmap_cons in Hnd. apply NoDup_cons in Hnd as [Hna Hnd].
  destruct k as [|k]; simpl in Hk; simpl.
  - injection Hk as ->. by rewrite bool_decide_eq_true_2.
  - rewrite bool_decide_eq_false_2; [by eapply IH|].
    intros Heq. apply Hna. rewrite Heq.
    apply list_elem_of_fmap_2. by eapply list_elem_of_lookup_2.
Qed.

(** Without that assumption it still gives an input of the request. *)
Lemma find_name_some (l : list TRITONBACKEND_Input) (k : nat) (i : TRITONBACKEND_Input) :
  l !! k = Some i ->
  exists i', List.find (fun x => bool_decide (in_name x = in_name i)) l = Some i' /\
             i' ∈ l.
Proof.
  intros Hk.
  destruct (List.find (fun x => bool_decide (in_name x = in_name i)) l) as [i'|] eqn:Hf.
  - exists i'. split; [done|]. apply list_elem_of_In. by apply find_some in Hf as [? _].
  - exfalso. apply list_elem_of_lookup_2, list_elem_of_In in Hk.
    pose proof (find_none _ _ Hf _ Hk) as Hb. simpl in Hb.
    by rewrite bool_decide_eq_true_2 in Hb.
Qed.

(** [GetInputTensor] on the [k]-th input of a request with unique input
    names: the size check decides, and the responses are left alone. *)
Lemma GetInputTensor_lookup request k i s :
  NoDup (in_name <$> rq_inputs request) ->
  rq_inputs request !! k = Some i ->
  GetInputTensor k request blank_Tensor s =
    (s, if oversized i then Err oversize_error else Ok (wire_tensor i)).
Proof.
  intros Hnd Hk. unfold GetInputTensor, TRITONBACKEND_RequestInputName,
    TRITONBACKEND_RequestInput.
  rewrite Hk, (find_name_lookup _ k i Hnd Hk). simpl.
  unfold oversized. by destruct (MAX_GRPC_MESSAGE_SIZE <=? in_byte_size i)%Z.
Qed.

Lemma GetInputTensor_cases request k s :
  (k < length (rq_inputs request))%nat ->
  (exists t, GetInputTensor k request blank_Tensor s = (s, Ok t)) \/
  GetInputTensor k request blank_Tensor s = (s, Err oversize_error).
Proof.
  intros Hk. apply lookup_lt_is_Some_2 in Hk as [i Hi].
  destruct (find_name_some _ _ _ Hi) as (i' & Hf & _).
  unfold GetInputTensor, TRITONBACKEND_RequestInputName, TRITONBACKEND_RequestInput.
  rewrite Hi, Hf. simpl.
  destruct (MAX_GRPC_MESSAGE_SIZE <=? in_byte_size i')%Z; [by right|left; eauto].
Qed.

(** Once the response is null, the input loop only appends blank tensors. *)
Lemma input_loop_null request : forall todo iidx s acc,
  slot_ptr s = None ->
  input_loop request iidx todo s acc = (s, acc ++ replicate todo blank_Tensor).
Proof.
  induction todo as [|todo IH]; intros iidx s acc Hs; simpl.
  - by rewrite app_nil_r.
  - rewrite GUARDED_null by done. rewrite IH by done.
    by rewrite <- app_assoc.
Qed.

(** The input loop on a live response. *)
Lemma input_loop_live request :
  NoDup (in_name <$> rq_inputs request) ->
  forall cur pre s acc,
    rq_inputs request = pre ++ cur ->
    slot_ptr s <> None ->
    input_loop request (length pre) (length cur) s acc =
      (if rejected cur then send_error oversize_error s else s,
       acc ++ encoded_inputs cur).
Proof.
  intros Hnd. induction cur as [|i cur IH]; intros pre s acc Hsplit Hs; simpl.
  - by rewrite app_nil_r.
  - assert (Hi : rq_inputs request !! length pre = Some i).
    { rewrite Hsplit. by apply list_lookup_middle. }
    unfold GUARDED_RESPOND_IF_ERROR at 1.
    destruct (slot_ptr s) as [resp|] eqn:Hp; [|contradiction].
    rewrite (GetInputTensor_lookup _ _ _ _ Hnd Hi).
    fold (rejected cur). destruct (oversized i) eqn:Hov; simpl.
    + rewrite input_loop_null by done. f_equal. by rewrite <- app_assoc.
    + replace (S (length pre)) with (length (pre ++ [i])) by (rewrite length_app; simpl; lia).
      rewrite (IH (pre ++ [i])); [|by rewrite <- app_assoc|by rewrite Hp].
      by rewrite <- app_assoc.
Qed.

(** On a null response the first iteration of the name loop reads a name
    that was never assigned. *)
Lemma output_name_loop_null request todo iidx s acc :
  slot_ptr s = None ->
  output_name_loop request iidx (S todo) s acc = EncodeUndef (s, acc).
Proof. intros Hs. simpl. by rewrite GUARDED_null. Qed.

Lemma output_name_loop_live request : forall cur pre s acc,
  rq_outputs request = pre ++ cur ->
  slot_ptr s <> None ->
  output_name_loop request (length pre) (length cur) s acc =
    EncodeDone (s, acc ++ (Determinate <$> cur)).
Proof.
  induction cur as [|n cur IH]; intros pre s acc Hsplit Hs; simpl.
  - by rewrite app_nil_r.
  - assert (Hn : rq_outputs request !! length pre = Some n).
    { rewrite Hsplit. by apply list_lookup_middle. }
    unfold TRITONBACKEND_RequestOutputName. rewrite Hn.
    rewrite GUARDED_pure_ok by done.
    replace (S (length pre)) with (length (pre ++ [n])) by (rewrite length_app; simpl; lia).
    rewrite (IH (pre ++ [n])); [|by rewrite <- app_assoc|done].
    by rewrite <- app_assoc.
Qed.

(** What the rest of the encoding does once the input loop is over. On a
    response that is still there the names, the id and the correlation id are
    assigned and set. On a null response the first of the setters reads a
    local that no call assigned: the first name when there is one, the id
    otherwise. *)
Lemma encode_item_after_inputs request s3 inputs :
  input_loop request 0 (length (rq_inputs request)) fresh_slot [] = (s3, inputs) ->
  encode_item request fresh_slot =
    if is_null (slot_ptr s3) then
      EncodeUndef (s3, {| ir_id := Indeterminate; ir_correlation_id := Indeterminate;
                          ir_inputs := inputs; ir_requested_output_names := [] |})
    else
      EncodeDone (s3, {| ir_id := Determinate (rq_id request);
                         ir_correlation_id := Determinate (rq_correlation_id request);
                         ir_inputs := inputs;
                         ir_requested_output_names := Determinate <$> rq_outputs request |}).
Proof.
  intros Hin. unfold encode_item.
  unfold TRITONBACKEND_RequestInputCount, TRITONBACKEND_RequestOutputCount,
    TRITONBACKEND_RequestId, TRITONBACKEND_RequestCorrelationId.
  rewrite !GUARDED_pure_ok by done. unfold id. rewrite Hin.
  destruct (slot_ptr s3) as [response|] eqn:Hs3; cbn [is_null].
  - pose proof (output_name_loop_live request (rq_outputs request) [] s3 [] eq_refl)
      as Hout.
    cbn [length app] in Hout. rewrite Hout by (by rewrite Hs3).
    rewrite !GUARDED_pure_ok by (by rewrite Hs3). done.
  - destruct (rq_outputs request) as [|n names]; cbn [length].
    + cbn [output_name_loop]. by rewrite GUARDED_null.
    + by rewrite output_name_loop_null.
Qed.

(** The encoding of a request with unique input names, in closed form. When
    an input is rejected the item is answered with the size error, and the
    encoding then stops on the read of a local that was never assigned. *)
Lemma encode_item_closed request :
  NoDup (in_name <$> rq_inputs request) ->
  encode_item request fresh_slot =
    if rejected (rq_inputs request) then
      EncodeUndef
        (send_error oversize_error fresh_slot,
         {| ir_id := Indeterminate; ir_correlation_id := Indeterminate;
            ir_inputs := encoded_inputs (rq_inputs request);
            ir_requested_output_names := [] |})
    else
      EncodeDone
        (fresh_slot,
         {| ir_id := Determinate (rq_id request);
            ir_correlation_id := Determinate (rq_correlation_id request);
            ir_inputs := encoded_inputs (rq_inputs request);
            ir_requested_output_names := Determinate <$> rq_outputs request |}).
Proof.
  intros Hnd.
  pose proof (input_loop_live request Hnd (rq_inputs request) [] fresh_slot []
                eq_refl) as Hin.
  cbn [length app] in Hin. specialize (Hin ltac:(done)).
  rewrite (encode_item_after_inputs request _ _ Hin).
  by destruct (rejected (rq_inputs request)).
Qed.

(** Whatever the names, the loop either leaves the response alone or fails it
    once with the size error. *)
Lemma input_loop_slot_cases request : forall todo iidx s acc,
  (iidx + todo <= length (rq_inputs request))%nat ->
  (input_loop request iidx todo s acc).1 = s \/
  (input_loop request iidx todo s acc).1 = send_error oversize_error s.
Proof.
  induction todo as [|todo IH]; intros iidx s acc Hle; simpl; [by left|].
  destruct (slot_ptr s) as [resp|] eqn:Hp.
  - unfold GUARDED_RESPOND_IF_ERROR. rewrite Hp.
    destruct (GetInputTensor_cases request iidx s) as [[t Ht]|Ht]; [lia| |];
      rewrite Ht.
    + apply IH. lia.
    + right. by rewrite input_loop_null.
  - left. rewrite GUARDED_null by done. by rewrite input_loop_null.
Qed.

(** Whatever the names, the encoding of a request either runs to its end
    with the response untouched, or stops after the response was failed with
    the size error. *)
Lemma encode_item_cases request :
  (exists ir, encode_item request fresh_slot = EncodeDone (fresh_slot, ir)) \/
  (exists ir, encode_item request fresh_slot =
                EncodeUndef (send_error oversize_error fresh_slot, ir)).
Proof.
  pose proof (input_loop_slot_cases request (length (rq_inputs request)) 0
                fresh_slot [] (le_n _)) as Hin.
  destruct (input_loop request 0 (length (rq_inputs request)) fresh_slot [])
    as [s3 inputs] eqn:Hloop. simpl in Hin.
  rewrite (encode_item_after_inputs request _ _ Hloop).
  destruct Hin as [->| ->]; cbn [is_null slot_ptr fresh_slot send_error]; eauto.
Qed.

Lemma encoded_slot_cases request :
  encoded_slot request = fresh_slot \/
  encoded_slot request = send_error oversize_error fresh_slot.
Proof.
  unfold encoded_slot.
  destruct (encode_item_cases request) as [[ir ->]|[ir ->]]; [by left|by right].
Qed.

Lemma encodes_slot request : encodes request -> encoded_slot request = fresh_slot.
Proof. intros [ir He]. unfold encoded_slot. by rewrite He. Qed.

Lemma encodes_item request :
  encodes request ->
  encode_item request fresh_slot = EncodeDone (fresh_slot, wire_item request).
Proof. intros [ir He]. unfold wire_item. by rewrite He. Qed.

(** The encoding of a request that does not run to its end. *)
Lemma not_encodes request :
  ~ encodes request ->
  encode_item request fresh_slot =
    EncodeUndef (send_error oversize_error fresh_slot, wire_item request).
Proof.
  intros Hn. unfold wire_item.
  destruct (encode_item_cases request) as [[ir He]|[ir He]]; rewrite He; [|done].
  exfalso. apply Hn. by exists ir.
Qed.

Lemma encodes_dec request : encodes request \/ ~ encodes request.
Proof.
  destruct (encode_item_cases request) as [[ir He]|[ir He]].
  - left. by exists ir.
  - right. intros [ir' He']. congruence.
Qed.

(** A request none of whose inputs reaches the limit is encoded to its end. *)
Lemma accepted_encodes request : accepted request -> encodes request.
Proof.
  intros Hall.
  assert (Hget : forall k s, (k < length (rq_inputs request))%nat ->
            exists t, GetInputTensor k request blank_Tensor s = (s, Ok t)).
  { intros k s Hk. apply lookup_lt_is_Some_2 in Hk as [i Hi].
    destruct (find_name_some _ _ _ Hi) as (i' & Hf & Hin).
    unfold GetInputTensor, TRITONBACKEND_RequestInputName, TRITONBACKEND_RequestInput.
    rewrite Hi, Hf. simpl.
    unfold accepted in Hall. rewrite Forall_forall in Hall. specialize (Hall _ Hin).
    destruct (Z.leb_spec MAX_GRPC_MESSAGE_SIZE (in_byte_size i')); [lia|eauto]. }
  assert (Hloop : forall todo iidx acc,
            (iidx + todo <= length (rq_inputs request))%nat ->
            (input_loop request iidx todo fresh_slot acc).1 = fresh_slot).
  { induction todo as [|todo IH]; intros iidx acc Hle; simpl; [done|].
    unfold GUARDED_RESPOND_IF_ERROR at 1. simpl.
    destruct (Hget iidx fresh_slot) as [t Ht]; [lia|]. rewrite Ht. apply IH. lia. }
  specialize (Hloop (length (rq_inputs request)) 0%nat [] (le_n _)).
  destruct (input_loop request 0 (length (rq_inputs request)) fresh_slot [])
    as [s3 inputs] eqn:Hin. simpl in Hloop. subst s3.
  eexists. by rewrite (encode_item_after_inputs request _ _ Hin).
Qed.

Lemma encoded_slot_accepted request :
  Forall (fun i => in_byte_size i < MAX_GRPC_MESSAGE_SIZE) (rq_inputs request) ->
  encoded_slot request = fresh_slot.
Proof. intros Hall. by apply encodes_slot, accepted_encodes. Qed.

Lemma rejected_lookup (l : list TRITONBACKEND_Input) k i :
  l !! k = Some i -> oversized i = true -> rejected l = true.
Proof.
  intros Hk Ho. unfold rejected. apply existsb_exists. exists i.
  split; [|done]. apply list_elem_of_In. by eapply list_elem_of_lookup_2.
Qed.

(** With unique input names, a request is encoded to its end exactly when
    the size check lets all its inputs through. *)
Lemma encodes_iff_accepted request :
  NoDup (in_name <$> rq_inputs request) ->
  encodes request <-> accepted request.
Proof.
  intros Hnd. split; [|apply accepted_encodes].
  intros [ir He]. rewrite (encode_item_closed request Hnd) in He.
  destruct (rejected (rq_inputs request)) eqn:Hrej; [done|].
  unfold accepted. apply Forall_forall. intros i Hi.
  apply list_elem_of_lookup in Hi as [k Hk].
  destruct (Z.leb_spec MAX_GRPC_MESSAGE_SIZE (in_byte_size i)) as [Hle|]; [|done].
  assert (oversized i = true) as Ho by (by apply Z.leb_le).
  by rewrite (rejected_lookup _ _ _ Hk Ho) in Hrej.
Qed.

End Encoding.

(** ** The loops over the batch *)

Section Loops.
Variable requests : list TRITONBACKEND_Request.

(** A property of the state that every iteration preserves holds in the
    state the loop ends in, however it ends. *)
Lemma for_loop_invariant (P : ExecState -> Prop) (body : nat -> ExecState -> Step) :
  (forall r st, P st -> P (step_state (body r st))) ->
  forall todo r st, P st -> P (step_state (for_loop body r todo st)).
Proof.
  intros Hbody. induction todo as [|todo IH]; intros r st HP; simpl; [done|].
  specialize (Hbody r st HP).
  destruct (body r st) as [st1|e st1|st1]; simpl in *; [by apply IH|done|done].
Qed.

Lemma new_response_loop : forall todo r st,
  (r + todo <= length requests)%nat ->
  for_loop (new_response_body requests) r todo st =
    Next (with_responses (responses st ++ replicate todo fresh_slot) st).
Proof.
  induction todo as [|todo IH]; intros r st Hle; simpl.
  - rewrite app_nil_r. by destruct st.
  - destruct (lookup_lt_is_Some_2 requests r) as [q Hq]; [lia|].
    unfold new_response_body at 1. rewrite Hq. simpl.
    rewrite IH by lia. simpl. rewrite <- app_assoc. done.
Qed.

(** The encoding loop on requests that are all encoded to their end, with
    [pre] the slots already encoded. *)
Lemma encode_loop_done : forall rcur rpre pre st,
  requests = rpre ++ rcur ->
  responses st = pre ++ replicate (length rcur) fresh_slot ->
  length rpre = length pre ->
  Forall encodes rcur ->
  for_loop (encode_body requests) (length pre) (length rcur) st =
    Next {| responses := pre ++ replicate (length rcur) fresh_slot;
            execute_request := execute_request st ++ (wire_item <$> rcur);
            transmitted := transmitted st; exec_log := exec_log st;
            statistics := statistics st; released := released st;
            batch_statistics := batch_statistics st |}.
Proof.
  induction rcur as [|q rcur IH]; intros rpre pre st Hreq Hresp Hlen Hall.
  - simpl. rewrite !app_nil_r. simpl in Hresp. rewrite app_nil_r in Hresp.
    rewrite <- Hresp. by destruct st.
  - apply Forall_cons in Hall as [Hq Hall]. simpl in Hresp. simpl.
    unfold encode_body at 1.
    assert (Hrq : requests !! length pre = Some q).
    { rewrite Hreq, <- Hlen. by apply list_lookup_middle. }
    assert (Hs : responses st !! length pre = Some fresh_slot).
    { rewrite Hresp. by apply list_lookup_middle. }
    rewrite Hrq, Hs, (encodes_item q Hq).
    replace (S (length pre)) with (length (pre ++ [fresh_slot]))
      by (rewrite length_app; simpl; lia).
    rewrite (IH (rpre ++ [q]) (pre ++ [fresh_slot])).
    + simpl. rewrite <- !app_assoc. done.
    + by rewrite <- app_assoc.
    + simpl. rewrite Hresp.
      replace (length pre) with (length pre + 0)%nat by lia.
      rewrite insert_app_r. simpl. by rewrite <- app_assoc.
    + rewrite !length_app. simpl. lia.
    + done.
Qed.

(** The encoding loop stops at the first request that is not encoded to its
    end: that request was answered with the size error, the requests before
    it are encoded, those after it untouched. *)
Lemma encode_loop_stuck : forall good rpre pre st q rest,
  requests = rpre ++ good ++ q :: rest ->
  responses st = pre ++ replicate (length (good ++ q :: rest)) fresh_slot ->
  length rpre = length pre ->
  Forall encodes good ->
  ~ encodes q ->
  for_loop (encode_body requests) (length pre) (length (good ++ q :: rest)) st =
    Stuck {| responses := pre ++ replicate (length good) fresh_slot ++
                          send_error oversize_error fresh_slot ::
                          replicate (length rest) fresh_slot;
             execute_request :=
               execute_request st ++ (wire_item <$> good) ++ [wire_item q];
             transmitted := transmitted st; exec_log := exec_log st;
             statistics := statistics st; released := released st;
             batch_statistics := batch_statistics st |}.
Proof.
  induction good as [|g good IH]; intros rpre pre st q rest Hreq Hresp Hlen Hall Hq.
  - cbn [app length] in *. cbn [for_loop]. unfold encode_body at 1.
    assert (Hrq : requests !! length pre = Some q).
    { rewrite Hreq, <- Hlen. by apply list_lookup_middle. }
    assert (Hs : responses st !! length pre = Some fresh_slot).
    { rewrite Hresp. by apply list_lookup_middle. }
    rewrite Hrq, Hs, (not_encodes q Hq). f_equal.
    unfold add_request, with_responses. cbn [responses execute_request transmitted
      exec_log statistics released batch_statistics replicate app fmap list_fmap].
    f_equal. rewrite Hresp. cbn [replicate].
    replace (length pre) with (length pre + 0)%nat by lia.
    by rewrite insert_app_r.
  - apply Forall_cons in Hall as [Hg Hall].
    cbn [app length] in *. cbn [for_loop]. unfold encode_body at 1.
    assert (Hrq : requests !! length pre = Some g).
    { rewrite Hreq, <- Hlen. by apply list_lookup_middle. }
    assert (Hs : responses st !! length pre = Some fresh_slot).
    { rewrite Hresp. by apply list_lookup_middle. }
    rewrite Hrq, Hs, (encodes_item g Hg).
    replace (S (length pre)) with (length (pre ++ [fresh_slot]))
      by (rewrite length_app; simpl; lia).
    rewrite (IH (rpre ++ [g]) (pre ++ [fresh_slot]) _ q rest).
    + cbn [responses execute_request transmitted exec_log statistics released
           batch_statistics add_request with_responses replicate fmap list_fmap].
      rewrite <- !app_assoc. done.
    + by rewrite <- app_assoc.
    + cbn [responses add_request with_responses]. rewrite Hresp. cbn [replicate].
      replace (length pre) with (length pre + 0)%nat by lia.
      rewrite insert_app_r. simpl. by rewrite <- app_assoc.
    + rewrite !length_app. simpl. lia.
    + done.
    + done.
Qed.

(** Either every request of a list is encoded to its end, or there is a first
    one that is not. *)
Lemma first_not_encoded (l : list TRITONBACKEND_Request) :
  Forall encodes l \/
  exists good q rest, l = good ++ q :: rest /\ Forall encodes good /\ ~ encodes q.
Proof.
  induction l as [|q l IH]; [by left|].
  destruct (encodes_dec q) as [Hq|Hq].
  - destruct IH as [IH|(good & q' & rest & -> & Hgood & Hq')].
    + left. by constructor.
    + right. exists (q :: good), q', rest. split; [done|]. split; [by constructor|done].
  - right. exists [], q, l. by split.
Qed.

Lemma encoded_slots_fresh (l : list TRITONBACKEND_Request) :
  Forall encodes l -> encoded_slot <$> l = replicate (length l) fresh_slot.
Proof.
  induction 1 as [|q l Hq _ IH]; [done|].
  cbn [fmap list_fmap length replicate]. by rewrite IH, (encodes_slot q Hq).
Qed.

(** When every request is encoded to its end the two first loops finish, in
    [encoded_state]. *)
Lemma encode_phase_closed :
  Forall encodes requests -> encode_phase requests = Next (encoded_state requests).
Proof.
  intros Hall. unfold encode_phase. rewrite new_response_loop by (simpl; lia). simpl.
  pose proof (encode_loop_done requests [] []
                (with_responses (replicate (length requests) fresh_slot) initial_state)
                eq_refl eq_refl eq_refl Hall) as Hloop.
  cbn [length app] in Hloop. rewrite Hloop. unfold encoded_state.
  by rewrite (encoded_slots_fresh _ Hall).
Qed.

(** Otherwise they stop at the first request that is not, before anything is
    handed to the channel. *)
Lemma encode_phase_stuck good q rest :
  requests = good ++ q :: rest ->
  Forall encodes good ->
  ~ encodes q ->
  encode_phase requests =
    Stuck {| responses := replicate (length good) fresh_slot ++
                          send_error oversize_error fresh_slot ::
                          replicate (length rest) fresh_slot;
             execute_request := (wire_item <$> good) ++ [wire_item q];
             transmitted := []; exec_log := []; statistics := []; released := [];
             batch_statistics := [] |}.
Proof.
  intros Hreq Hgood Hq. unfold encode_phase.
  rewrite new_response_loop by (simpl; lia). simpl.
  pose proof (encode_loop_stuck good [] []
                (with_responses (replicate (length requests) fresh_slot) initial_state)
                q rest Hreq) as Hloop.
  cbn [length app] in Hloop. rewrite Hreq at 2. rewrite Hloop; [done| |done|done|done].
  cbn [responses with_responses]. by rewrite Hreq.
Qed.

(** The transport-failure loop: every response that is still there is sent
    the shared error, the others are skipped. *)
Lemma fail_loop status : forall cur pre st,
  responses st = pre ++ cur ->
  for_loop (fail_body status) (length pre) (length cur) st =
    Next (with_responses (pre ++ (fail_slot status <$> cur)) st).
Proof.
  induction cur as [|s cur IH]; intros pre st Hresp; simpl.
  - rewrite app_nil_r in *. rewrite <- Hresp. by destruct st.
  - assert (Hs : responses st !! length pre = Some s).
    { rewrite Hresp. by apply list_lookup_middle. }
    unfold fail_body at 1. rewrite Hs. unfold fail_slot at 1.
    replace (S (length pre)) with (length (pre ++ [fail_slot status s]))
      by (rewrite length_app; simpl; lia).
    unfold fail_slot at 1.
    destruct (slot_ptr s) as [resp|] eqn:Hp; simpl.
    + rewrite (IH (pre ++ [send_error (transport_error status) s])).
      * simpl. by rewrite <- app_assoc.
      * simpl. rewrite Hresp.
        replace (length pre) with (length pre + 0)%nat by lia.
        rewrite insert_app_r. simpl. by rewrite <- app_assoc.
    + rewrite (IH (pre ++ [s])); [|by rewrite <- app_assoc].
      by rewrite <- app_assoc.
Qed.

Lemma release_failed_loop : forall todo r st,
  (r + todo <= length requests)%nat ->
  for_loop (release_failed_body requests) r todo st =
    Next {| responses := responses st; execute_request := execute_request st;
            transmitted := transmitted st; exec_log := exec_log st;
            statistics := statistics st ++ ((fun i => (i, false)) <$> seq r todo);
            released := released st ++ seq r todo;
            batch_statistics := batch_statistics st |}.
Proof.
  induction todo as [|todo IH]; intros r st Hle; simpl.
  - rewrite !app_nil_r. by destruct st.
  - destruct (lookup_lt_is_Some_2 requests r) as [q Hq]; [lia|].
    unfold release_failed_body at 1. rewrite Hq.
    rewrite IH by lia. simpl. rewrite <- !app_assoc. done.
Qed.

End Loops.

(** ** Decoding one item *)

Section Decoding.
Context `{TritonAPI}.
Variable r : nat.
Variable request : TRITONBACKEND_Request.
Variable inference_response : InferenceResponse.

(** The name search starts from a tensor of the response, so it finds one. *)
Lemma matched_some j t :
  resp_outputs inference_response !! j = Some t ->
  exists m, matched inference_response t = Some m /\ t_name m = t_name t /\
            m ∈ resp_outputs inference_response.
Proof.
  intros Hj. unfold matched.
  destruct (List.find (fun itr => bool_decide (t_name itr = t_name t))
              (resp_outputs inference_response)) as [m|] eqn:Hf.
  - exists m. apply find_some in Hf as [Hin Hb].
    apply bool_decide_eq_true in Hb. split; [done|]. split; [done|].
    by apply list_elem_of_In.
  - exfalso. apply list_elem_of_lookup_2, list_elem_of_In in Hj.
    pose proof (find_none _ _ Hf _ Hj) as Hb. simpl in Hb.
    by rewrite bool_decide_eq_true_2 in Hb.
Qed.

Lemma insert_snoc {A : Type} (l : list A) (x y : A) :
  <[length l := y]> (l ++ [x]) = l ++ [y].
Proof.
  replace (length l) with (length l + 0)%nat by lia. by rewrite insert_app_r.
Qed.

Lemma alter_snoc {A : Type} (f : A -> A) (l : list A) (x : A) :
  alter f (length l) (l ++ [x]) = l ++ [f x].
Proof.
  replace (length l) with (length l + 0)%nat by lia. by rewrite alter_app_r.
Qed.

(** One iteration of the output loop on a response that is still there. *)
Lemma output_step_live j s lg response t :
  slot_ptr s = Some response ->
  resp_outputs inference_response !! j = Some t ->
  output_step r request inference_response j s lg =
    match rq_allocator request (t_name t) (output_byte_size_of t) with
    | Err e =>
        ItemDone {| slot_ptr := None;
                    slot_sent := slot_sent s ++
                      [{| sent_error := Some e;
                          sent_outputs := response ++ [attached_output t] |}] |}
          (lg ++ ["request " +:+ pretty r +:+
                  ": failed to create output buffer in CPU memory."])
    | Ok memory_type =>
        if is_gpu memory_type then
          ItemDone {| slot_ptr := None;
                      slot_sent := slot_sent s ++
                        [{| sent_error := Some gpu_error;
                            sent_outputs :=
                              response ++ [allocated_output t memory_type []] |}] |}
            (lg ++ ["request " +:+ pretty r +:+
                    ": failed to create output buffer in CPU memory."])
        else
          match matched inference_response t with
          | Some m =>
              ItemDone {| slot_ptr :=
                            Some (response ++
                                  [allocated_output t memory_type (t_raw_data m)]);
                          slot_sent := slot_sent s |} lg
          | None =>
              ItemDone {| slot_ptr :=
                            Some (response ++ [allocated_output t memory_type []]);
                          slot_sent := slot_sent s |}
                (lg ++ ["can't find output tensor with name " +:+ t_name t])
          end
    end.
Proof.
  intros Hp Hj. destruct s as [p snt]. simpl in Hp. subst p.
  unfold output_step. rewrite Hj.
  unfold GUARDED_RESPOND_IF_ERROR, TRITONBACKEND_ResponseOutput,
    TRITONBACKEND_OutputBuffer.
  cbn [slot_ptr slot_sent default from_option]. unfold id.
  rewrite list_lookup_middle by done.
  cbn [attached_output out_name].
  fold (output_byte_size_of t).
  destruct (rq_allocator request (t_name t) (output_byte_size_of t))
    as [memory_type|e].
  - rewrite insert_snoc. cbn [slot_ptr slot_sent is_null orb].
    destruct (is_gpu memory_type) eqn:Hg.
    + done.
    + fold (matched inference_response t).
      destruct (matched inference_response t) as [m|]; [|done].
      unfold copy_to_output. cbn [slot_ptr slot_sent fmap option_fmap option_map].
      rewrite alter_snoc. done.
  - done.
Qed.

(** On a null response an iteration only logs. *)
Lemma output_step_null j s lg :
  slot_ptr s = None ->
  item_slot (output_step r request inference_response j s lg) = s.
Proof.
  intros Hp. destruct s as [p snt]. simpl in Hp. subst p. unfold output_step.
  by destruct (resp_outputs inference_response !! j) as [t|].
Qed.

Lemma output_loop_null : forall todo j s lg,
  slot_ptr s = None ->
  item_slot (output_loop r request inference_response j todo s lg) = s.
Proof.
  induction todo as [|todo IH]; intros j s lg Hp; simpl; [done|].
  pose proof (output_step_null j s lg Hp) as Hstep.
  destruct (output_step r request inference_response j s lg) as [s1 lg1|s1 lg1];
    simpl in Hstep; subst s1; [by apply IH|done].
Qed.

(** The output loop runs to its end when the worker sent a tensor at every
    position it visits. *)
Lemma output_loop_done : forall todo j s lg,
  (j + todo <= length (resp_outputs inference_response))%nat ->
  exists s' lg',
    output_loop r request inference_response j todo s lg = ItemDone s' lg'.
Proof.
  induction todo as [|todo IH]; intros j s lg Hle; simpl; [by eexists _, _|].
  destruct (lookup_lt_is_Some_2 (resp_outputs inference_response) j) as [t Ht]; [lia|].
  assert (Hstep : exists s1 lg1,
            output_step r request inference_response j s lg = ItemDone s1 lg1).
  { destruct (slot_ptr s) as [response|] eqn:Hp.
    - rewrite (output_step_live j s lg response t Hp Ht).
      destruct (rq_allocator request (t_name t) (output_byte_size_of t)) as [mt|e];
        [|by eexists _, _].
      destruct (is_gpu mt); [by eexists _, _|].
      destruct (matched inference_response t); by eexists _, _.
    - destruct s as [p snt]. simpl in Hp. subst p.
      unfold output_step. rewrite Ht. by eexists _, _. }
  destruct Hstep as (s1 & lg1 & ->). apply IH. lia.
Qed.


Lemma delivered_sized t o :
  delivered_output request inference_response t = Some o ->
  out_name o = t_name t /\
  forall b, out_buffer o = Some b -> buf_byte_size b = output_byte_size_of t.
Proof.
  unfold delivered_output.
  destruct (rq_allocator request (t_name t) (output_byte_size_of t)) as [mt|e]; [|done].
  destruct (matched inference_response t) as [m|]; [|done].
  destruct (is_gpu mt); [done|]. intros [= <-]. split; [done|].
  by intros b [= <-].
Qed.

Lemma all_delivered_sized response :
  all_delivered request inference_response response ->
  buffers_sized inference_response response.
Proof.
  intros Hall k o Hk. destruct (Hall k o Hk) as (t & Ht & Hd).
  exists t. split; [done|]. by apply delivered_sized.
Qed.

Lemma buffers_sized_snoc response t o :
  buffers_sized inference_response response ->
  resp_outputs inference_response !! length response = Some t ->
  out_name o = t_name t ->
  (forall b, out_buffer o = Some b -> buf_byte_size b = output_byte_size_of t) ->
  buffers_sized inference_response (response ++ [o]).
Proof.
  intros Hs Ht Hn Hb k o' Hk.
  apply lookup_snoc_Some in Hk as [[Hlt Hk]|[-> ->]]; [by apply Hs|].
  by exists t.
Qed.

Lemma all_delivered_snoc response t o :
  all_delivered request inference_response response ->
  resp_outputs inference_response !! length response = Some t ->
  delivered_output request inference_response t = Some o ->
  all_delivered request inference_response (response ++ [o]).
Proof.
  intros Hs Ht Hd k o' Hk.
  apply lookup_snoc_Some in Hk as [[Hlt Hk]|[-> ->]]; [by apply Hs|].
  by exists t.
Qed.

(** An iteration that completes takes the invariant one position on. *)
Lemma output_step_inv j s lg s' lg' :
  output_step r request inference_response j s lg = ItemDone s' lg' ->
  slot_inv request inference_response j s ->
  slot_inv request inference_response (S j) s'.
Proof.
  intros Hstep [Hlive Hsent].
  destruct (slot_ptr s) as [response|] eqn:Hp.
  - destruct (Hlive response eq_refl) as [Hlen Hall].
    destruct (resp_outputs inference_response !! j) as [t|] eqn:Ht.
    2:{ unfold output_step in Hstep. by rewrite Ht in Hstep. }
    rewrite (output_step_live j s lg response t Hp Ht) in Hstep.
    assert (Ht' : resp_outputs inference_response !! length response = Some t)
      by (by rewrite Hlen).
    pose proof (all_delivered_sized _ Hall) as Hsized.
    unfold delivered_output in *.
    destruct (rq_allocator request (t_name t) (output_byte_size_of t))
      as [mt|e] eqn:Ha.
    + destruct (is_gpu mt) eqn:Hg.
      * injection Hstep as <- <-. split; [done|]. cbn [slot_sent].
        intros x Hx. apply elem_of_app in Hx as [Hx|Hx]; [by apply Hsent|].
        apply list_elem_of_singleton in Hx as ->. split; [done|].
        apply buffers_sized_snoc with (t := t); try done.
        by intros b [= <-].
      * destruct (matched_some j t Ht) as (m & Hm & _).
        rewrite Hm in Hstep. injection Hstep as <- <-. split; [|done].
        intros response' [= <-]. split; [rewrite length_app; simpl; lia|].
        apply all_delivered_snoc with (t := t); try done.
        unfold delivered_output. by rewrite Ha, Hm, Hg.
    + injection Hstep as <- <-. split; [done|]. cbn [slot_sent].
      intros x Hx. apply elem_of_app in Hx as [Hx|Hx]; [by apply Hsent|].
      apply list_elem_of_singleton in Hx as ->. split; [done|].
      apply buffers_sized_snoc with (t := t); try done.
  - pose proof (output_step_null j s lg Hp) as Hs.
    rewrite Hstep in Hs. simpl in Hs. subst s'.
    split; [|done]. intros response Hr. by rewrite Hp in Hr.
Qed.

Lemma output_loop_inv : forall todo j s lg s' lg',
  output_loop r request inference_response j todo s lg = ItemDone s' lg' ->
  slot_inv request inference_response j s ->
  slot_inv request inference_response (j + todo) s'.
Proof.
  induction todo as [|todo IH]; intros j s lg s' lg' Hloop Hinv; simpl in Hloop.
  - injection Hloop as <- <-. by rewrite Nat.add_0_r.
  - destruct (output_step r request inference_response j s lg) as [s1 lg1|s1 lg1] eqn:Hs;
      [|done].
    replace (j + S todo)%nat with (S j + todo)%nat by lia.
    eapply IH; [done|]. by eapply output_step_inv.
Qed.

Lemma slot_inv_fresh : slot_inv request inference_response 0 fresh_slot.
Proof.
  split.
  - intros response [= <-]. split; [done|]. by intros k o Hk.
  - intros x Hx. by apply elem_of_nil in Hx.
Qed.

(** Decoding an item, from either of the slots encoding can leave. *)
Lemma decode_item_decoded s lg s' lg' :
  decode_item r request inference_response s lg = ItemDone s' lg' ->
  s = fresh_slot \/ s = send_error oversize_error fresh_slot ->
  slot_decoded request inference_response s'.
Proof.
  intros Hdec Hs. unfold decode_item in Hdec.
  destruct (resp_failed inference_response).
  - destruct Hs as [-> | ->]; [|done]. injection Hdec as <- <-.
    intros x Hx. apply list_elem_of_singleton in Hx as ->.
    split; [by intros k o Hk|done].
  - destruct Hs as [-> | ->].
    + unfold TRITONBACKEND_RequestOutputCount in Hdec.
      rewrite GUARDED_pure_ok in Hdec by done.
      destruct (output_loop r request inference_response 0
                  (id (length (rq_outputs request))) fresh_slot lg)
        as [s2 lg2|s2 lg2] eqn:Hloop; [|done].
      apply output_loop_inv in Hloop; [|apply slot_inv_fresh].
      destruct Hloop as [Hlive Hsent].
      destruct (slot_ptr s2) as [response|] eqn:Hp.
      * injection Hdec as <- <-. cbn [slot_sent]. intros x Hx.
        destruct (Hlive response eq_refl) as [_ Hall].
        apply elem_of_app in Hx as [Hx|Hx].
        -- destruct (Hsent x Hx) as [He Hsz]. split; [done|]. by intros Hn.
        -- apply list_elem_of_singleton in Hx as ->.
           split; [by apply all_delivered_sized|done].
      * injection Hdec as <- <-. intros x Hx.
        destruct (Hsent x Hx) as [He Hsz]. split; [done|]. by intros Hn.
    + rewrite GUARDED_null in Hdec by done. simpl in Hdec.
      injection Hdec as <- <-. intros x Hx.
      apply list_elem_of_singleton in Hx as ->.
      split; [by intros k o Hk|done].
Qed.

(** Decoding runs to its end on every item that [item_defined] accepts, when
    the response is still there. *)
Lemma decode_item_done lg :
  item_defined request inference_response = true ->
  exists s' lg',
    decode_item r request inference_response fresh_slot lg = ItemDone s' lg'.
Proof.
  unfold item_defined, decode_item. intros Hdef.
  destruct (resp_failed inference_response); [by eexists _, _|].
  simpl in Hdef. apply Nat.leb_le in Hdef.
  unfold TRITONBACKEND_RequestOutputCount.
  rewrite GUARDED_pure_ok by done. unfold id.
  destruct (output_loop_done (length (rq_outputs request)) 0 fresh_slot lg)
    as (s2 & lg2 & ->); [lia|].
  destruct (slot_ptr s2); by eexists _, _.
Qed.

(** Past the worker's outputs the loop stops. *)
Lemma output_loop_short : forall todo j s lg,
  (j <= length (resp_outputs inference_response) < j + todo)%nat ->
  exists s' lg', output_loop r request inference_response j todo s lg = ItemUndef s' lg'.
Proof.
  induction todo as [|todo IH]; intros j s lg Hlt; [lia|]. simpl.
  destruct (output_step r request inference_response j s lg) as [s1 lg1|s1 lg1] eqn:Hstep;
    [|by eexists _, _].
  apply IH.
  destruct (resp_outputs inference_response !! j) as [t|] eqn:Ht.
  - apply lookup_lt_Some in Ht. lia.
  - unfold output_step in Hstep. by rewrite Ht in Hstep.
Qed.

(** So decoding runs to its end on no other item. *)
Lemma decode_item_defined lg s' lg' :
  decode_item r request inference_response fresh_slot lg = ItemDone s' lg' ->
  item_defined request inference_response = true.
Proof.
  intros Hdec. unfold item_defined. unfold decode_item in Hdec.
  destruct (resp_failed inference_response); [done|]. cbn [orb].
  unfold TRITONBACKEND_RequestOutputCount in Hdec.
  rewrite GUARDED_pure_ok in Hdec by done. unfold id in Hdec.
  apply Nat.leb_le.
  destruct (decide (length (rq_outputs request)
                    <= length (resp_outputs inference_response))%nat) as [|Hgt]; [done|].
  destruct (output_loop_short (length (rq_outputs request)) 0 fresh_slot lg)
    as (s2 & lg2 & Hundef); [lia|].
  by rewrite Hundef in Hdec.
Qed.

Lemma output_step_once j s lg s' lg' :
  output_step r request inference_response j s lg = ItemDone s' lg' ->
  answered_at_most_once s -> answered_at_most_once s'.
Proof.
  intros Hstep [[Hp Hsent]|[Hp Hx]].
  - destruct (slot_ptr s) as [response|] eqn:Hs; [|done].
    destruct (resp_outputs inference_response !! j) as [t|] eqn:Ht;
      [|unfold output_step in Hstep; by rewrite Ht in Hstep].
    rewrite (output_step_live j s lg response t Hs Ht) in Hstep.
    destruct (rq_allocator request (t_name t) (output_byte_size_of t)) as [mt|e].
    + destruct (is_gpu mt).
      * injection Hstep as <- _. right. split; [done|].
        eexists. rewrite Hsent. split; [reflexivity|done].
      * destruct (matched inference_response t); injection Hstep as <- _;
          left; by split.
    + injection Hstep as <- _. right. split; [done|].
      eexists. rewrite Hsent. split; [reflexivity|done].
  - pose proof (output_step_null j s lg Hp) as Hnull.
    rewrite Hstep in Hnull. simpl in Hnull. subst s'. right. by split.
Qed.

Lemma output_loop_once : forall todo j s lg s' lg',
  output_loop r request inference_response j todo s lg = ItemDone s' lg' ->
  answered_at_most_once s -> answered_at_most_once s'.
Proof.
  induction todo as [|todo IH]; intros j s lg s' lg' Hloop Hs; simpl in Hloop.
  - by injection Hloop as <- _.
  - destruct (output_step r request inference_response j s lg) as [s1 lg1|s1 lg1] eqn:Hstep;
      [|done].
    eapply IH; [exact Hloop|]. eapply output_step_once; [exact Hstep|exact Hs].
Qed.

(** An item that was decoded to its end was answered exactly once, and its
    response is still there exactly when that answer carries no error. *)
Lemma decode_item_once s lg s' lg' :
  decode_item r request inference_response s lg = ItemDone s' lg' ->
  s = fresh_slot \/ s = send_error oversize_error fresh_slot ->
  exists x, slot_sent s' = [x] /\
            negb (is_null (slot_ptr s')) = is_null (sent_error x).
Proof.
  intros Hdec Hs. unfold decode_item in Hdec.
  destruct (resp_failed inference_response).
  - destruct Hs as [-> | ->]; simpl in Hdec; [|done].
    injection Hdec as <- _. by eexists.
  - assert (Honce : answered_at_most_once s).
    { destruct Hs as [-> | ->]; [left; by split|right].
      split; [done|]. by eexists. }
    destruct (GUARDED_RESPOND_IF_ERROR
                (pure_call id (TRITONBACKEND_RequestOutputCount request)) 0%nat s)
      as [s1 n] eqn:Hg.
    assert (Hs1 : s1 = s).
    { destruct Hs as [-> | ->]; unfold TRITONBACKEND_RequestOutputCount in Hg.
      - rewrite GUARDED_pure_ok in Hg by done. by injection Hg as <- _.
      - rewrite GUARDED_null in Hg by done. by injection Hg as <- _. }
    subst s1.
    destruct (output_loop r request inference_response 0 n s lg) as [s2 lg2|s2 lg2] eqn:Hloop;
      [|done].
    pose proof (output_loop_once _ _ _ _ _ _ Hloop Honce) as [[Hp Hsent]|[Hp (x & Hx & He)]].
    + destruct (slot_ptr s2) as [response|] eqn:Hs2; [|done].
      injection Hdec as <- _. cbn [slot_ptr slot_sent]. rewrite Hsent.
      by eexists.
    + rewrite Hp in Hdec. injection Hdec as <- _. exists x. rewrite Hp.
      split; [done|]. destruct (sent_error x); done.
Qed.

(** What decoding the worker's item leaves in the slot of a request whose
    response is still there is derived from that item. *)
Lemma decode_item_derived lg s' lg' :
  decode_item r request inference_response fresh_slot lg = ItemDone s' lg' ->
  derived_from request inference_response s'.
Proof.
  intros Hdec. unfold derived_from. unfold decode_item in Hdec.
  destruct (resp_failed inference_response).
  - injection Hdec as <- _. eexists. split; [reflexivity|]. by split.
  - unfold TRITONBACKEND_RequestOutputCount in Hdec.
    rewrite GUARDED_pure_ok in Hdec by done. unfold id in Hdec.
    destruct (output_loop r request inference_response 0
                (length (rq_outputs request)) fresh_slot lg)
      as [s2 lg2|s2 lg2] eqn:Hloop; [|done].
    assert (Hfresh : answered_at_most_once fresh_slot) by (left; by split).
    pose proof (output_loop_once _ _ _ _ _ _ Hloop Hfresh) as Honce.
    apply output_loop_inv in Hloop; [|apply slot_inv_fresh].
    destruct Hloop as [Hlive Hsent].
    destruct Honce as [[Hp Hnone]|[Hp (x & Hx & He)]].
    + destruct (slot_ptr s2) as [response|] eqn:Hs2; [|done].
      destruct (Hlive response eq_refl) as [Hlen Hall].
      injection Hdec as <- _. cbn [slot_ptr slot_sent]. rewrite Hnone.
      eexists. split; [reflexivity|]. cbn [sent_outputs sent_error].
      split; [by apply all_delivered_sized|]. split; [done|]. by split.
    + rewrite Hp in Hdec. injection Hdec as <- _.
      exists x. split; [done|].
      destruct (Hsent x) as [_ Hsz]; [rewrite Hx; apply list_elem_of_here|].
      split; [done|]. by destruct (sent_error x).
Qed.

(** The output loop when the buffer of the output at offset [k] is the first
    to come from GPU memory: the item is answered with the GPU error, carrying
    the [k + 1] outputs attached so far, and its response is dropped. *)
Lemma output_loop_gpu : forall k todo j s lg response t s' lg',
  slot_ptr s = Some response ->
  (k < todo)%nat ->
  (forall k', (k' < k)%nat ->
     exists t' mt, resp_outputs inference_response !! (j + k')%nat = Some t' /\
       rq_allocator request (t_name t') (output_byte_size_of t') = Ok mt /\
       is_gpu mt = false) ->
  resp_outputs inference_response !! (j + k)%nat = Some t ->
  rq_allocator request (t_name t) (output_byte_size_of t) = Ok TRITONSERVER_MEMORY_GPU ->
  output_loop r request inference_response j todo s lg = ItemDone s' lg' ->
  slot_ptr s' = None /\
  exists outs,
    slot_sent s' = slot_sent s ++ [{| sent_error := Some gpu_error;
                                      sent_outputs := outs |}] /\
    length outs = (length response + k + 1)%nat.
Proof.
  induction k as [|k IH]; intros todo j s lg response t s' lg' Hp Hk Hbefore Ht Ha Hloop;
    (destruct todo as [|todo]; [lia|]); simpl in Hloop.
  - rewrite Nat.add_0_r in Ht.
    rewrite (output_step_live j s lg response t Hp Ht), Ha in Hloop. cbn [is_gpu] in Hloop.
    match type of Hloop with
    | output_loop _ _ _ _ _ ?s1 ?lg1 = _ =>
        pose proof (output_loop_null todo (S j) s1 lg1 eq_refl) as Hnull
    end.
    rewrite Hloop in Hnull. simpl in Hnull. subst s'.
    split; [done|]. eexists. split; [done|].
    rewrite length_app. simpl. lia.
  - destruct (Hbefore 0%nat) as (t0 & mt & Ht0 & Ha0 & Hg0); [lia|].
    rewrite Nat.add_0_r in Ht0.
    rewrite (output_step_live j s lg response t0 Hp Ht0), Ha0, Hg0 in Hloop.
    destruct (matched_some j t0 Ht0) as (m & Hm & _). rewrite Hm in Hloop.
    destruct (IH todo (S j)
                {| slot_ptr := Some (response ++
                                     [allocated_output t0 mt (t_raw_data m)]);
                   slot_sent := slot_sent s |}
                lg (response ++ [allocated_output t0 mt (t_raw_data m)]) t s' lg'
                eq_refl) as (Hnull & outs & Hsent & Hlen).
    + lia.
    + intros k' Hk'. replace (S j + k')%nat with (j + S k')%nat by lia.
      apply Hbefore. lia.
    + replace (S j + k)%nat with (j + S k)%nat by lia. done.
    + done.
    + done.
    + split; [done|]. exists outs. split; [done|].
      rewrite Hlen, length_app. simpl. lia.
Qed.

End Decoding.

(** ** The call as a whole *)

Section Call.
Context `{TritonAPI}.
Variable instance_name : string.
Variable stub_Execute : list InferenceRequest -> grpc_Status * list InferenceResponse.
Variable requests : list TRITONBACKEND_Request.

(** The decoding loop, when it runs to its end: the slots outside its range
    are untouched, and each slot in range holds what decoding the worker's
    response item of the same index gave. *)
Lemma decode_loop_next execute_response : forall todo r st st',
  for_loop (decode_body requests execute_response) r todo st = Next st' ->
  length (responses st') = length (responses st) /\
  transmitted st' = transmitted st /\
  execute_request st' = execute_request st /\
  statistics st' = statistics st /\
  (forall i, (i < r \/ r + todo <= i)%nat -> responses st' !! i = responses st !! i) /\
  (forall i, (r <= i < r + todo)%nat ->
     exists q s ir s' lg lg',
       requests !! i = Some q /\ responses st !! i = Some s /\
       execute_response !! i = Some ir /\
       decode_item i q ir s lg = ItemDone s' lg' /\
       responses st' !! i = Some s').
Proof.
  induction todo as [|todo IH]; intros r st st' Hloop; simpl in Hloop.
  - injection Hloop as <-. repeat split; try done. intros i Hi. lia.
  - destruct (decode_body requests execute_response r st) as [st1|e st1|st1] eqn:Hb;
      try done.
    unfold decode_body in Hb.
    destruct (requests !! r) as [q|] eqn:Hq; [|done].
    destruct (responses st !! r) as [s|] eqn:Hs; [|done].
    destruct (execute_response !! r) as [ir|] eqn:Hir; [|done].
    destruct (decode_item r q ir s (exec_log st)) as [s1 lg1|s1 lg1] eqn:Hd; [|done].
    injection Hb as <-.
    destruct (IH _ _ _ Hloop) as (Hlen & Htx & Hreq & Hst & Hout & Hin).
    cbn [responses with_log with_responses transmitted execute_request statistics]
      in Hlen, Htx, Hreq, Hst, Hout, Hin.
    rewrite length_insert in Hlen.
    split; [done|]. split; [done|]. split; [done|]. split; [done|]. split.
    + intros i Hi. rewrite Hout by lia. apply list_lookup_insert_ne. lia.
    + intros i Hi. destruct (decide (i = r)) as [->|Hne].
      * exists q, s, ir, s1, (exec_log st), lg1.
        repeat split; try done.
        rewrite Hout by lia. apply list_lookup_insert_eq.
        by eapply lookup_lt_Some.
      * destruct (Hin i) as (q' & s' & ir' & s'' & lg & lg' & H1 & H2 & H3 & H4 & H5);
          [lia|].
        rewrite list_lookup_insert_ne in H2 by lia.
        by exists q', s', ir', s'', lg, lg'.
Qed.

(** It runs to its end when every item decodes to the end. *)
Lemma decode_loop_total execute_response : forall todo r st,
  (r + todo <= length requests)%nat ->
  (r + todo <= length (responses st))%nat ->
  (forall i q s, (r <= i < r + todo)%nat ->
     requests !! i = Some q -> responses st !! i = Some s ->
     exists ir, execute_response !! i = Some ir /\
       forall lg, exists s' lg', decode_item i q ir s lg = ItemDone s' lg') ->
  exists st', for_loop (decode_body requests execute_response) r todo st = Next st'.
Proof.
  induction todo as [|todo IH]; intros r st Hreq Hresp Hitems; simpl; [by eexists|].
  destruct (lookup_lt_is_Some_2 requests r) as [q Hq]; [lia|].
  destruct (lookup_lt_is_Some_2 (responses st) r) as [s Hs]; [lia|].
  destruct (Hitems r q s) as (ir & Hir & Hdec); [lia|done|done|].
  destruct (Hdec (exec_log st)) as (s1 & lg1 & Hd).
  unfold decode_body at 1. rewrite Hq, Hs, Hir, Hd.
  apply IH.
  - lia.
  - cbn [responses with_log with_responses]. rewrite length_insert. lia.
  - intros i q' s' Hi Hq' Hs'. cbn [responses with_log with_responses] in Hs'.
    rewrite list_lookup_insert_ne in Hs' by lia. by apply Hitems; [lia|..].
Qed.

(** The last loop reports each request with whether its response is still
    there, and leaves the responses alone. *)
Lemma release_loop : forall todo r st,
  (r + todo <= length requests)%nat ->
  (r + todo <= length (responses st))%nat ->
  exists st',
    for_loop (release_body requests) r todo st = Next st' /\
    responses st' = responses st /\ transmitted st' = transmitted st /\
    execute_request st' = execute_request st /\ exec_log st' = exec_log st /\
    batch_statistics st' = batch_statistics st /\
    forall i s, (r <= i < r + todo)%nat -> responses st !! i = Some s ->
      (i, negb (is_null (slot_ptr s))) ∈ statistics st'.
Proof.
  induction todo as [|todo IH]; intros r st Hreq Hresp; simpl.
  - exists st. repeat split; try done. intros i s Hi. lia.
  - destruct (lookup_lt_is_Some_2 requests r) as [q Hq]; [lia|].
    destruct (lookup_lt_is_Some_2 (responses st) r) as [s Hs]; [lia|].
    unfold release_body at 1. rewrite Hq, Hs.
    destruct (IH (S r) (report_and_release r (negb (is_null (slot_ptr s))) st))
      as (st' & Hloop & H1 & H2 & H3 & H4 & H5 & H6); [lia|simpl; lia|].
    exists st'. split; [done|]. repeat split; try done.
    intros i s' Hi Hs'. destruct (decide (i = r)) as [->|Hne].
    + assert (s' = s) as -> by congruence.
      assert (Hmono : forall todo' r' st0 st1,
                for_loop (release_body requests) r' todo' st0 = Next st1 ->
                forall x, x ∈ statistics st0 -> x ∈ statistics st1).
      { clear. induction todo' as [|todo' IH']; intros r' st0 st1 Hl x Hx; simpl in Hl.
        - by injection Hl as <-.
        - unfold release_body at 1 in Hl.
          destruct (requests !! r'); [|done]. destruct (responses st0 !! r'); [|done].
          eapply IH'; [done|]. simpl. apply elem_of_app. by left. }
      eapply Hmono; [done|]. simpl. apply elem_of_app. right.
      apply list_elem_of_singleton. done.
    + apply H6; [lia|done].
Qed.

(** The run when a request is not encoded to its end: it stops in the
    encoding loop, before the round trip. *)
Lemma Execute_when_not_encoded good q rest :
  requests = good ++ q :: rest ->
  Forall encodes good ->
  ~ encodes q ->
  TRITONBACKEND_ModelInstanceExecute instance_name stub_Execute requests =
    Undef {| responses := replicate (length good) fresh_slot ++
                          send_error oversize_error fresh_slot ::
                          replicate (length rest) fresh_slot;
             execute_request := (wire_item <$> good) ++ [wire_item q];
             transmitted := []; exec_log := []; statistics := []; released := [];
             batch_statistics := [] |}.
Proof.
  intros Hreq Hgood Hq. unfold TRITONBACKEND_ModelInstanceExecute.
  by rewrite (encode_phase_stuck requests good q rest Hreq Hgood Hq).
Qed.

(** A run that completes encoded every request to its end. *)
Lemma Execute_completed_encodes ret st :
  TRITONBACKEND_ModelInstanceExecute instance_name stub_Execute requests =
    Completed ret st ->
  Forall encodes requests.
Proof.
  intros Hrun.
  destruct (first_not_encoded requests) as [|(good & q & rest & Hreq & Hgood & Hq)];
    [done|].
  by rewrite (Execute_when_not_encoded good q rest Hreq Hgood Hq) in Hrun.
Qed.

(** The run when the round trip fails, in closed form. *)
Lemma Execute_when_transport_fails status execute_response :
  Forall encodes requests ->
  stub_Execute (wire_item <$> requests) = (status, execute_response) ->
  status_ok status = false ->
  TRITONBACKEND_ModelInstanceExecute instance_name stub_Execute requests =
    Completed None
      {| responses := replicate (length requests)
                        (send_error (transport_error status) fresh_slot);
         execute_request := wire_item <$> requests;
         transmitted := [wire_item <$> requests];
         exec_log := [];
         statistics := (fun i => (i, false)) <$> seq 0 (length requests);
         released := seq 0 (length requests);
         batch_statistics := [] |}.
Proof.
  intros Henc Hstub Hfail. unfold TRITONBACKEND_ModelInstanceExecute.
  rewrite (encode_phase_closed requests Henc). cbn [execute_request encoded_state].
  rewrite Hstub, Hfail. cbn [negb].
  pose proof (fail_loop status (encoded_slot <$> requests) []
                (transmit (encoded_state requests)) eq_refl) as Hloop.
  rewrite length_fmap in Hloop. cbn [length app] in Hloop. rewrite Hloop.
  rewrite release_failed_loop by (simpl; lia).
  cbn [responses with_responses transmit encoded_state execute_request transmitted
       exec_log statistics released batch_statistics app run_of].
  f_equal. f_equal.
  transitivity (fail_slot status <$> replicate (length requests) fresh_slot).
  - f_equal. exact (encoded_slots_fresh _ Henc).
  - by rewrite fmap_replicate.
Qed.

Lemma for_loop_no_return (body : nat -> ExecState -> Step) :
  (forall r st e st', body r st <> Return e st') ->
  forall todo r st e st', for_loop body r todo st <> Return e st'.
Proof.
  intros Hbody. induction todo as [|todo IH]; intros r st e st'; simpl; [done|].
  destruct (body r st) as [st1|e1 st1|st1] eqn:Hb; [apply IH| |done].
  by apply Hbody in Hb.
Qed.

Lemma decode_body_no_return execute_response r st e st' :
  decode_body requests execute_response r st <> Return e st'.
Proof.
  unfold decode_body. destruct (requests !! r); [|done].
  destruct (responses st !! r); [|done]. destruct (execute_response !! r); [|done].
  by destruct (decode_item _ _ _ _ _).
Qed.

Lemma release_body_no_return r st e st' :
  release_body requests r st <> Return e st'.
Proof.
  unfold release_body. destruct (requests !! r); [|done].
  by destruct (responses st !! r).
Qed.

(** The run when the round trip succeeds, by its two last loops. *)
Lemma Execute_when_transport_succeeds status execute_response :
  Forall encodes requests ->
  stub_Execute (wire_item <$> requests) = (status, execute_response) ->
  status_ok status = true ->
  TRITONBACKEND_ModelInstanceExecute instance_name stub_Execute requests =
    match for_loop (decode_body requests execute_response) 0 (length requests)
            (transmit (encoded_state requests)) with
    | Next st3 =>
        match for_loop (release_body requests) 0 (length requests) st3 with
        | Next st4 =>
            let st5 := report_batch 1 st4 in
            Completed None
              (with_log
                 (exec_log st5 ++
                  ["TRITONBACKEND_ModelInstanceExecute: model instance name " +:+
                   instance_name +:+ " released " +:+ pretty (length requests) +:+
                   " requests"]) st5)
        | stop => run_of stop
        end
    | stop => run_of stop
    end.
Proof.
  intros Henc Hstub Hok. unfold TRITONBACKEND_ModelInstanceExecute.
  rewrite (encode_phase_closed requests Henc). cbn [execute_request encoded_state].
  rewrite Hstub, Hok. done.
Qed.

(** A completed run after a successful round trip: one slot per request, slot
    [i] being what decoding response item [i] against request [i] gave, and
    request [i] reported with whether its response is still there. *)
Lemma Execute_completed_items status execute_response ret st :
  stub_Execute (wire_item <$> requests) = (status, execute_response) ->
  status_ok status = true ->
  TRITONBACKEND_ModelInstanceExecute instance_name stub_Execute requests =
    Completed ret st ->
  ret = None /\
  length (responses st) = length requests /\
  transmitted st = [wire_item <$> requests] /\
  forall i q, requests !! i = Some q ->
    exists ir s' lg lg',
      execute_response !! i = Some ir /\
      decode_item i q ir (encoded_slot q) lg = ItemDone s' lg' /\
      responses st !! i = Some s' /\
      (i, negb (is_null (slot_ptr s'))) ∈ statistics st.
Proof.
  intros Hstub Hok Hrun. pose proof (Execute_completed_encodes _ _ Hrun) as Henc.
  revert Hrun. rewrite (Execute_when_transport_succeeds _ _ Henc Hstub Hok).
  destruct (for_loop (decode_body requests execute_response) 0 (length requests)
              (transmit (encoded_state requests))) as [st3|e st3|st3] eqn:Hdec.
  2:{ by apply for_loop_no_return in Hdec; [|apply decode_body_no_return]. }
  2:{ done. }
  destruct (decode_loop_next _ _ _ _ _ Hdec) as (Hlen & Htx & _ & _ & _ & Hin).
  cbn [responses transmit encoded_state transmitted execute_request] in Hlen, Htx, Hin.
  rewrite length_fmap in Hlen.
  destruct (release_loop (length requests) 0 st3) as
    (st4 & Hrel & Hr1 & Hr2 & _ & _ & _ & Hstats); [lia|lia|].
  rewrite Hrel. cbn zeta. intros [= <- <-].
  cbn [responses with_log report_batch transmitted statistics].
  rewrite Hr1, Hr2. split; [done|]. split; [done|]. split; [done|].
  intros i q Hq.
  destruct (Hin i) as (q' & s & ir & s' & lg & lg' & H1 & H2 & H3 & H4 & H5).
  { apply lookup_lt_Some in Hq. lia. }
  rewrite Hq in H1. injection H1 as <-.
  rewrite list_lookup_fmap, Hq in H2. injection H2 as <-.
  exists ir, s', lg, lg'. repeat split; try done.
  apply Hstats; [|done]. apply lookup_lt_Some in Hq. lia.
Qed.

(** What a completed run after a successful round trip leaves for each
    request is derived from the worker's response item of the same index. *)
Lemma Execute_completed_derived status execute_response ret st :
  stub_Execute (wire_item <$> requests) = (status, execute_response) ->
  status_ok status = true ->
  TRITONBACKEND_ModelInstanceExecute instance_name stub_Execute requests =
    Completed ret st ->
  forall i q, requests !! i = Some q ->
    exists ir s,
      execute_response !! i = Some ir /\
      responses st !! i = Some s /\
      derived_from q ir s /\
      item_defined q ir = true.
Proof.
  intros Hstub Hok Hrun i q Hq.
  pose proof (Execute_completed_encodes _ _ Hrun) as Henc.
  destruct (Execute_completed_items _ _ _ _ Hstub Hok Hrun) as (_ & _ & _ & Hitems).
  destruct (Hitems i q Hq) as (ir & s & lg & lg' & Hir & Hdec & Hs & _).
  rewrite Forall_forall in Henc.
  rewrite (encodes_slot q) in Hdec
    by (apply Henc; by eapply list_elem_of_lookup_2).
  exists ir, s. split; [done|]. split; [done|].
  split; [by eapply decode_item_derived|by eapply decode_item_defined].
Qed.

(** The run completes when every request is encoded to its end and the
    worker answered every request with an item that decodes to the end. *)
Lemma Execute_completes status execute_response :
  Forall encodes requests ->
  stub_Execute (wire_item <$> requests) = (status, execute_response) ->
  status_ok status = true ->
  (forall i q, requests !! i = Some q ->
     exists ir, execute_response !! i = Some ir /\ item_defined q ir = true) ->
  exists st,
    TRITONBACKEND_ModelInstanceExecute instance_name stub_Execute requests =
      Completed None st.
Proof.
  intros Henc Hstub Hok Hitems.
  rewrite (Execute_when_transport_succeeds _ _ Henc Hstub Hok).
  destruct (decode_loop_total execute_response (length requests) 0
              (transmit (encoded_state requests))) as [st3 Hdec].
  - lia.
  - simpl. rewrite length_fmap. lia.
  - intros i q s _ Hq Hs. simpl in Hs. rewrite list_lookup_fmap, Hq in Hs.
    injection Hs as <-. destruct (Hitems i q Hq) as (ir & Hir & Hdef).
    exists ir. split; [done|]. intros lg.
    rewrite Forall_forall in Henc.
    rewrite (encodes_slot q) by (apply Henc; by eapply list_elem_of_lookup_2).
    by apply decode_item_done.
  - rewrite Hdec.
    destruct (decode_loop_next _ _ _ _ _ Hdec) as (Hlen & _).
    simpl in Hlen. rewrite length_fmap in Hlen.
    destruct (release_loop (length requests) 0 st3) as (st4 & Hrel & _); [lia|lia|].
    rewrite Hrel. by eexists.
Qed.

(** When every request is encoded to its end, one batch is handed to the
    channel however the run ends: the encoded one, with an item per
    request. *)
Lemma Execute_transmitted :
  Forall encodes requests ->
  transmitted (last_state
    (TRITONBACKEND_ModelInstanceExecute instance_name stub_Execute requests))
  = [wire_item <$> requests].
Proof.
  intros Henc.
  destruct (stub_Execute (wire_item <$> requests)) as [status execute_response] eqn:Hstub.
  destruct (status_ok status) eqn:Hok.
  2:{ by rewrite (Execute_when_transport_fails _ _ Henc Hstub Hok). }
  rewrite (Execute_when_transport_succeeds _ _ Henc Hstub Hok).
  set (P := fun st : ExecState => transmitted st = [wire_item <$> requests]).
  assert (Hdec : P (step_state (for_loop (decode_body requests execute_response) 0
                                  (length requests) (transmit (encoded_state requests))))).
  { apply for_loop_invariant; [|done].
    intros r st HP. unfold decode_body.
    destruct (requests !! r); [|done]. destruct (responses st !! r); [|done].
    destruct (execute_response !! r); [|done].
    by destruct (decode_item _ _ _ _ _). }
  destruct (for_loop (decode_body requests execute_response) 0 (length requests)
              (transmit (encoded_state requests))) as [st3|e st3|st3]; try done.
  simpl in Hdec.
  assert (Hrel : P (step_state (for_loop (release_body requests) 0
                                  (length requests) st3))).
  { apply for_loop_invariant; [|done].
    intros r st HP. unfold release_body.
    destruct (requests !! r); [|done]. by destruct (responses st !! r). }
  by destruct (for_loop (release_body requests) 0 (length requests) st3).
Qed.

End Call.

(** C7. If the round trip fails at the transport level, then for every batch
    size every item of the batch is answered once, with one and the same
    transport-error message, built from the status of the round trip; no item
    receives an output, no item succeeds, every request is reported as
    failed, and the call returns without error. This holds of every call that
    returns, and a call whose round trip fails returns whenever the size
    check lets every input of the batch through. *)
Theorem Execute_transport_failure_fails_every_item `{TritonAPI}
    (instance_name : string)
    (stub_Execute : list InferenceRequest -> grpc_Status * list InferenceResponse)
    (requests : list TRITONBACKEND_Request)
    (status : grpc_Status) (execute_response : list InferenceResponse) :
  stub_Execute (wire_item <$> requests) = (status, execute_response) ->
  status_ok status = false ->
  (Forall accepted requests ->
   exists st,
     TRITONBACKEND_ModelInstanceExecute instance_name stub_Execute requests =
       Completed None st) /\
  (forall ret st,
     TRITONBACKEND_ModelInstanceExecute instance_name stub_Execute requests =
       Completed ret st ->
     ret = None /\
     responses st =
       replicate (length requests)
         {| slot_ptr := None;
            slot_sent := [{| sent_error := Some (transport_error status);
                             sent_outputs := [] |}] |} /\
     statistics st = (fun i => (i, false)) <$> seq 0 (length requests)).
Proof.
  intros Hstub Hfail. split.
  - intros Hacc. eexists.
    apply (Execute_when_transport_fails _ _ _ _ _
             (Forall_impl _ _ _ Hacc accepted_encodes) Hstub Hfail).
  - intros ret st Hrun.
    pose proof (Execute_completed_encodes _ _ _ _ _ Hrun) as Henc.
    rewrite (Execute_when_transport_fails _ _ _ _ _ Henc Hstub Hfail) in Hrun.
    by injection Hrun as <- <-.
Qed.

(** Two requests and a worker that cannot be reached. *)
Lemma Execute_transport_failure_fails_every_item_witness :
  exists st,
    TRITONBACKEND_ModelInstanceExecute "add_sub_0" Samples.stub_down
      [Samples.small_request; Samples.small_request] = Completed None st /\
    responses st =
      [ {| slot_ptr := None;
           slot_sent := [{| sent_error := Some (transport_error Samples.socket_closed);
                            sent_outputs := [] |}] |};
        {| slot_ptr := None;
           slot_sent := [{| sent_error := Some (transport_error Samples.socket_closed);
                            sent_outputs := [] |}] |} ] /\
    statistics st = [(0%nat, false); (1%nat, false)].
Proof.
  destruct (Execute_transport_failure_fails_every_item "add_sub_0"
              Samples.stub_down [Samples.small_request; Samples.small_request]
              Samples.socket_closed [] eq_refl eq_refl) as [Hcompletes Hitems].
  destruct Hcompletes as [st Hrun].
  - repeat constructor; simpl; lia.
  - destruct (Hitems None st Hrun) as (_ & Hresp & Hstat).
    exists st. split; [exact Hrun|]. split; [exact Hresp|exact Hstat].
Defined.



(** ** Batches with an input at the size limit *)

Section Oversized.
Variable content : list byte.

Lemma oversized_request_wf :
  Z.of_nat (length content) = 2147483647 ->
  wf_request (Samples.oversized_request content).
Proof.
  intros Hlen. split.
  - simpl. apply NoDup_singleton.
  - repeat constructor. exact Hlen.
Qed.

(** The first of two requests has an input at the size limit. *)
Lemma oversized_first_stops_the_call :
  TRITONBACKEND_ModelInstanceExecute "add_sub_0" Samples.stub_two
    [Samples.oversized_request content; Samples.small_request] =
  Undef {| responses := [send_error oversize_error fresh_slot; fresh_slot];
           execute_request :=
             [ {| ir_id := Indeterminate; ir_correlation_id := Indeterminate;
                  ir_inputs := [blank_Tensor]; ir_requested_output_names := [] |} ];
           transmitted := []; exec_log := []; statistics := []; released := [];
           batch_statistics := [] |}.
Proof. vm_compute. reflexivity. Qed.

(** The second of two requests has an input at the size limit. *)
Lemma oversized_second_stops_the_call :
  TRITONBACKEND_ModelInstanceExecute "add_sub_0" Samples.stub_two_out
    [Samples.small_request; Samples.oversized_request content] =
  Undef {| responses := [fresh_slot; send_error oversize_error fresh_slot];
           execute_request :=
             [ {| ir_id := Determinate "req-1"; ir_correlation_id := Determinate 7;
                  ir_inputs := [ {| t_name := "IN"; t_dtype := 2; t_dims := [2];
                                    t_raw_data := [x01; x02] |} ];
                  ir_requested_output_names := [Determinate "OUT"] |};
               {| ir_id := Indeterminate; ir_correlation_id := Indeterminate;
                  ir_inputs := [blank_Tensor]; ir_requested_output_names := [] |} ];
           transmitted := []; exec_log := []; statistics := []; released := [];
           batch_statistics := [] |}.
Proof. vm_compute. reflexivity. Qed.

End Oversized.

Lemma big_payload_length : Z.of_nat (length Samples.big_payload) = 2147483647.
Proof.
  unfold Samples.big_payload. rewrite length_replicate. apply Z2Nat.id. done.
Qed.



(** ** The size check *)

(** C3, at the failing inputs. Take a request of the batch with unique input
    names and an input whose reported byte size is at or above the maximum
    message size (INT32_MAX). [GetInputTensor] rejects that input with the
    unsupported-size error before anything is handed to the channel, and the
    request is answered with it. The encoding then reads a local that was
    never assigned and the call stops there: nothing is ever handed to the
    channel, exactly one request of the batch was answered (the first one
    that has such an input), with the size error, and every other request of
    the batch, however well-formed, is left without any answer, is not
    reported and is not released. *)
Theorem rejected_input_stops_the_call `{TritonAPI}
    (instance_name : string)
    (stub_Execute : list InferenceRequest -> grpc_Status * list InferenceResponse)
    (requests : list TRITONBACKEND_Request)
    (r : nat) (q : TRITONBACKEND_Request) (k : nat) (i : TRITONBACKEND_Input) :
  requests !! r = Some q ->
  NoDup (in_name <$> rq_inputs q) ->
  rq_inputs q !! k = Some i ->
  MAX_GRPC_MESSAGE_SIZE <= in_byte_size i ->
  GetInputTensor k q blank_Tensor fresh_slot = (fresh_slot, Err oversize_error) /\
  exists st r0,
    TRITONBACKEND_ModelInstanceExecute instance_name stub_Execute requests = Undef st /\
    transmitted st = [] /\ statistics st = [] /\ released st = [] /\
    (r0 <= r)%nat /\
    responses st !! r0 =
      Some {| slot_ptr := None;
              slot_sent := [{| sent_error := Some oversize_error;
                               sent_outputs := [] |}] |} /\
    forall j, j <> r0 -> (j < length requests)%nat ->
      responses st !! j = Some {| slot_ptr := Some []; slot_sent := [] |}.
Proof.
  intros Hq Hnd Hk Hsize.
  assert (Ho : oversized i = true) by (by apply Z.leb_le).
  split.
  { rewrite (GetInputTensor_lookup q k i fresh_slot Hnd Hk). by rewrite Ho. }
  assert (Hnot : ~ encodes q).
  { intros Henc. apply (encodes_iff_accepted q Hnd) in Henc.
    unfold accepted in Henc. rewrite Forall_forall in Henc.
    specialize (Henc i (list_elem_of_lookup_2 _ _ _ Hk)). lia. }
  destruct (first_not_encoded requests) as [Hall|(good & q0 & rest & Hreq & Hgood & Hq0)].
  { rewrite Forall_forall in Hall. exfalso. apply Hnot, Hall.
    by eapply list_elem_of_lookup_2. }
  eexists _, (length good).
  split; [exact (Execute_when_not_encoded _ _ _ good q0 rest Hreq Hgood Hq0)|].
  cbn [transmitted statistics released responses].
  split; [done|]. split; [done|]. split; [done|].
  split.
  { destruct (decide (r < length good)%nat) as [Hlt|]; [|lia]. exfalso.
    rewrite Hreq, lookup_app_l in Hq by done.
    rewrite Forall_forall in Hgood. apply Hnot, Hgood.
    by eapply list_elem_of_lookup_2. }
  split.
  { replace (length good) with (length (replicate (length good) fresh_slot)) at 1
      by apply length_replicate.
    by rewrite list_lookup_middle. }
  intros j Hj Hlen. rewrite Hreq, length_app in Hlen. cbn [length] in Hlen.
  destruct (decide (j < length good)%nat) as [Hlt|Hge].
  - rewrite lookup_app_l by (by rewrite length_replicate).
    by rewrite lookup_replicate_2.
  - rewrite lookup_app_r by (rewrite length_replicate; lia).
    rewrite length_replicate.
    destruct (j - length good)%nat as [|d] eqn:Hd; [lia|]. cbn [lookup list_lookup].
    apply lookup_replicate_2. lia.
Qed.

(** C3, failing input. The second of two well-formed requests has an input
    that reports INT32_MAX bytes. It is answered with the size error; the
    call then stops in the encoding loop, nothing goes over the channel and
    the first request, which no check rejected, never gets an answer. *)
Lemma rejected_input_stops_the_call_witness :
  wf_request Samples.small_request /\
  wf_request (Samples.oversized_request Samples.big_payload) /\
  exists st,
    TRITONBACKEND_ModelInstanceExecute "add_sub_0" Samples.stub_two_out
      [Samples.small_request; Samples.oversized_request Samples.big_payload]
      = Undef st /\
    transmitted st = [] /\
    errors_sent st = [ []; [Some oversize_error] ] /\
    statistics st = [] /\ released st = [].
Proof.
  split.
  { split; [simpl; apply NoDup_singleton|]. repeat constructor. }
  split; [apply oversized_request_wf, big_payload_length|].
  destruct (rejected_input_stops_the_call "add_sub_0" Samples.stub_two_out
              [Samples.small_request; Samples.oversized_request Samples.big_payload]
              1%nat (Samples.oversized_request Samples.big_payload) 0%nat
              {| in_name := "IN"; in_dtype := 2; in_shape := [2147483647];
                 in_byte_size := 2147483647; in_content := Samples.big_payload |}
              eq_refl)
    as (_ & st & r0 & Hrun & Htx & Hstat & Hrel & _).
  - simpl. apply NoDup_singleton.
  - reflexivity.
  - simpl. unfold MAX_GRPC_MESSAGE_SIZE. lia.
  - exists st. split; [exact Hrun|]. split; [exact Htx|].
    split; [|split; [exact Hstat|exact Hrel]].
    rewrite oversized_second_stops_the_call in Hrun. injection Hrun as <-.
    reflexivity.
Defined.

(** ** Outputs *)

(** C2, at the failing input. The caller asks for output [A] only; the
    worker answers with [B] first, then [A]. The output loop takes the name to
    search for from the worker's tensor at the loop position, so the response
    that goes out holds [B] and not [A]. *)
Lemma requested_name_is_not_what_is_searched :
  exists st,
    TRITONBACKEND_ModelInstanceExecute "add_sub_0" Samples.stub_B_then_A
      [Samples.request_A] = Completed None st /\
    (fun s => (fun x => out_name <$> sent_outputs x) <$> slot_sent s) <$> responses st
      = [ [ ["B"] ] ] /\
    errors_sent st = [ [None] ].
Proof. eexists. split; [|split]; vm_compute; reflexivity. Qed.

(** The caller asks for [A] and [B]; the worker leaves [A] out. The second
    iteration reads past the worker's outputs and the call stops with the
    item unanswered. *)
Lemma omitted_output_stops_the_call :
  exists st,
    TRITONBACKEND_ModelInstanceExecute "add_sub_0" Samples.stub_only_B
      [Samples.request_A_B] = Undef st /\
    errors_sent st = [ [] ].
Proof. eexists. split; vm_compute; reflexivity. Qed.

(** C4, as the code has it. In a completed call after a successful round
    trip, take a successful item whose response is still pending after
    encoding, and the first of its requested outputs whose buffer the
    allocator places in GPU memory, at position [j]. The item is failed: it is
    answered once, with the unsupported error "can't create response in GPU
    memory.", its response is dropped, the outputs after [j] are never
    attached, no success response is sent for it, and it is reported as
    failed. Every other item's outcome is what decoding its own response item
    gave. *)
Theorem gpu_output_buffer_fails_the_item `{TritonAPI}
    (instance_name : string)
    (stub_Execute : list InferenceRequest -> grpc_Status * list InferenceResponse)
    (requests : list TRITONBACKEND_Request)
    (status : grpc_Status) (execute_response : list InferenceResponse)
    (ret : option TRITONSERVER_Error) (st : ExecState)
    (r : nat) (q : TRITONBACKEND_Request) (ir : InferenceResponse)
    (j : nat) (t : Tensor) :
  stub_Execute (wire_item <$> requests) = (status, execute_response) ->
  status_ok status = true ->
  TRITONBACKEND_ModelInstanceExecute instance_name stub_Execute requests =
    Completed ret st ->
  requests !! r = Some q ->
  Forall (fun i => in_byte_size i < MAX_GRPC_MESSAGE_SIZE) (rq_inputs q) ->
  execute_response !! r = Some ir ->
  resp_failed ir = false ->
  (j < length (rq_outputs q))%nat ->
  (forall k, (k < j)%nat ->
     exists t' mt, resp_outputs ir !! k = Some t' /\
       rq_allocator q (t_name t') (output_byte_size_of t') = Ok mt /\
       is_gpu mt = false) ->
  resp_outputs ir !! j = Some t ->
  rq_allocator q (t_name t) (output_byte_size_of t) = Ok TRITONSERVER_MEMORY_GPU ->
  (exists outs,
     responses st !! r =
       Some {| slot_ptr := None;
               slot_sent := [{| sent_error := Some gpu_error;
                                sent_outputs := outs |}] |} /\
     length outs = S j) /\
  (r, false) ∈ statistics st /\
  forall i q', i <> r -> requests !! i = Some q' ->
    exists ir' s' lg lg',
      execute_response !! i = Some ir' /\
      decode_item i q' ir' (encoded_slot q') lg = ItemDone s' lg' /\
      responses st !! i = Some s'.
Proof.
  intros Hstub Hok Hrun Hq Hsizes Hir Hfailed Hj Hbefore Ht Ha.
  destruct (Execute_completed_items _ _ _ _ _ _ _ Hstub Hok Hrun)
    as (_ & _ & _ & Hitems).
  destruct (Hitems r q Hq) as (ir0 & s' & lg & lg' & H1 & H2 & H3 & H4).
  assert (ir0 = ir) as -> by congruence.
  rewrite (encoded_slot_accepted q Hsizes) in H2.
  unfold decode_item in H2. rewrite Hfailed in H2.
  unfold TRITONBACKEND_RequestOutputCount in H2.
  rewrite GUARDED_pure_ok in H2 by done. unfold id in H2.
  destruct (output_loop r q ir 0 (length (rq_outputs q)) fresh_slot lg)
    as [s2 lg2|s2 lg2] eqn:Hloop; [|done].
  destruct (output_loop_gpu r q ir j (length (rq_outputs q)) 0 fresh_slot lg [] t
              s2 lg2 eq_refl Hj Hbefore Ht Ha Hloop) as (Hnull & outs & Hsent & Hlen).
  rewrite Hnull in H2. injection H2 as <- _.
  destruct s2 as [p2 sent2]. simpl in Hnull, Hsent. subst p2 sent2.
  split; [|split].
  - exists outs. split; [exact H3|]. simpl in Hlen. lia.
  - exact H4.
  - intros i q' _ Hq'.
    destruct (Hitems i q' Hq') as (ir' & s'' & lg1 & lg1' & H5 & H6 & H7 & _).
    by exists ir', s'', lg1, lg1'.
Qed.

Lemma gpu_output_buffer_fails_the_item_witness :
  exists st outs,
    TRITONBACKEND_ModelInstanceExecute "add_sub_0" Samples.stub_A_B
      [Samples.request_gpu] = Completed None st /\
    responses st !! 0%nat =
      Some {| slot_ptr := None;
              slot_sent := [{| sent_error := Some gpu_error;
                               sent_outputs := outs |}] |} /\
    length outs = 1%nat.
Proof.
  destruct (TRITONBACKEND_ModelInstanceExecute "add_sub_0" Samples.stub_A_B
              [Samples.request_gpu]) as [ret st|st] eqn:Hrun.
  - destruct (gpu_output_buffer_fails_the_item "add_sub_0" Samples.stub_A_B
                [Samples.request_gpu] grpc_OK _ ret st 0%nat Samples.request_gpu
                (Samples.succeeded [Samples.tensor_A; Samples.tensor_B])
                0%nat Samples.tensor_A eq_refl eq_refl Hrun eq_refl)
      as ((outs & Hslot & Hlen) & _ & _).
    + apply Forall_nil_2.
    + reflexivity.
    + reflexivity.
    + simpl. lia.
    + intros k Hk. lia.
    + reflexivity.
    + reflexivity.
    + vm_compute in Hrun. injection Hrun as <- _.
      exists st, outs. split; [reflexivity|]. split; [exact Hslot|exact Hlen].
  - vm_compute in Hrun. discriminate Hrun.
Defined.

(** C4, counterexample. The caller asks for [A] and [B] and the allocator
    places [A] in GPU memory. The item is not reported as sent: its only
    response carries the unsupported error, [B] was never attached to it, and
    the statistics record the item as failed. *)
Lemma gpu_output_buffer_is_not_recoverable :
  exists st,
    TRITONBACKEND_ModelInstanceExecute "add_sub_0" Samples.stub_A_B
      [Samples.request_gpu] = Completed None st /\
    errors_sent st = [ [Some gpu_error] ] /\
    (fun s => (fun x => out_name <$> sent_outputs x) <$> slot_sent s) <$> responses st
      = [ [ ["A"] ] ] /\
    statistics st = [(0%nat, false)].
Proof. eexists. split; [|split; [|split]]; vm_compute; reflexivity. Qed.

(** The size a buffer is asked for with, when the computed size fits the
    unsigned parameter. *)
Lemma to_uint64_small (z : Z) : 0 <= z < 18446744073709551616 -> to_uint64 z = z.
Proof. intros Hz. unfold to_uint64. by apply Z.mod_small. Qed.

Lemma to_uint64_range (z : Z) : 0 <= to_uint64 z < 18446744073709551616.
Proof. unfold to_uint64. by apply Z.mod_pos_bound. Qed.

(** C9. In a completed call after a successful round trip, every buffer
    obtained for an output of any response of an item was asked for with the
    size computed from the worker tensor at the same position, converted to
    the unsigned 64-bit parameter of the host call: the length of the
    tensor's raw payload when its type tag is the BYTES tag, whatever its
    shape, and the size [GetByteSize] derives from its type and shape in every
    other case. Whenever the computed size is not negative (and below 2^64)
    it is the size asked for; a negative one, such as the [-1] of a shape
    that has no size, is asked for as that value plus 2^64. *)
Theorem output_buffer_size_follows_type_tag `{TritonAPI}
    (instance_name : string)
    (stub_Execute : list InferenceRequest -> grpc_Status * list InferenceResponse)
    (requests : list TRITONBACKEND_Request)
    (status : grpc_Status) (execute_response : list InferenceResponse)
    (ret : option TRITONSERVER_Error) (st : ExecState)
    (r : nat) (q : TRITONBACKEND_Request) (ir : InferenceResponse) (s : Slot)
    (x : Sent) (k : nat) (o : TRITONBACKEND_Output) (b : Buffer) :
  stub_Execute (wire_item <$> requests) = (status, execute_response) ->
  status_ok status = true ->
  TRITONBACKEND_ModelInstanceExecute instance_name stub_Execute requests =
    Completed ret st ->
  requests !! r = Some q ->
  execute_response !! r = Some ir ->
  responses st !! r = Some s ->
  x ∈ slot_sent s ->
  sent_outputs x !! k = Some o ->
  out_buffer o = Some b ->
  exists t size,
    resp_outputs ir !! k = Some t /\
    out_name o = t_name t /\
    size = (if (t_dtype t =? TRITONSERVER_TYPE_BYTES)%Z
            then Z.of_nat (length (t_raw_data t))
            else GetByteSize (t_dtype t) (t_dims t)) /\
    buf_byte_size b = to_uint64 size /\
    (0 <= size < 18446744073709551616 -> buf_byte_size b = size) /\
    (- 18446744073709551616 <= size < 0 ->
     buf_byte_size b = size + 18446744073709551616).
Proof.
  intros Hstub Hok Hrun Hq Hir Hs Hx Hk Hb.
  destruct (Execute_completed_items _ _ _ _ _ _ _ Hstub Hok Hrun)
    as (_ & _ & _ & Hitems).
  destruct (Hitems r q Hq) as (ir0 & s' & lg & lg' & H1 & H2 & H3 & _).
  assert (ir0 = ir) as -> by congruence.
  assert (s' = s) as -> by congruence.
  pose proof (decode_item_decoded r q ir _ _ _ _ H2 (encoded_slot_cases q)) as Hdec.
  destruct (Hdec x Hx) as [Hsized _].
  destruct (Hsized k o Hk) as (t & Ht & Hn & Hsz).
  exists t, (output_byte_size t). split; [done|]. split; [done|]. split; [done|].
  rewrite (Hsz b Hb). unfold output_byte_size_of.
  split; [done|]. split.
  - apply to_uint64_small.
  - intros Hneg. unfold to_uint64.
    rewrite <- (Z.mod_add _ 1) by done. rewrite Z.mul_1_l. apply Z.mod_small. lia.
Qed.

(** A BYTES tensor of shape [1] whose payload has five bytes. *)
Lemma output_buffer_size_follows_type_tag_witness :
  exists t size,
    [Samples.bytes_tensor] !! 0%nat = Some t /\
    out_name (allocated_output Samples.bytes_tensor TRITONSERVER_MEMORY_CPU
                (t_raw_data Samples.bytes_tensor)) = t_name t /\
    size = (if (t_dtype t =? TRITONSERVER_TYPE_BYTES)%Z
            then Z.of_nat (length (t_raw_data t))
            else GetByteSize (t_dtype t) (t_dims t)) /\
    5 = to_uint64 size.
Proof.
  destruct (TRITONBACKEND_ModelInstanceExecute "add_sub_0" Samples.stub_bytes
              [Samples.small_request]) as [ret st|st] eqn:Hrun.
  - pose proof Hrun as Hst. vm_compute in Hst. injection Hst as _ Hst.
    destruct (output_buffer_size_follows_type_tag "add_sub_0" Samples.stub_bytes
              [Samples.small_request] grpc_OK _ ret st 0%nat Samples.small_request
              (Samples.succeeded [Samples.bytes_tensor])
              {| slot_ptr := Some [allocated_output Samples.bytes_tensor
                                     TRITONSERVER_MEMORY_CPU
                                     (t_raw_data Samples.bytes_tensor)];
                 slot_sent := [{| sent_error := None;
                                  sent_outputs :=
                                    [allocated_output Samples.bytes_tensor
                                       TRITONSERVER_MEMORY_CPU
                                       (t_raw_data Samples.bytes_tensor)] |}] |}
              {| sent_error := None;
                 sent_outputs := [allocated_output Samples.bytes_tensor
                                    TRITONSERVER_MEMORY_CPU
                                    (t_raw_data Samples.bytes_tensor)] |}
              0%nat
              (allocated_output Samples.bytes_tensor TRITONSERVER_MEMORY_CPU
                 (t_raw_data Samples.bytes_tensor))
              {| buf_byte_size := 5; buf_memory_type := TRITONSERVER_MEMORY_CPU;
                 buf_written := t_raw_data Samples.bytes_tensor |}
              eq_refl eq_refl Hrun eq_refl eq_refl)
      as (t & size & Ht & Hn & Hsize & Hb & _).
    + rewrite <- Hst. vm_compute. reflexivity.
    + apply list_elem_of_here.
    + reflexivity.
    + reflexivity.
    + exists t, size. split; [exact Ht|]. split; [exact Hn|]. split; [exact Hsize|exact Hb].
  - vm_compute in Hrun. discriminate Hrun.
Defined.

(** C10. In a completed call after a successful round trip, every output of a
    response sent without error holds, from the first byte of its buffer on,
    the whole raw payload of the tensor the name search matched, whatever the
    byte size the buffer was asked for with. That size is the one computed
    from the type tag and the shape of the worker tensor at the output's
    position, converted to the unsigned 64-bit parameter of the host call.
    Whenever the payload is longer than the size asked for, the copy runs
    past the end of the buffer by the difference. *)
Theorem output_copy_is_not_bounded_by_buffer_size `{TritonAPI}
    (instance_name : string)
    (stub_Execute : list InferenceRequest -> grpc_Status * list InferenceResponse)
    (requests : list TRITONBACKEND_Request)
    (status : grpc_Status) (execute_response : list InferenceResponse)
    (ret : option TRITONSERVER_Error) (st : ExecState)
    (r : nat) (q : TRITONBACKEND_Request) (ir : InferenceResponse) (s : Slot)
    (x : Sent) (k : nat) (o : TRITONBACKEND_Output) :
  stub_Execute (wire_item <$> requests) = (status, execute_response) ->
  status_ok status = true ->
  TRITONBACKEND_ModelInstanceExecute instance_name stub_Execute requests =
    Completed ret st ->
  requests !! r = Some q ->
  execute_response !! r = Some ir ->
  responses st !! r = Some s ->
  x ∈ slot_sent s ->
  sent_error x = None ->
  sent_outputs x !! k = Some o ->
  exists t m b,
    resp_outputs ir !! k = Some t /\
    List.find (fun itr => bool_decide (t_name itr = t_name t)) (resp_outputs ir) = Some m /\
    out_buffer o = Some b /\
    buf_written b = t_raw_data m /\
    length (buf_written b) = length (t_raw_data m) /\
    buf_byte_size b =
      to_uint64 (if (t_dtype t =? TRITONSERVER_TYPE_BYTES)%Z
                 then Z.of_nat (length (t_raw_data t))
                 else GetByteSize (t_dtype t) (t_dims t)) /\
    0 <= buf_byte_size b /\
    (buf_byte_size b < Z.of_nat (length (t_raw_data m)) ->
     overrun b = Z.of_nat (length (t_raw_data m)) - buf_byte_size b /\
     0 < overrun b) /\
    (Z.of_nat (length (t_raw_data m)) <= buf_byte_size b -> overrun b = 0).
Proof.
  intros Hstub Hok Hrun Hq Hir Hs Hx Hnone Hk.
  destruct (Execute_completed_items _ _ _ _ _ _ _ Hstub Hok Hrun)
    as (_ & _ & _ & Hitems).
  destruct (Hitems r q Hq) as (ir0 & s' & lg & lg' & H1 & H2 & H3 & _).
  assert (ir0 = ir) as -> by congruence.
  assert (s' = s) as -> by congruence.
  pose proof (decode_item_decoded r q ir _ _ _ _ H2 (encoded_slot_cases q)) as Hdec.
  destruct (Hdec x Hx) as [_ Hall]. specialize (Hall Hnone).
  destruct (Hall k o Hk) as (t & Ht & Hd).
  unfold delivered_output in Hd.
  destruct (rq_allocator q (t_name t) (output_byte_size_of t)) as [mt|e]; [|done].
  unfold matched in Hd.
  destruct (List.find (fun itr => bool_decide (t_name itr = t_name t)) (resp_outputs ir))
    as [m|] eqn:Hm; [|done].
  destruct (is_gpu mt); [done|]. injection Hd as <-.
  eexists t, m, _. split; [done|]. split; [done|]. split; [reflexivity|].
  cbn [buf_written buf_byte_size]. split; [done|]. split; [done|]. split; [done|].
  pose proof (to_uint64_range (output_byte_size t)) as Hrange.
  fold (output_byte_size_of t) in Hrange.
  split; [lia|]. unfold overrun. cbn [buf_written buf_byte_size].
  split; intros Hlt; lia.
Qed.

(** The worker's UINT8 tensor of shape [1] carries three bytes: the buffer is
    asked for with one byte and the copy writes two bytes past its end. *)
Lemma output_copy_is_not_bounded_by_buffer_size_witness :
  exists st b,
    TRITONBACKEND_ModelInstanceExecute "add_sub_0" Samples.stub_long
      [Samples.small_request] = Completed None st /\
    ((fun s => (fun x => out_buffer <$> sent_outputs x) <$> slot_sent s) <$> responses st)
      = [ [ [Some b] ] ] /\
    buf_byte_size b = 1 /\
    buf_written b = [x0a; x0b; x0c] /\
    overrun b = 2.
Proof.
  destruct (TRITONBACKEND_ModelInstanceExecute "add_sub_0" Samples.stub_long
              [Samples.small_request]) as [ret st|st] eqn:Hrun.
  - pose proof Hrun as Hst. vm_compute in Hst. injection Hst as Hret Hst.
    destruct (output_copy_is_not_bounded_by_buffer_size "add_sub_0" Samples.stub_long
                [Samples.small_request] grpc_OK _ ret st 0%nat Samples.small_request
                (Samples.succeeded [Samples.long_tensor])
                {| slot_ptr := Some [allocated_output Samples.long_tensor
                                       TRITONSERVER_MEMORY_CPU
                                       (t_raw_data Samples.long_tensor)];
                   slot_sent := [{| sent_error := None;
                                    sent_outputs :=
                                      [allocated_output Samples.long_tensor
                                         TRITONSERVER_MEMORY_CPU
                                         (t_raw_data Samples.long_tensor)] |}] |}
                {| sent_error := None;
                   sent_outputs := [allocated_output Samples.long_tensor
                                      TRITONSERVER_MEMORY_CPU
                                      (t_raw_data Samples.long_tensor)] |}
                0%nat
                (allocated_output Samples.long_tensor TRITONSERVER_MEMORY_CPU
                   (t_raw_data Samples.long_tensor))
                eq_refl eq_refl Hrun eq_refl eq_refl)
      as (t & m & b & Ht & Hm & Hb & Hw & _ & Hsz & _ & Hover & _).
    + rewrite <- Hst. vm_compute. reflexivity.
    + apply list_elem_of_here.
    + reflexivity.
    + reflexivity.
    + injection Ht as <-. injection Hm as <-. injection Hb as <-.
      destruct Hover as [Hov _]; [vm_compute; reflexivity|].
      subst ret. exists st. eexists.
      split; [reflexivity|]. split; [rewrite <- Hst; vm_compute; reflexivity|].
      split; [vm_compute; reflexivity|]. split; [reflexivity|].
      vm_compute. reflexivity.
  - vm_compute in Hrun. discriminate Hrun.
Defined.

End BridgeFacts.

(** * Further properties of the instance lifecycle *)

Module LifecycleMore.
Import Lifecycle Observations LifecycleFacts.

Lemma init_calls_app tr1 tr2 :
  init_calls (tr1 ++ tr2) = (init_calls tr1 + init_calls tr2)%nat.
Proof.
  induction tr1 as [|e tr1 IH]; [done|]. destruct e; simpl; by rewrite ?IH.
Qed.

Lemma kills_app tr1 tr2 : kills (tr1 ++ tr2) = kills tr1 ++ kills tr2.
Proof.
  induction tr1 as [|e tr1 IH]; [done|]. destruct e; simpl; by rewrite ?IH.
Qed.

Lemma init_calls_failed_rounds args timeout n :
  init_calls (failed_rounds args timeout n) = n.
Proof.
  unfold failed_rounds. induction n as [|n IH]; [done|]. simpl. by rewrite IH.
Qed.

Lemma kills_failed_rounds args timeout n :
  kills (failed_rounds args timeout n) = [].
Proof.
  unfold failed_rounds. induction n as [|n IH]; [done|]. simpl. by rewrite IH.
Qed.

(** Among the first [n] answers either there is a first one that is ok, or
    none is. *)
Lemma attempts_cases (f : nat -> bool) (n : nat) :
  (exists k, (k < n)%nat /\ (forall j, (j < k)%nat -> f j = false) /\ f k = true) \/
  (forall j, (j < n)%nat -> f j = false).
Proof.
  induction n as [|n [(k & Hk & Hbefore & Hok)|Hnone]].
  - right. intros j Hj. lia.
  - left. exists k. split; [lia|done].
  - destruct (f n) eqn:Hn.
    + left. exists n. split; [lia|]. split; [|done]. intros j Hj. apply Hnone. lia.
    + right. intros j Hj. destruct (decide (j = n)) as [->|]; [done|].
      apply Hnone. lia.
Qed.

(** The handshake as a whole, in its two outcomes. *)
Lemma ConnectPythonInterpreter_cases env s w :
  let s1 := set_stub true s in
  let args := initialization_params s1 in
  let timeout := grpc_timeout (ms_StateForBackend (model_state_ s)) in
  (exists k w',
     (k < 5)%nat /\ status_ok (env_Init env k) = true /\
     ConnectPythonInterpreter env s w = (None, set_connected true s1, w') /\
     w_children w' = w_children w /\ w_files w' = w_files w /\
     w_trace w' = w_trace w ++ failed_rounds args timeout k ++
                  [EvInit args;
                   EvLog ("GRPC connection was successful " +:+ name_ s +:+
                          " (device " +:+ pretty (device_id_ s) +:+ ")")]) \/
  (exists w',
     (forall j, (j < 5)%nat -> status_ok (env_Init env j) = false) /\
     ConnectPythonInterpreter env s w =
       (Some (TRITONSERVER_ErrorNew TRITONSERVER_ERROR_INTERNAL
                (status_error_message (env_Init env 4))), s1, w') /\
     w_children w' = w_children w /\ w_files w' = w_files w /\
     w_trace w' = w_trace w ++ failed_rounds args timeout 5).
Proof.
  intros s1 args timeout.
  destruct (attempts_cases (fun k => status_ok (env_Init env k)) 5)
    as [(k & Hk & Hbefore & Hok)|Hnone].
  - left.
    destruct (connect_loop_succeeds env args timeout k conn_attempts 0 grpc_OK s1 w)
      as (w' & Heq & Hc & Hf & Ht); [done|done|done|].
    exists k, w'. repeat split; done.
  - right.
    destruct (connect_loop_exhausted env args timeout conn_attempts 0 grpc_OK s1 w)
      as (w' & Heq & Hc & Hf & Ht); [done|].
    exists w'. repeat split; done.
Qed.

(** X1. Whatever the worker does, the handshake makes between one and five
    [Init] calls; it returns success exactly when one of the first five
    answers is ok, in which case the instance is connected, and otherwise
    leaves the connected flag as it was. It creates and reaps no process,
    sends no signal and touches no file. *)
Theorem ConnectPythonInterpreter_succeeds_iff_some_answer_ok
    (env : Env) (s : ModelInstanceState) (w : World) :
  let r := ConnectPythonInterpreter env s w in
  (fst (fst r) = None <->
   exists k, (k < 5)%nat /\ status_ok (env_Init env k) = true) /\
  (fst (fst r) = None -> connected_ (snd (fst r)) = true) /\
  (fst (fst r) <> None -> connected_ (snd (fst r)) = connected_ s) /\
  (init_calls (w_trace w) + 1 <= init_calls (w_trace (snd r))
     <= init_calls (w_trace w) + 5)%nat /\
  w_children (snd r) = w_children w /\
  w_files (snd r) = w_files w /\
  kills (w_trace (snd r)) = kills (w_trace w).
Proof.
  destruct (ConnectPythonInterpreter_cases env s w)
    as [(k & w' & Hk & Hok & Heq & Hc & Hf & Ht)|(w' & Hnone & Heq & Hc & Hf & Ht)];
    cbv zeta; rewrite Heq; cbn [fst snd].
  - split; [split; [by exists k|done]|]. split; [done|]. split; [done|].
    split; [rewrite Ht, !init_calls_app, init_calls_failed_rounds; simpl; lia|].
    split; [done|]. split; [done|].
    rewrite Ht, !kills_app, kills_failed_rounds. simpl. by rewrite app_nil_r.
  - split.
    { split; [done|]. intros (k & Hk & Hok). by rewrite Hnone in Hok. }
    split; [done|]. split; [done|].
    split; [rewrite Ht, !init_calls_app, init_calls_failed_rounds; lia|].
    split; [done|]. split; [done|].
    rewrite Ht, !kills_app, kills_failed_rounds. by rewrite app_nil_r.
Qed.

(** X2. When [mkdtemp] fails, instance creation returns the internal error
    "Failed to create a temporary socket name" before anything else happens:
    no process is forked, no [Init] is sent, no file is created, and the
    instance keeps an empty socket address and an unassigned pid. Destroying
    that instance then signals a pid that was never assigned. *)
Theorem mkdtemp_failure_leaves_pid_unassigned
    (env : Env) (m : ModelState) (name kind : string) (device_id : Z) (w : World) :
  env_mkdtemp env = None ->
  exists s' w',
    TRITONBACKEND_ModelInstanceInitialize env m name kind device_id w =
      (Returned (Some (TRITONSERVER_ErrorNew TRITONSERVER_ERROR_INTERNAL
                         "Failed to create a temporary socket name")), s', w') /\
    w_children w' = w_children w /\ w_files w' = w_files w /\
    init_calls (w_trace w') = init_calls (w_trace w) /\
    domain_socket_ s' = "" /\ interpreter_pid_ s' = None /\ connected_ s' = false /\
    TRITONBACKEND_ModelInstanceFinalize env s' w' = None.
Proof.
  intros Hdir. unfold TRITONBACKEND_ModelInstanceInitialize, CreatePythonInterpreter.
  rewrite Hdir. eexists _, _. split; [reflexivity|].
  cbn [emit w_children w_files w_trace].
  split; [done|]. split; [done|].
  split; [by rewrite init_calls_app, Nat.add_0_r|].
  repeat split.
Qed.

Lemma mkdtemp_failure_leaves_pid_unassigned_witness :
  exists s' w',
    TRITONBACKEND_ModelInstanceInitialize
      {| env_mkdtemp := None; env_fork := 4242; env_execvp_ok := true; env_errno := 0;
         env_worker_binds := true; env_Init := fun _ => grpc_OK; env_Fini := grpc_OK;
     env_waitpid := fun _ _ => None |}
      Samples.model0 "add_sub_0" "KIND_CPU" 0 Samples.world0 =
      (Returned (Some (TRITONSERVER_ErrorNew TRITONSERVER_ERROR_INTERNAL
                         "Failed to create a temporary socket name")), s', w') /\
    w_children w' = [] /\
    TRITONBACKEND_ModelInstanceFinalize
      {| env_mkdtemp := None; env_fork := 4242; env_execvp_ok := true; env_errno := 0;
         env_worker_binds := true; env_Init := fun _ => grpc_OK; env_Fini := grpc_OK;
     env_waitpid := fun _ _ => None |}
      s' w' = None.
Proof.
  destruct (mkdtemp_failure_leaves_pid_unassigned
              {| env_mkdtemp := None; env_fork := 4242; env_execvp_ok := true;
                 env_errno := 0; env_worker_binds := true;
                 env_Init := fun _ => grpc_OK; env_Fini := grpc_OK;
     env_waitpid := fun _ _ => None |}
              Samples.model0 "add_sub_0" "KIND_CPU" 0 Samples.world0 eq_refl)
    as (s' & w' & Heq & Hc & _ & _ & _ & _ & _ & Hfin).
  exists s', w'. split; [exact Heq|]. split; [exact Hc|exact Hfin].
Defined.

(** The destructor on an instance whose pid and socket address are set, in
    closed form. *)
Lemma destroy_ModelInstanceState_closed
    (env : Env) (s : ModelInstanceState) (w : World) (pid : Z) (path : string) :
  interpreter_pid_ s = Some pid ->
  domain_socket_ s = "unix://" +:+ path ->
  destroy_ModelInstanceState env s w =
    Some {| w_children :=
              match reaped env pid (w_children w) with
              | Some child => filter (fun p => p ≠ child) (w_children w)
              | None => w_children w
              end;
            w_files := filter (fun f => f ≠ path) (w_files w);
            w_trace :=
              w_trace w ++
              (if connected_ s then
                 EvFini :: (if status_ok (env_Fini env) then []
                            else [EvLog ("Cannot shutdown interpreter gracefully: " +:+
                                         status_error_message (env_Fini env))])
               else []) ++
              [EvKill pid; EvWaitpid pid; EvUnlink path;
               EvLog "GRPC shutdown complete"] |}.
Proof.
  intros Hpid Hsock. unfold destroy_ModelInstanceState.
  rewrite Hpid, Hsock, strip_scheme_unix.
  rewrite bool_decide_eq_false_2 by done.
  destruct (connected_ s); [destruct (status_ok (env_Fini env))|];
    unfold emit; cbn [w_children w_files w_trace]; rewrite <- ?app_assoc; reflexivity.
Qed.

(** X3. Destroying an instance whose pid is that of a process (a positive
    pid) and whose socket address is set always completes: the teardown
    notification is sent exactly when the instance is connected, a missing
    acknowledgement is only logged, and in every case the worker is signalled
    and reaped and the socket path unlinked, in that order. The worker is no
    longer a child and the socket path no longer exists; other children and
    files are left alone. *)
Theorem destructor_always_tears_down
    (env : Env) (s : ModelInstanceState) (w : World) (pid : Z) (path : string) :
  0 < pid ->
  interpreter_pid_ s = Some pid ->
  domain_socket_ s = "unix://" +:+ path ->
  exists w',
    destroy_ModelInstanceState env s w = Some w' /\
    w_trace w' =
      w_trace w ++
      (if connected_ s then
         EvFini :: (if status_ok (env_Fini env) then []
                    else [EvLog ("Cannot shutdown interpreter gracefully: " +:+
                                 status_error_message (env_Fini env))])
       else []) ++
      [EvKill pid; EvWaitpid pid; EvUnlink path; EvLog "GRPC shutdown complete"] /\
    (pid ∉ w_children w') /\
    (path ∉ w_files w') /\
    (forall c, c <> pid -> c ∈ w_children w -> c ∈ w_children w') /\
    (forall f, f <> path -> f ∈ w_files w -> f ∈ w_files w').
Proof.
  intros Hpos Hpid Hsock.
  rewrite (destroy_ModelInstanceState_closed env s w pid path Hpid Hsock).
  unfold reaped. apply Z.ltb_lt in Hpos. rewrite Hpos.
  eexists. split; [reflexivity|]. cbn [w_trace w_children w_files].
  split; [reflexivity|].
  split; [|split; [|split]].
  - intros Hin. by apply list_elem_of_filter in Hin as [Hne _].
  - intros Hin. by apply list_elem_of_filter in Hin as [Hne _].
  - intros c Hne Hin. by apply list_elem_of_filter.
  - intros f Hne Hin. by apply list_elem_of_filter.
Qed.

(** A connected instance whose worker does not acknowledge [Fini]. *)
Lemma destructor_always_tears_down_witness :
  exists w',
    destroy_ModelInstanceState MoreSamples.env_no_ack
      {| name_ := ""; kind_ := "KIND_CPU"; device_id_ := 0;
         model_state_ := Samples.model0; pymodule_path_ := "/models/add_sub/1/model.py";
         domain_socket_ := "unix:///tmp/a1b2c3/unix.socket"; connected_ := true;
         interpreter_pid_ := Some 4242; stub := true |}
      {| w_children := [4242; 77]; w_files := ["/tmp/a1b2c3/unix.socket"; "/tmp/a1b2c3"];
         w_trace := [] |} = Some w' /\
    w_children w' = [77] /\ w_files w' = ["/tmp/a1b2c3"] /\
    kills (w_trace w') = [4242].
Proof.
  destruct (destructor_always_tears_down MoreSamples.env_no_ack
              {| name_ := ""; kind_ := "KIND_CPU"; device_id_ := 0;
                 model_state_ := Samples.model0;
                 pymodule_path_ := "/models/add_sub/1/model.py";
                 domain_socket_ := "unix:///tmp/a1b2c3/unix.socket"; connected_ := true;
                 interpreter_pid_ := Some 4242; stub := true |}
              {| w_children := [4242; 77];
                 w_files := ["/tmp/a1b2c3/unix.socket"; "/tmp/a1b2c3"];
                 w_trace := [] |}
              4242 "/tmp/a1b2c3/unix.socket" eq_refl eq_refl eq_refl)
    as (w' & Heq & _).
  vm_compute in Heq. injection Heq as <-.
  eexists. split; [vm_compute; reflexivity|]. vm_compute. done.
Defined.

Lemma string_length_app (a b : string) :
  String.length (a +:+ b) = (String.length a + String.length b)%nat.
Proof. induction a as [|c a IH]; simpl; [done|]. by rewrite IH. Qed.

Lemma socket_file_not_dir (dir : string) : dir <> socket_file dir.
Proof.
  intros Heq. apply (f_equal String.length) in Heq.
  unfold socket_file in Heq. rewrite string_length_app in Heq. simpl in Heq. lia.
Qed.

(** Instance initialization in the process that forked the worker. *)
Lemma ModelInstanceInitialize_parent
    (env : Env) (m : ModelState) (name kind : string) (device_id : Z) (w : World)
    (dir : string) :
  env_mkdtemp env = Some dir ->
  0 < env_fork env ->
  exists err s' w',
    TRITONBACKEND_ModelInstanceInitialize env m name kind device_id w =
      (Returned err, s', w') /\
    (err = None <-> exists k, (k < 5)%nat /\ status_ok (env_Init env k) = true) /\
    (connected_ s' = true <-> err = None) /\
    interpreter_pid_ s' = Some (env_fork env) /\
    domain_socket_ s' = "unix://" +:+ socket_file dir /\
    w_children w' = env_fork env :: w_children w /\
    w_files w' = (if env_worker_binds env then [socket_file dir] else [])
                 ++ dir :: w_files w /\
    kills (w_trace w') = kills (w_trace w).
Proof.
  intros Hdir Hfork.
  unfold TRITONBACKEND_ModelInstanceInitialize, CreatePythonInterpreter.
  rewrite Hdir.
  assert (Hf : (env_fork env =? 0)%Z = false) by (apply Z.eqb_neq; lia).
  assert (Hpos : (0 <? env_fork env)%Z = true) by (by apply Z.ltb_lt).
  rewrite Hf, Hpos. cbn [andb].
  match goal with
  | |- context [ConnectPythonInterpreter env ?s3 ?w2] =>
      destruct (ConnectPythonInterpreter_cases env s3 w2)
        as [(k & w' & Hk & Hok & Heq & Hc & Hfl & Ht)
           |(w' & Hnone & Heq & Hc & Hfl & Ht)]; rewrite Heq
  end; cbn [w_children w_files w_trace emit app] in Hc, Hfl, Ht.
  - eexists None, _, _. split; [reflexivity|].
    cbn [emit w_children w_files w_trace connected_ interpreter_pid_ domain_socket_
         set_connected set_stub set_interpreter_pid set_pymodule_path
         set_domain_socket new_ModelInstanceState].
    split; [split; [by exists k|done]|]. split; [done|]. split; [done|].
    split; [done|]. split; [by rewrite Hc|]. split; [by rewrite Hfl|].
    rewrite Ht, !kills_app, kills_failed_rounds. simpl. by rewrite !app_nil_r.
  - eexists (Some _), _, _. split; [reflexivity|].
    cbn [emit w_children w_files w_trace connected_ interpreter_pid_ domain_socket_
         set_connected set_stub set_interpreter_pid set_pymodule_path
         set_domain_socket new_ModelInstanceState].
    split.
    { split; [done|]. intros (k & Hk & Hok). by rewrite Hnone in Hok. }
    split; [done|]. split; [done|]. split; [done|].
    split; [by rewrite Hc|]. split; [by rewrite Hfl|].
    rewrite Ht, !kills_app, kills_failed_rounds. simpl. by rewrite !app_nil_r.
Qed.

(** X4. In the process that forked the worker, initialization followed by
    finalization reclaims the worker and the socket file but never the
    temporary directory that [mkdtemp] created: whether or not the handshake
    succeeded, after finalization the worker is not a child any more, the
    socket path does not exist, exactly one signal was sent, to the worker,
    and the directory is still there. *)
Theorem temporary_directory_outlives_the_instance
    (env : Env) (m : ModelState) (name kind : string) (device_id : Z) (w : World)
    (dir : string) :
  env_mkdtemp env = Some dir ->
  0 < env_fork env ->
  exists err s' w' w'',
    TRITONBACKEND_ModelInstanceInitialize env m name kind device_id w =
      (Returned err, s', w') /\
    TRITONBACKEND_ModelInstanceFinalize env s' w' = Some w'' /\
    (env_fork env ∉ w_children w'') /\
    (socket_file dir ∉ w_files w'') /\
    dir ∈ w_files w'' /\
    kills (w_trace w'') = kills (w_trace w) ++ [env_fork env].
Proof.
  intros Hdir Hfork.
  destruct (ModelInstanceInitialize_parent env m name kind device_id w dir Hdir Hfork)
    as (err & s' & w' & Heq & _ & _ & Hpid & Hsock & _ & Hfiles & Hkills).
  exists err, s', w'. eexists. split; [done|].
  unfold TRITONBACKEND_ModelInstanceFinalize.
  rewrite (destroy_ModelInstanceState_closed env s' _ (env_fork env) (socket_file dir)
             Hpid Hsock).
  split; [reflexivity|].
  unfold reaped. rewrite (proj2 (Z.ltb_lt 0 (env_fork env)) Hfork).
  cbn [emit w_children w_files w_trace].
  split; [|split; [|split]].
  - intros Hin. by apply list_elem_of_filter in Hin as [Hne _].
  - intros Hin. by apply list_elem_of_filter in Hin as [Hne _].
  - apply list_elem_of_filter. split; [apply socket_file_not_dir|].
    rewrite Hfiles. apply elem_of_app. right. apply list_elem_of_here.
  - rewrite !kills_app, Hkills.
    destruct (connected_ s'); [destruct (status_ok (env_Fini env))|]; simpl;
      by rewrite ?app_nil_r.
Qed.

Lemma temporary_directory_outlives_the_instance_witness :
  exists err s' w' w'',
    TRITONBACKEND_ModelInstanceInitialize Samples.env_third Samples.model0
      "add_sub_0" "KIND_CPU" 0 Samples.world0 = (Returned err, s', w') /\
    TRITONBACKEND_ModelInstanceFinalize Samples.env_third s' w' = Some w'' /\
    "/tmp/a1b2c3" ∈ w_files w'' /\
    kills (w_trace w'') = [4242].
Proof.
  destruct (temporary_directory_outlives_the_instance Samples.env_third Samples.model0
              "add_sub_0" "KIND_CPU" 0 Samples.world0 "/tmp/a1b2c3" eq_refl)
    as (err & s' & w' & w'' & Heq & Hfin & _ & _ & Hdir & Hkills).
  - simpl. lia.
  - exists err, s', w', w''. split; [exact Heq|]. split; [exact Hfin|].
    split; [exact Hdir|exact Hkills].
Defined.

(** X5. In the child, instance initialization never talks to the channel.
    When [execvp] works the process image is replaced by the interpreter,
    called with the start-up script, the socket address, the model path
    [<repository>/<version>/model.py] and, after [--instance-name], the
    empty string: the member the name is taken from is never assigned, so
    the host's instance name does not reach the worker. The socket address is
    the one the forking process connects to for the same temporary
    directory. When [execvp] fails the call returns, in the child, an
    invalid-argument error whose message ends where the name should be. *)
Theorem child_is_given_the_socket_address_but_no_instance_name
    (env_c env_p : Env) (m : ModelState) (name kind : string) (device_id : Z)
    (w : World) (dir : string) :
  env_fork env_c = 0 ->
  env_mkdtemp env_c = Some dir ->
  env_mkdtemp env_p = Some dir ->
  env_fork env_p <> 0 ->
  let parent := TRITONBACKEND_ModelInstanceInitialize env_p m name kind device_id w in
  let child := TRITONBACKEND_ModelInstanceInitialize env_c m name kind device_id w in
  init_calls (w_trace (snd child)) = init_calls (w_trace w) /\
  w_children (snd child) = w_children w /\
  (env_execvp_ok env_c = true ->
   fst (fst child) =
     Replaced [ python_runtime (ms_StateForBackend m);
                python_lib (ms_StateForBackend m) +:+ "/startup.py";
                "--socket"; domain_socket_ (snd (fst parent));
                "--model-path";
                ms_RepositoryPath m +:+ "/" +:+ pretty (ms_Version m) +:+ "/model.py";
                "--instance-name"; "" ]) /\
  (env_execvp_ok env_c = false ->
   fst (fst child) =
     Returned (Some (TRITONSERVER_ErrorNew TRITONSERVER_ERROR_INVALID_ARG
                       "Failed to initialize model instance "))).
Proof.
  intros Hfork Hdir_c Hdir_p Hparent parent child.
  assert (Hsock : domain_socket_ (snd (fst parent)) = "unix://" +:+ socket_file dir).
  { subst parent. unfold TRITONBACKEND_ModelInstanceInitialize, CreatePythonInterpreter.
    rewrite Hdir_p.
    apply Z.eqb_neq in Hparent. rewrite Hparent.
    match goal with
    | |- context [ConnectPythonInterpreter env_p ?s3 ?w2] =>
        destruct (ConnectPythonInterpreter_cases env_p s3 w2)
          as [(k & w' & _ & _ & Heq & _)|(w' & _ & Heq & _)]; rewrite Heq
    end; reflexivity. }
  rewrite Hsock. subst child.
  unfold TRITONBACKEND_ModelInstanceInitialize, CreatePythonInterpreter.
  rewrite Hdir_c, Hfork. cbn [Z.eqb].
  destruct (env_execvp_ok env_c); cbn [fst snd emit w_trace w_children].
  - split; [by rewrite init_calls_app, Nat.add_0_r|]. repeat split; done.
  - split; [by rewrite !init_calls_app, !Nat.add_0_r|]. repeat split; done.
Qed.

(** The host names the instance [add_sub_0]; the child is started without
    that name. *)
Lemma child_is_given_the_socket_address_but_no_instance_name_witness :
  fst (fst (TRITONBACKEND_ModelInstanceInitialize MoreSamples.env_child Samples.model0
              "add_sub_0" "KIND_CPU" 0 Samples.world0)) =
    Replaced [ "python3"; "/opt/tritonserver/backends/python/startup.py";
               "--socket"; "unix:///tmp/a1b2c3/unix.socket";
               "--model-path"; "/models/add_sub/1/model.py";
               "--instance-name"; "" ].
Proof.
  destruct (child_is_given_the_socket_address_but_no_instance_name MoreSamples.env_child
              Samples.env_third Samples.model0 "add_sub_0" "KIND_CPU" 0 Samples.world0
              "/tmp/a1b2c3" eq_refl eq_refl eq_refl) as (_ & _ & Hexec & _).
  - simpl. lia.
  - rewrite (Hexec eq_refl). vm_compute. reflexivity.
Defined.

(** X6. The return value of [fork] is compared with zero only. When [fork]
    fails (a negative value) no child exists, yet the handshake is attempted
    all the same, and destroying the instance afterwards sends its signal to
    that negative pid. *)
Theorem fork_failure_is_treated_as_parent
    (env : Env) (m : ModelState) (name kind : string) (device_id : Z) (w : World)
    (dir : string) :
  env_mkdtemp env = Some dir ->
  env_fork env < 0 ->
  exists err s' w' w'',
    TRITONBACKEND_ModelInstanceInitialize env m name kind device_id w =
      (Returned err, s', w') /\
    w_children w' = w_children w /\
    (init_calls (w_trace w) < init_calls (w_trace w'))%nat /\
    interpreter_pid_ s' = Some (env_fork env) /\
    TRITONBACKEND_ModelInstanceFinalize env s' w' = Some w'' /\
    kills (w_trace w'') = kills (w_trace w) ++ [env_fork env].
Proof.
  intros Hdir Hfork.
  unfold TRITONBACKEND_ModelInstanceInitialize, CreatePythonInterpreter.
  rewrite Hdir.
  assert (Hf : (env_fork env =? 0)%Z = false) by (apply Z.eqb_neq; lia).
  assert (Hneg : (0 <? env_fork env)%Z = false) by (apply Z.ltb_ge; lia).
  rewrite Hf, Hneg. cbn [andb app].
  match goal with
  | |- context [ConnectPythonInterpreter env ?s3 ?w2] =>
      destruct (ConnectPythonInterpreter_cases env s3 w2)
        as [(k & w' & Hk & Hok & Heq & Hc & Hfl & Ht)
           |(w' & Hnone & Heq & Hc & Hfl & Ht)]; rewrite Heq
  end; cbn [w_children w_files w_trace emit app] in Hc, Hfl, Ht.
  - eexists None, _, _, _. split; [reflexivity|].
    cbn [emit w_children w_trace]. split; [done|].
    split.
    { rewrite Ht, !init_calls_app, init_calls_failed_rounds. simpl. lia. }
    split; [done|]. unfold TRITONBACKEND_ModelInstanceFinalize.
    erewrite (destroy_ModelInstanceState_closed env _ _ (env_fork env) (socket_file dir));
      [|reflexivity|reflexivity].
    split; [reflexivity|].
    cbn [emit w_trace connected_ set_connected].
    rewrite Ht, !kills_app, kills_failed_rounds.
    destruct (status_ok (env_Fini env)); simpl; by rewrite ?app_nil_r.
  - eexists (Some _), _, _, _. split; [reflexivity|].
    split; [done|].
    split.
    { rewrite Ht, !init_calls_app, init_calls_failed_rounds. simpl. lia. }
    split; [done|]. unfold TRITONBACKEND_ModelInstanceFinalize.
    erewrite (destroy_ModelInstanceState_closed env _ _ (env_fork env) (socket_file dir));
      [|reflexivity|reflexivity].
    split; [reflexivity|].
    cbn [emit w_trace connected_ set_stub set_interpreter_pid
      set_pymodule_path set_domain_socket new_ModelInstanceState].
    rewrite Ht, !kills_app, kills_failed_rounds. simpl. by rewrite ?app_nil_r.
Qed.

Lemma fork_failure_is_treated_as_parent_witness :
  exists err s' w' w'',
    TRITONBACKEND_ModelInstanceInitialize MoreSamples.env_fork_failed Samples.model0
      "add_sub_0" "KIND_CPU" 0 Samples.world0 = (Returned err, s', w') /\
    init_calls (w_trace w') = 5%nat /\
    TRITONBACKEND_ModelInstanceFinalize MoreSamples.env_fork_failed s' w' = Some w'' /\
    kills (w_trace w'') = [-1].
Proof.
  destruct (fork_failure_is_treated_as_parent MoreSamples.env_fork_failed Samples.model0
              "add_sub_0" "KIND_CPU" 0 Samples.world0 "/tmp/a1b2c3" eq_refl)
    as (err & s' & w' & w'' & Heq & _ & _ & _ & Hfin & Hkills).
  - simpl. lia.
  - exists err, s', w', w''. split; [exact Heq|].
    split; [|split; [exact Hfin|exact Hkills]].
    vm_compute in Heq. injection Heq as _ _ <-. vm_compute. reflexivity.
Defined.

End LifecycleMore.

(** * Further properties of the inference call *)

Module BridgeMore.
Import Bridge Observations BridgeFacts.

(** ** Encoding *)

Lemma encoded_inputs_verbatim (l : list TRITONBACKEND_Input) :
  Forall wf_input l ->
  Forall (fun i => in_byte_size i < MAX_GRPC_MESSAGE_SIZE) l ->
  encoded_inputs l = verbatim_tensor <$> l /\ rejected l = false.
Proof.
  induction l as [|i l IH]; intros Hwf Hsz; [done|].
  apply Forall_cons in Hwf as [Hi Hwf]. apply Forall_cons in Hsz as [Hs Hsz].
  destruct (IH Hwf Hsz) as [IH1 IH2].
  assert (Ho : oversized i = false) by (apply Z.leb_gt; exact Hs).
  cbn [encoded_inputs rejected existsb fmap list_fmap]. rewrite Ho. cbn [orb].
  split; [|exact IH2]. f_equal; [|exact IH1].
  unfold wire_tensor, verbatim_tensor. f_equal.
  unfold wf_input in Hi. rewrite <- Hi, Nat2Z.id. apply resize_all.
Qed.

Lemma encode_item_verbatim (q : TRITONBACKEND_Request) :
  wf_request q -> accepted q ->
  encode_item q fresh_slot = EncodeDone (fresh_slot, verbatim_item q).
Proof.
  intros [Hnd Hwf] Hacc.
  destruct (encoded_inputs_verbatim _ Hwf Hacc) as [Hin Hrej].
  rewrite (encode_item_closed q Hnd), Hrej, Hin. reflexivity.
Qed.

(** X7. A well-formed request none of whose inputs reaches the size limit is
    encoded without loss and without touching its response: the wire item
    holds the request's id and correlation id, one tensor per input, in
    order, with the input's name, type, shape and exactly its bytes, and the
    requested output names in order. When every request of the batch is such
    a request, the one batch handed to the channel is the list of these
    items, in request order, however the call ends. *)
Theorem accepted_requests_reach_the_worker_verbatim `{TritonAPI}
    (instance_name : string)
    (stub_Execute : list InferenceRequest -> grpc_Status * list InferenceResponse)
    (requests : list TRITONBACKEND_Request) :
  Forall (fun q => wf_request q /\ accepted q) requests ->
  (forall q, q ∈ requests ->
     encode_item q fresh_slot = EncodeDone (fresh_slot, verbatim_item q)) /\
  transmitted (last_state
    (TRITONBACKEND_ModelInstanceExecute instance_name stub_Execute requests))
    = [verbatim_item <$> requests].
Proof.
  intros Hall. split.
  - intros q Hq. rewrite Forall_forall in Hall. destruct (Hall q Hq) as [Hwf Hacc].
    by apply encode_item_verbatim.
  - rewrite Execute_transmitted
      by (eapply Forall_impl; [exact Hall|]; intros q [_ Hacc]; by apply accepted_encodes).
    f_equal.
    induction Hall as [|q l [Hwf Hacc] _ IH]; [done|].
    cbn [fmap list_fmap]. f_equal; [|exact IH].
    unfold wire_item. by rewrite encode_item_verbatim.
Qed.

Lemma accepted_requests_reach_the_worker_verbatim_witness :
  transmitted (last_state
    (TRITONBACKEND_ModelInstanceExecute "add_sub_0" Samples.stub_two_out
       [Samples.small_request; Samples.small_request]))
    = [ [ {| ir_id := Determinate "req-1"; ir_correlation_id := Determinate 7;
             ir_inputs := [ {| t_name := "IN"; t_dtype := 2; t_dims := [2];
                               t_raw_data := [x01; x02] |} ];
             ir_requested_output_names := [Determinate "OUT"] |};
          {| ir_id := Determinate "req-1"; ir_correlation_id := Determinate 7;
             ir_inputs := [ {| t_name := "IN"; t_dtype := 2; t_dims := [2];
                               t_raw_data := [x01; x02] |} ];
             ir_requested_output_names := [Determinate "OUT"] |} ] ].
Proof.
  refine (proj2 (accepted_requests_reach_the_worker_verbatim "add_sub_0"
                   Samples.stub_two_out [Samples.small_request; Samples.small_request] _)).
  repeat constructor; vm_compute; try done.
  all: intros Hin; repeat (apply elem_of_cons in Hin as [Hin|Hin]; [done|]);
    by apply elem_of_nil in Hin.
Defined.

(** ** Decoding one item *)

Section Items.
Context `{TritonAPI}.
Variable r : nat.
Variable request : TRITONBACKEND_Request.
Variable inference_response : InferenceResponse.

(** While the allocator hands out buffers outside GPU memory the response
    stays and nothing is sent or logged. *)
Lemma output_loop_stays_live : forall todo j s lg s' lg',
  slot_ptr s <> None ->
  (forall k t, (j <= k < j + todo)%nat ->
     resp_outputs inference_response !! k = Some t ->
     exists mt, rq_allocator request (t_name t) (output_byte_size_of t) = Ok mt /\
                is_gpu mt = false) ->
  output_loop r request inference_response j todo s lg = ItemDone s' lg' ->
  slot_ptr s' <> None /\ slot_sent s' = slot_sent s /\ lg' = lg.
Proof.
  induction todo as [|todo IH]; intros j s lg s' lg' Hp Halloc Hloop; simpl in Hloop.
  - by injection Hloop as <- <-.
  - destruct (slot_ptr s) as [response|] eqn:Hs; [|done].
    destruct (resp_outputs inference_response !! j) as [t|] eqn:Ht.
    + destruct (Halloc j t) as (mt & Ha & Hg); [lia|done|].
      rewrite (output_step_live r request inference_response j s lg response t Hs Ht),
        Ha, Hg in Hloop.
      destruct (matched_some inference_response j t Ht) as (m & Hm & _).
      rewrite Hm in Hloop.
      apply IH in Hloop; [exact Hloop|done|].
      intros k t' Hk. apply Halloc. lia.
    + unfold output_step in Hloop. by rewrite Ht in Hloop.
Qed.

(** The first allocator error ends the item: it goes out as the item's
    error together with the outputs attached so far, the last of them
    without a buffer. *)
Lemma output_loop_allocator_error : forall k todo j s lg response t e s' lg',
  slot_ptr s = Some response ->
  (k < todo)%nat ->
  (forall k', (k' < k)%nat ->
     exists t' mt, resp_outputs inference_response !! (j + k')%nat = Some t' /\
       rq_allocator request (t_name t') (output_byte_size_of t') = Ok mt /\
       is_gpu mt = false) ->
  resp_outputs inference_response !! (j + k)%nat = Some t ->
  rq_allocator request (t_name t) (output_byte_size_of t) = Err e ->
  output_loop r request inference_response j todo s lg = ItemDone s' lg' ->
  slot_ptr s' = None /\
  exists before,
    slot_sent s' = slot_sent s ++ [{| sent_error := Some e;
                                      sent_outputs := before ++ [attached_output t] |}] /\
    length before = (length response + k)%nat.
Proof.
  induction k as [|k IH]; intros todo j s lg response t e s' lg' Hp Hk Hbefore Ht Ha Hloop;
    (destruct todo as [|todo]; [lia|]); simpl in Hloop.
  - rewrite Nat.add_0_r in Ht.
    rewrite (output_step_live r request inference_response j s lg response t Hp Ht), Ha
      in Hloop.
    match type of Hloop with
    | output_loop _ _ _ _ _ ?s1 ?lg1 = _ =>
        pose proof (output_loop_null r request inference_response todo (S j) s1 lg1 eq_refl)
          as Hnull
    end.
    rewrite Hloop in Hnull. simpl in Hnull. subst s'.
    split; [done|]. exists response. split; [done|]. lia.
  - destruct (Hbefore 0%nat) as (t0 & mt & Ht0 & Ha0 & Hg0); [lia|].
    rewrite Nat.add_0_r in Ht0.
    rewrite (output_step_live r request inference_response j s lg response t0 Hp Ht0),
      Ha0, Hg0 in Hloop.
    destruct (matched_some inference_response j t0 Ht0) as (m & Hm & _).
    rewrite Hm in Hloop.
    destruct (IH todo (S j)
                {| slot_ptr := Some (response ++
                                     [allocated_output t0 mt (t_raw_data m)]);
                   slot_sent := slot_sent s |}
                lg (response ++ [allocated_output t0 mt (t_raw_data m)]) t e s' lg'
                eq_refl) as (Hnull & before & Hsent & Hlen).
    + lia.
    + intros k' Hk'. replace (S j + k')%nat with (j + S k')%nat by lia.
      apply Hbefore. lia.
    + replace (S j + k)%nat with (j + S k)%nat by lia. done.
    + done.
    + done.
    + split; [done|]. exists before. split; [done|].
      rewrite Hlen, length_app. simpl. lia.
Qed.

(** The requested output names only enter through their number. *)
Lemma output_loop_with_outputs names : forall todo j s lg,
  output_loop r (with_outputs names request) inference_response j todo s lg =
  output_loop r request inference_response j todo s lg.
Proof.
  induction todo as [|todo IH]; intros j s lg; [done|]. simpl.
  change (output_step r (with_outputs names request) inference_response j s lg)
    with (output_step r request inference_response j s lg).
  destruct (output_step r request inference_response j s lg); [apply IH|done].
Qed.

End Items.

(** ** The call as a whole *)

Section Calls.
Context `{TritonAPI}.
Variable instance_name : string.
Variable stub_Execute : list InferenceRequest -> grpc_Status * list InferenceResponse.
Variable requests : list TRITONBACKEND_Request.

(** The decoding loop reports and releases nothing. *)
Lemma decode_loop_bookkeeping execute_response : forall todo r st st',
  for_loop (decode_body requests execute_response) r todo st = Next st' ->
  released st' = released st /\ statistics st' = statistics st /\
  batch_statistics st' = batch_statistics st.
Proof.
  induction todo as [|todo IH]; intros r st st' Hloop; simpl in Hloop.
  - by injection Hloop as <-.
  - unfold decode_body at 1 in Hloop.
    destruct (requests !! r) as [q|]; [|done].
    destruct (responses st !! r) as [s|]; [|done].
    destruct (execute_response !! r) as [ir|]; [|done].
    destruct (decode_item r q ir s (exec_log st)) as [s1 lg|s1 lg]; [|done].
    apply IH in Hloop. exact Hloop.
Qed.

(** The release loop reports and releases each request of its range once,
    in index order. *)
Lemma release_loop_order : forall todo r st st',
  for_loop (release_body requests) r todo st = Next st' ->
  released st' = released st ++ seq r todo /\
  (statistics st').*1 = (statistics st).*1 ++ seq r todo /\
  batch_statistics st' = batch_statistics st.
Proof.
  induction todo as [|todo IH]; intros r st st' Hloop; simpl in Hloop.
  - injection Hloop as <-. by rewrite !app_nil_r.
  - unfold release_body at 1 in Hloop.
    destruct (requests !! r) as [q|]; [|done].
    destruct (responses st !! r) as [s|]; [|done].
    apply IH in Hloop as (H1 & H2 & H3).
    cbn [report_and_release released statistics batch_statistics] in H1, H2, H3.
    rewrite H1, H2, H3, fmap_app, <- !app_assoc. done.
Qed.

Lemma Execute_completed_bookkeeping status execute_response ret st :
  stub_Execute (wire_item <$> requests) = (status, execute_response) ->
  status_ok status = true ->
  TRITONBACKEND_ModelInstanceExecute instance_name stub_Execute requests =
    Completed ret st ->
  released st = seq 0 (length requests) /\
  (statistics st).*1 = seq 0 (length requests) /\
  batch_statistics st = [1%nat].
Proof.
  intros Hstub Hok Hrun.
  pose proof (Execute_completed_encodes _ _ _ _ _ Hrun) as Henc. revert Hrun.
  rewrite (Execute_when_transport_succeeds _ _ _ _ _ Henc Hstub Hok).
  destruct (for_loop (decode_body requests execute_response) 0 (length requests)
              (transmit (encoded_state requests))) as [st3|e st3|st3] eqn:Hdec.
  2:{ by apply for_loop_no_return in Hdec; [|apply decode_body_no_return]. }
  2:{ done. }
  destruct (decode_loop_bookkeeping _ _ _ _ _ Hdec) as (Hd1 & Hd2 & Hd3).
  cbn [transmit encoded_state released statistics batch_statistics] in Hd1, Hd2, Hd3.
  destruct (for_loop (release_body requests) 0 (length requests) st3)
    as [st4|e st4|st4] eqn:Hrel.
  2:{ by apply for_loop_no_return in Hrel; [|apply release_body_no_return]. }
  2:{ done. }
  destruct (release_loop_order _ _ _ _ Hrel) as (Hr1 & Hr2 & Hr3).
  cbn zeta. intros [= <- <-].
  cbn [with_log report_batch released statistics batch_statistics].
  rewrite Hr1, Hr2, Hr3, Hd1, Hd2, Hd3. done.
Qed.

End Calls.

(** X8. In a completed call after a successful round trip, take an item whose
    response is still pending after encoding, which the worker did not report
    as failed, and for which the allocator hands out a buffer outside GPU
    memory for each of the worker's tensors the output loop visits. The item
    is answered exactly once, without error, and is reported as a success.
    Its response holds one output per requested output, and the output at
    position [k] has the name, type and shape of the worker's tensor at
    position [k], whatever names were requested, and holds the payload of the
    tensor the name search matched, which is that same tensor when the worker
    used no name twice. *)
Theorem successful_item_delivers_the_worker_tensors_in_worker_order `{TritonAPI}
    (instance_name : string)
    (stub_Execute : list InferenceRequest -> grpc_Status * list InferenceResponse)
    (requests : list TRITONBACKEND_Request)
    (status : grpc_Status) (execute_response : list InferenceResponse)
    (ret : option TRITONSERVER_Error) (st : ExecState)
    (r : nat) (q : TRITONBACKEND_Request) (ir : InferenceResponse) :
  stub_Execute (wire_item <$> requests) = (status, execute_response) ->
  status_ok status = true ->
  TRITONBACKEND_ModelInstanceExecute instance_name stub_Execute requests =
    Completed ret st ->
  requests !! r = Some q ->
  accepted q ->
  execute_response !! r = Some ir ->
  resp_failed ir = false ->
  (forall k t, (k < length (rq_outputs q))%nat -> resp_outputs ir !! k = Some t ->
     exists mt, rq_allocator q (t_name t) (output_byte_size_of t) = Ok mt /\
                is_gpu mt = false) ->
  exists outs,
    responses st !! r =
      Some {| slot_ptr := Some outs;
              slot_sent := [{| sent_error := None; sent_outputs := outs |}] |} /\
    (r, true) ∈ statistics st /\
    length outs = length (rq_outputs q) /\
    forall k o, outs !! k = Some o ->
      exists t m mt,
        resp_outputs ir !! k = Some t /\
        matched ir t = Some m /\
        rq_allocator q (t_name t) (output_byte_size_of t) = Ok mt /\
        o = allocated_output t mt (t_raw_data m) /\
        (NoDup (t_name <$> resp_outputs ir) -> m = t).
Proof.
  intros Hstub Hok Hrun Hq Hacc Hir Hfailed Halloc.
  destruct (Execute_completed_items _ _ _ _ _ _ _ Hstub Hok Hrun)
    as (_ & _ & _ & Hitems).
  destruct (Hitems r q Hq) as (ir0 & s' & lg & lg' & H1 & H2 & H3 & H4).
  assert (ir0 = ir) as -> by congruence.
  rewrite (encoded_slot_accepted q Hacc) in H2.
  unfold decode_item in H2. rewrite Hfailed in H2.
  unfold TRITONBACKEND_RequestOutputCount in H2.
  rewrite GUARDED_pure_ok in H2 by done. unfold id in H2.
  destruct (output_loop r q ir 0 (length (rq_outputs q)) fresh_slot lg)
    as [s2 lg2|s2 lg2] eqn:Hloop; [|done].
  assert (Hfresh : slot_ptr fresh_slot <> None) by done.
  destruct (output_loop_stays_live r q ir (length (rq_outputs q)) 0 fresh_slot lg s2 lg2
              Hfresh (fun k t Hk => Halloc k t (proj2 Hk)) Hloop) as (Hlive & Hsent & _).
  destruct (output_loop_inv r q ir _ _ _ _ _ _ Hloop (slot_inv_fresh q ir)) as [Hresp _].
  destruct (slot_ptr s2) as [outs|] eqn:Hs2; [|done].
  destruct (Hresp outs eq_refl) as [Hlen Hdel].
  injection H2 as <- _. rewrite Hsent in H3. cbn [fresh_slot slot_sent app] in H3.
  cbn [slot_ptr is_null negb] in H4.
  exists outs. split; [exact H3|]. split; [exact H4|]. split; [exact Hlen|].
  intros k o Ho. destruct (Hdel k o Ho) as (t & Ht & Hd).
  unfold delivered_output in Hd.
  destruct (rq_allocator q (t_name t) (output_byte_size_of t)) as [mt|e] eqn:Ha; [|done].
  destruct (matched ir t) as [m|] eqn:Hm; [|done].
  destruct (is_gpu mt); [done|]. injection Hd as <-.
  exists t, m, mt. repeat split; try done.
  intros Hnd. unfold matched in Hm. apply find_some in Hm as [Hin Hname].
  apply bool_decide_eq_true in Hname.
  apply list_elem_of_In, list_elem_of_lookup in Hin as [k' Hk'].
  assert (k' = k); [|congruence].
  apply (NoDup_lookup (t_name <$> resp_outputs ir) k' k (t_name t) Hnd).
  - rewrite list_lookup_fmap, Hk'. simpl. by rewrite Hname.
  - by rewrite list_lookup_fmap, Ht.
Qed.

(** Two requested outputs, answered with [A] and [B]. *)
Lemma successful_item_delivers_the_worker_tensors_in_worker_order_witness :
  exists st outs,
    TRITONBACKEND_ModelInstanceExecute "add_sub_0" Samples.stub_A_B
      [MoreSamples.pair_request] = Completed None st /\
    responses st !! 0%nat =
      Some {| slot_ptr := Some outs;
              slot_sent := [{| sent_error := None; sent_outputs := outs |}] |} /\
    length outs = 2%nat.
Proof.
  destruct (TRITONBACKEND_ModelInstanceExecute "add_sub_0" Samples.stub_A_B
              [MoreSamples.pair_request]) as [ret st|st] eqn:Hrun.
  - destruct (successful_item_delivers_the_worker_tensors_in_worker_order "add_sub_0"
                Samples.stub_A_B [MoreSamples.pair_request] grpc_OK _ ret st 0%nat
                MoreSamples.pair_request
                (Samples.succeeded [Samples.tensor_A; Samples.tensor_B])
                eq_refl eq_refl Hrun eq_refl)
      as (outs & Hslot & _ & Hlen & _).
    + repeat constructor; simpl; lia.
    + reflexivity.
    + reflexivity.
    + intros k t _ _. exists TRITONSERVER_MEMORY_CPU. split; reflexivity.
    + vm_compute in Hrun. injection Hrun as <- _.
      exists st, outs. split; [reflexivity|]. split; [exact Hslot|exact Hlen].
  - vm_compute in Hrun. discriminate Hrun.
Defined.

(** X9. In a completed call after a successful round trip, take a successful
    item whose response is still pending after encoding, and the first of its
    outputs for which the allocator returns an error, at position [j]. The
    item is answered exactly once, with the allocator's error unchanged; the
    response that goes out holds the [j] outputs delivered before and the
    output at [j] without a buffer; the outputs after [j] are never attached,
    no success response is sent, and the item is reported as failed. *)
Theorem allocator_error_is_the_item_error `{TritonAPI}
    (instance_name : string)
    (stub_Execute : list InferenceRequest -> grpc_Status * list InferenceResponse)
    (requests : list TRITONBACKEND_Request)
    (status : grpc_Status) (execute_response : list InferenceResponse)
    (ret : option TRITONSERVER_Error) (st : ExecState)
    (r : nat) (q : TRITONBACKEND_Request) (ir : InferenceResponse)
    (j : nat) (t : Tensor) (e : TRITONSERVER_Error) :
  stub_Execute (wire_item <$> requests) = (status, execute_response) ->
  status_ok status = true ->
  TRITONBACKEND_ModelInstanceExecute instance_name stub_Execute requests =
    Completed ret st ->
  requests !! r = Some q ->
  accepted q ->
  execute_response !! r = Some ir ->
  resp_failed ir = false ->
  (j < length (rq_outputs q))%nat ->
  (forall k, (k < j)%nat ->
     exists t' mt, resp_outputs ir !! k = Some t' /\
       rq_allocator q (t_name t') (output_byte_size_of t') = Ok mt /\
       is_gpu mt = false) ->
  resp_outputs ir !! j = Some t ->
  rq_allocator q (t_name t) (output_byte_size_of t) = Err e ->
  (exists before,
     responses st !! r =
       Some {| slot_ptr := None;
               slot_sent := [{| sent_error := Some e;
                                sent_outputs := before ++ [attached_output t] |}] |} /\
     length before = j) /\
  (r, false) ∈ statistics st.
Proof.
  intros Hstub Hok Hrun Hq Hacc Hir Hfailed Hj Hbefore Ht Ha.
  destruct (Execute_completed_items _ _ _ _ _ _ _ Hstub Hok Hrun)
    as (_ & _ & _ & Hitems).
  destruct (Hitems r q Hq) as (ir0 & s' & lg & lg' & H1 & H2 & H3 & H4).
  assert (ir0 = ir) as -> by congruence.
  rewrite (encoded_slot_accepted q Hacc) in H2.
  unfold decode_item in H2. rewrite Hfailed in H2.
  unfold TRITONBACKEND_RequestOutputCount in H2.
  rewrite GUARDED_pure_ok in H2 by done. unfold id in H2.
  destruct (output_loop r q ir 0 (length (rq_outputs q)) fresh_slot lg)
    as [s2 lg2|s2 lg2] eqn:Hloop; [|done].
  destruct (output_loop_allocator_error r q ir j (length (rq_outputs q)) 0 fresh_slot lg []
              t e s2 lg2 eq_refl Hj Hbefore Ht Ha Hloop)
    as (Hnull & before & Hsent & Hlen).
  rewrite Hnull in H2. injection H2 as <- _.
  destruct s2 as [p2 sent2]. simpl in Hnull, Hsent. subst p2 sent2.
  split; [|exact H4].
  exists before. split; [exact H3|]. simpl in Hlen. lia.
Qed.

(** The allocator has no memory for [B], the second output. *)
Lemma allocator_error_is_the_item_error_witness :
  exists st before,
    TRITONBACKEND_ModelInstanceExecute "add_sub_0" Samples.stub_A_B
      [MoreSamples.request_no_memory] = Completed None st /\
    responses st !! 0%nat =
      Some {| slot_ptr := None;
              slot_sent := [{| sent_error := Some MoreSamples.no_memory;
                               sent_outputs :=
                                 before ++ [attached_output Samples.tensor_B] |}] |} /\
    length before = 1%nat.
Proof.
  destruct (TRITONBACKEND_ModelInstanceExecute "add_sub_0" Samples.stub_A_B
              [MoreSamples.request_no_memory]) as [ret st|st] eqn:Hrun.
  - destruct (allocator_error_is_the_item_error "add_sub_0" Samples.stub_A_B
                [MoreSamples.request_no_memory] grpc_OK _ ret st 0%nat
                MoreSamples.request_no_memory
                (Samples.succeeded [Samples.tensor_A; Samples.tensor_B])
                1%nat Samples.tensor_B MoreSamples.no_memory eq_refl eq_refl Hrun eq_refl)
      as ((before & Hslot & Hlen) & _).
    + apply Forall_nil_2.
    + reflexivity.
    + reflexivity.
    + simpl. lia.
    + intros k Hk. assert (k = 0%nat) as -> by lia.
      exists Samples.tensor_A, TRITONSERVER_MEMORY_CPU. repeat split.
    + reflexivity.
    + reflexivity.
    + vm_compute in Hrun. injection Hrun as <- _.
      exists st, before. split; [reflexivity|]. split; [exact Hslot|exact Hlen].
  - vm_compute in Hrun. discriminate Hrun.
Defined.

(** X10. In every completed call, whether the round trip failed, the worker
    reported failures, or the allocator failed or placed a buffer in GPU
    memory, each request of the batch was answered exactly once, and the
    success flag reported for it in the statistics is set exactly when that
    one answer carries no error. *)
Theorem every_request_is_answered_exactly_once `{TritonAPI}
    (instance_name : string)
    (stub_Execute : list InferenceRequest -> grpc_Status * list InferenceResponse)
    (requests : list TRITONBACKEND_Request)
    (ret : option TRITONSERVER_Error) (st : ExecState) :
  TRITONBACKEND_ModelInstanceExecute instance_name stub_Execute requests =
    Completed ret st ->
  length (responses st) = length requests /\
  forall r s, responses st !! r = Some s ->
    exists x, slot_sent s = [x] /\ (r, is_null (sent_error x)) ∈ statistics st.
Proof.
  intros Hrun.
  destruct (stub_Execute (wire_item <$> requests)) as [status execute_response] eqn:Hstub.
  destruct (status_ok status) eqn:Hok.
  - destruct (Execute_completed_items _ _ _ _ _ _ _ Hstub Hok Hrun)
      as (_ & Hlen & _ & Hitems).
    split; [exact Hlen|]. intros r s Hs.
    destruct (lookup_lt_is_Some_2 requests r) as [q Hq].
    { apply lookup_lt_Some in Hs. lia. }
    destruct (Hitems r q Hq) as (ir & s' & lg & lg' & _ & Hdec & Hs' & Hstat).
    assert (s' = s) as -> by congruence.
    destruct (decode_item_once r q ir _ lg s lg' Hdec (encoded_slot_cases q))
      as (x & Hx & Hflag).
    exists x. split; [exact Hx|]. by rewrite <- Hflag.
  - pose proof (Execute_completed_encodes _ _ _ _ _ Hrun) as Henc.
    rewrite (Execute_when_transport_fails _ _ _ _ _ Henc Hstub Hok) in Hrun.
    injection Hrun as _ <-. cbn [responses statistics].
    split; [by rewrite length_replicate|]. intros r s Hs.
    apply lookup_replicate in Hs as [-> Hr].
    assert (Hin : (r, false) ∈ (fun i : nat => (i, false)) <$> seq 0 (length requests)).
    { apply (list_elem_of_fmap_2 (fun i : nat => (i, false))). apply elem_of_seq. lia. }
    eexists; (split; [reflexivity|exact Hin]).
Qed.

Lemma every_request_is_answered_exactly_once_witness :
  exists st,
    TRITONBACKEND_ModelInstanceExecute "add_sub_0" Samples.stub_third_failed
      [Samples.small_request; Samples.small_request; Samples.small_request]
      = Completed None st /\
    length (responses st) = 3%nat /\
    (length <$> (slot_sent <$> responses st)) = [1%nat; 1%nat; 1%nat] /\
    statistics st = [(0%nat, true); (1%nat, true); (2%nat, false)].
Proof.
  destruct (TRITONBACKEND_ModelInstanceExecute "add_sub_0" Samples.stub_third_failed
              [Samples.small_request; Samples.small_request; Samples.small_request])
    as [ret st|st] eqn:Hrun.
  - destruct (every_request_is_answered_exactly_once _ _ _ _ _ Hrun) as [Hlen _].
    vm_compute in Hrun. injection Hrun as <- <-.
    eexists. split; [reflexivity|]. split; [exact Hlen|].
    split; reflexivity.
  - vm_compute in Hrun. discriminate Hrun.
Defined.

(** X11. A call that completes returns no error, whatever happened to its
    requests. It made one round trip, with one wire item per request; it
    reported statistics for and released every request exactly once, in index
    order; and it reported batch statistics, once and with batch size 1,
    exactly when the round trip succeeded. *)
Theorem completed_call_releases_every_request_once_in_order `{TritonAPI}
    (instance_name : string)
    (stub_Execute : list InferenceRequest -> grpc_Status * list InferenceResponse)
    (requests : list TRITONBACKEND_Request)
    (ret : option TRITONSERVER_Error) (st : ExecState) :
  TRITONBACKEND_ModelInstanceExecute instance_name stub_Execute requests =
    Completed ret st ->
  ret = None /\
  transmitted st = [wire_item <$> requests] /\
  released st = seq 0 (length requests) /\
  (statistics st).*1 = seq 0 (length requests) /\
  batch_statistics st =
    if status_ok (stub_Execute (wire_item <$> requests)).1 then [1%nat] else [].
Proof.
  intros Hrun.
  destruct (stub_Execute (wire_item <$> requests)) as [status execute_response] eqn:Hstub.
  cbn [fst]. destruct (status_ok status) eqn:Hok.
  - destruct (Execute_completed_items _ _ _ _ _ _ _ Hstub Hok Hrun) as (Hret & _ & Htx & _).
    destruct (Execute_completed_bookkeeping _ _ _ _ _ _ _ Hstub Hok Hrun)
      as (Hrel & Hstat & Hbatch).
    done.
  - pose proof (Execute_completed_encodes _ _ _ _ _ Hrun) as Henc.
    rewrite (Execute_when_transport_fails _ _ _ _ _ Henc Hstub Hok) in Hrun.
    injection Hrun as <- <-. cbn [transmitted released statistics batch_statistics].
    repeat split; try done.
    rewrite <- list_fmap_compose. apply list_fmap_id.
Qed.

Lemma completed_call_releases_every_request_once_in_order_witness :
  exists st,
    TRITONBACKEND_ModelInstanceExecute "add_sub_0" Samples.stub_down
      [Samples.small_request; Samples.small_request] = Completed None st /\
    released st = [0%nat; 1%nat] /\ batch_statistics st = [].
Proof.
  destruct (TRITONBACKEND_ModelInstanceExecute "add_sub_0" Samples.stub_down
              [Samples.small_request; Samples.small_request]) as [ret st|st] eqn:Hrun.
  - destruct (completed_call_releases_every_request_once_in_order _ _ _ _ _ Hrun)
      as (-> & _ & Hrel & _ & Hbatch).
    exists st. split; [reflexivity|]. split; [exact Hrel|exact Hbatch].
  - vm_compute in Hrun. discriminate Hrun.
Defined.

(** X12. Decoding never looks at the names the caller requested: replacing
    them by any other names, as many as before, leaves the outcome of
    decoding an item unchanged, for every worker response, every state of the
    item's response and every log. Which outputs a response carries is
    decided by the worker's tensors and the number of requested outputs. *)
Theorem decoding_ignores_the_requested_output_names `{TritonAPI}
    (r : nat) (q : TRITONBACKEND_Request) (ir : InferenceResponse)
    (s : Slot) (lg : list string) (names : list string) :
  length names = length (rq_outputs q) ->
  decode_item r (with_outputs names q) ir s lg = decode_item r q ir s lg.
Proof.
  intros Hlen. unfold decode_item.
  destruct (resp_failed ir); [done|].
  unfold TRITONBACKEND_RequestOutputCount. cbn [with_outputs rq_outputs].
  rewrite Hlen.
  destruct (GUARDED_RESPOND_IF_ERROR (pure_call id (Ok (length (rq_outputs q)))) 0%nat s)
    as [s1 n].
  by rewrite output_loop_with_outputs.
Qed.

(** The caller asks for [X] and [Y] instead of [A] and [B]. *)
Lemma decoding_ignores_the_requested_output_names_witness :
  decode_item 0 (with_outputs ["X"; "Y"] Samples.request_A_B)
    (Samples.succeeded [Samples.tensor_A; Samples.tensor_B]) fresh_slot [] =
  decode_item 0 Samples.request_A_B
    (Samples.succeeded [Samples.tensor_A; Samples.tensor_B]) fresh_slot [].
Proof.
  exact (decoding_ignores_the_requested_output_names 0 Samples.request_A_B
           (Samples.succeeded [Samples.tensor_A; Samples.tensor_B]) fresh_slot []
           ["X"; "Y"] eq_refl).
Defined.

(** X13. [GetInputTensor], called under the guard for an input index the
    request does not have, answers the request twice with the host's error:
    once through a response it creates for that purpose, which holds no
    output, and once through the request's own response, which is dropped.
    The tensor is left blank. *)
Theorem GetInputTensor_host_error_answers_twice
    (q : TRITONBACKEND_Request) (k : nat) (s : Slot)
    (response : TRITONBACKEND_Response) :
  slot_ptr s = Some response ->
  (length (rq_inputs q) <= k)%nat ->
  exists e,
    TRITONBACKEND_RequestInputName q k = Err e /\
    GUARDED_RESPOND_IF_ERROR (GetInputTensor k q blank_Tensor) blank_Tensor s =
      ({| slot_ptr := None;
          slot_sent := slot_sent s ++
                       [ {| sent_error := Some e; sent_outputs := [] |};
                         {| sent_error := Some e; sent_outputs := response |} ] |},
       blank_Tensor).
Proof.
  intros Hs Hk. unfold GUARDED_RESPOND_IF_ERROR, GetInputTensor,
    TRITONBACKEND_RequestInputName.
  rewrite Hs, (lookup_ge_None_2 _ _ Hk). eexists. split; [reflexivity|].
  unfold respond_new, send_error, TRITONBACKEND_ResponseNew.
  cbn [slot_ptr slot_sent default from_option]. rewrite Hs, <- app_assoc. done.
Qed.

Lemma GetInputTensor_host_error_answers_twice_witness :
  exists e,
    GUARDED_RESPOND_IF_ERROR (GetInputTensor 1 Samples.small_request blank_Tensor)
      blank_Tensor fresh_slot =
      ({| slot_ptr := None;
          slot_sent := [ {| sent_error := Some e; sent_outputs := [] |};
                         {| sent_error := Some e; sent_outputs := [] |} ] |},
       blank_Tensor).
Proof.
  destruct (GetInputTensor_host_error_answers_twice Samples.small_request 1 fresh_slot []
              eq_refl) as (e & _ & Heq).
  - simpl. lia.
  - exists e. exact Heq.
Defined.

(** X14. When the call runs to its end, for a batch of requests with unique
    input names. It does exactly when the size check lets every input of
    every request through and, in case the round trip succeeds, the worker
    answered every request with a response item that is reported as failed
    or has at least as many tensors as the request has requested outputs.
    Otherwise the call stops on the read of a local that was never assigned,
    or on a read past the worker's answer. *)
Theorem Execute_completes_iff_every_item_is_defined `{TritonAPI}
    (instance_name : string)
    (stub_Execute : list InferenceRequest -> grpc_Status * list InferenceResponse)
    (requests : list TRITONBACKEND_Request)
    (status : grpc_Status) (execute_response : list InferenceResponse) :
  Forall (fun q => NoDup (in_name <$> rq_inputs q)) requests ->
  stub_Execute (wire_item <$> requests) = (status, execute_response) ->
  (exists ret st,
     TRITONBACKEND_ModelInstanceExecute instance_name stub_Execute requests =
       Completed ret st) <->
  (Forall accepted requests /\
   (status_ok status = false \/
    forall i q, requests !! i = Some q ->
      exists ir, execute_response !! i = Some ir /\ item_defined q ir = true)).
Proof.
  intros Hnd Hstub. split.
  - intros (ret & st & Hrun).
    pose proof (Execute_completed_encodes _ _ _ _ _ Hrun) as Henc. split.
    + rewrite Forall_forall in *. intros q Hq.
      apply (encodes_iff_accepted q (Hnd q Hq)), Henc, Hq.
    + destruct (status_ok status) eqn:Hok; [right|by left]. intros i q Hq.
      destruct (Execute_completed_derived _ _ _ _ _ _ _ Hstub Hok Hrun i q Hq)
        as (ir & s & Hir & _ & _ & Hdef).
      by exists ir.
  - intros [Hacc Hitems].
    pose proof (Forall_impl _ _ _ Hacc accepted_encodes) as Henc.
    destruct (status_ok status) eqn:Hok.
    + destruct Hitems as [|Hitems]; [done|].
      destruct (Execute_completes instance_name stub_Execute requests status
                  execute_response Henc Hstub Hok Hitems) as [st Hrun].
      by exists None, st.
    + eexists _, _. by apply (Execute_when_transport_fails _ _ _ _ _ Henc Hstub Hok).
Qed.

(** The worker leaves out one of the two requested outputs: the call does not
    run to its end. *)
Lemma Execute_completes_iff_every_item_is_defined_witness :
  ~ exists ret st,
      TRITONBACKEND_ModelInstanceExecute "add_sub_0" Samples.stub_only_B
        [Samples.request_A_B] = Completed ret st.
Proof.
  intros Hrun.
  apply (Execute_completes_iff_every_item_is_defined "add_sub_0" Samples.stub_only_B
           [Samples.request_A_B] grpc_OK [Samples.succeeded [Samples.tensor_B]])
    in Hrun as [_ [Hok|Hdef]]; [discriminate Hok| | |reflexivity].
  - destruct (Hdef 0%nat Samples.request_A_B eq_refl) as (ir & Hir & Hd).
    injection Hir as <-. vm_compute in Hd. discriminate Hd.
  - repeat constructor.
Defined.

End BridgeMore.
